(** * proj-rcom: stop-and-wait data link layer and control-packet codec

    Shallow embedding of [link_layer.c] (byte stuffing, [llwrite],
    [llread]) and of the control-packet builder and parser of
    [application_layer.c].

    Conventions.
    - An [unsigned char] is a [Z] in [0, 256); where the C code assigns an
      [int] expression to an [unsigned char] the truncation [to_uchar] is
      written out.
    - A C array that the code fills from index 0 upward is a [list Z] whose
      length is the running index.  Declared capacities are kept as
      separate definitions ([frame_capacity]) so that the index of each
      store can be compared with them.
    - The serial port is a list of [event]s still to be observed by
      [readByteSerialPort] together with the list of buffers already handed
      to [writeBytesSerialPort]. *)

From Stdlib Require Import ZArith List Bool Lia.
From Equations Require Import Equations.
Import ListNotations.
Open Scope Z_scope.

Set Implicit Arguments.

(* ------------------------------------------------------------------ *)
(** ** Bytes *)

Definition to_uchar (x : Z) : Z := x mod 256.

Definition is_uchar (b : Z) : Prop := 0 <= b < 256.

Definition all_uchar (l : list Z) : Prop := Forall is_uchar l.

(* ------------------------------------------------------------------ *)
(** ** link_layer.c *)

Module LinkLayer.

Definition FLAG : Z := 0x7E.
Definition A_SENDER : Z := 0x03.
Definition A_RECEIVER : Z := 0x01.
Definition C_SET : Z := 0x03.
Definition C_UA : Z := 0x07.
Definition C_DISC : Z := 0x0B.
Definition C_RR0 : Z := 0x05.
Definition C_RR1 : Z := 0x85.
Definition C_REJ0 : Z := 0x01.
Definition C_REJ1 : Z := 0x81.

Definition MAX_RETRIES : nat := 3.

(** *** Byte stuffing *)

(** [stuffData data size dest &destSize]: the result is [dest[0..j)], and
    [*destSize] is its length. *)
Fixpoint stuffData (data : list Z) : list Z :=
  match data with
  | [] => []
  | b :: rest =>
      if b =? FLAG then 0x7D :: 0x5E :: stuffData rest
      else if b =? 0x7D then 0x7D :: 0x5D :: stuffData rest
      else b :: stuffData rest
  end.

(** [destuffData]: on [0x7D] the index is advanced; the following byte, if
    there is one ([i < size]), is decoded as [FLAG] when it is [0x5E] and as
    [0x7D] otherwise.  An escape in last position stores nothing. *)
Fixpoint destuffData (data : list Z) : list Z :=
  match data with
  | [] => []
  | b :: rest =>
      if b =? 0x7D then
        match rest with
        | [] => []
        | c :: rest' => (if c =? 0x5E then FLAG else 0x7D) :: destuffData rest'
        end
      else b :: destuffData rest
  end.

(** *** Serial port and session state *)

(** What one call of [readByteSerialPort] observes. *)
Inductive event : Type :=
| Rx (byte : Z)   (* returned 1 and stored [byte] *)
| Idle            (* returned 0 or less: nothing arrived within the port timeout *)
| Alarm.          (* SIGALRM was delivered: [handleAlarm] set [alarmFlag],
                     the interrupted read returned 0 or less *)

(** The file-scope variables [sequenceNumber], the function-static
    [expectedSeq] of [llread], and the two directions of the port.  Each
    element of [tx] is the buffer of one [writeBytesSerialPort] call. *)
Record link : Type := mkLink {
  sequenceNumber : Z;
  expectedSeq : Z;
  rx : list event;
  tx : list (list Z) }.

Definition writeBytesSerialPort (bytes : list Z) (l : link) : link :=
  mkLink (sequenceNumber l) (expectedSeq l) (rx l) (tx l ++ [bytes]).

Definition with_rx (tr : list event) (l : link) : link :=
  mkLink (sequenceNumber l) (expectedSeq l) tr (tx l).

Definition with_sequenceNumber (sn : Z) (l : link) : link :=
  mkLink sn (expectedSeq l) (rx l) (tx l).

Definition with_expectedSeq (es : Z) (l : link) : link :=
  mkLink (sequenceNumber l) es (rx l) (tx l).

(** The static initialisers: both sequence bits start at 0. *)
Definition link_init (tr : list event) : link := mkLink 0 0 tr [].

(** A call either returns an [int] or is still blocked in a read loop when
    the observed events run out. *)
Inductive outcome : Type :=
| Returned (ret : Z)
| Starved.

(** *** llwrite *)

Definition control_field (sequenceNumber : Z) : Z :=
  if sequenceNumber =? 0 then 0x00 else 0x40.

(** [bcc2 = 0; for (...) bcc2 ^= buf[i];] with [bcc2] an [unsigned char]. *)
Definition bcc2_of (buf : list Z) : Z :=
  fold_left (fun bcc2 b => to_uchar (Z.lxor bcc2 b)) buf 0.

(** The bytes [frame[0 .. totalSize)] handed to the port: [dataWithBCC] is
    [buf] followed by BCC2, stuffed at [frame + 4]; [totalSize] is
    [5 + stuffedSize]. *)
Definition build_iframe (sequenceNumber : Z) (buf : list Z) : list Z :=
  let control := control_field sequenceNumber in
  let dataWithBCC := buf ++ [bcc2_of buf] in
  [FLAG; A_SENDER; control; to_uchar (Z.lxor A_SENDER control)]
    ++ stuffData dataWithBCC ++ [FLAG].

(** [unsigned char frame[2 * bufSize + 6]]. *)
Definition frame_capacity (bufSize : Z) : Z := 2 * bufSize + 6.

(** The largest index stored into [frame]: [frame[4 + stuffedSize] = FLAG]. *)
Definition iframe_last_store (buf : list Z) : Z :=
  4 + Z.of_nat (length (stuffData (buf ++ [bcc2_of buf]))).

Definition expected_rr (sequenceNumber : Z) : Z :=
  if sequenceNumber =? 0 then C_RR1 else C_RR0.

Definition expected_rej (sequenceNumber : Z) : Z :=
  if sequenceNumber =? 0 then C_REJ0 else C_REJ1.

(** Locals of the acknowledgment wait loop. *)
Record ack_sm : Type := mkAck {
  state : nat;
  receivedControl : Z;
  ackReceived : bool }.

Definition ack_init : ack_sm := mkAck 0 0 false.

(** The [switch (state)] of [llwrite], run on one received byte. *)
Definition ack_step (sequenceNumber : Z) (s : ack_sm) (byte : Z) : ack_sm :=
  match state s with
  | 0%nat =>
      if byte =? FLAG then mkAck 1 (receivedControl s) (ackReceived s) else s
  | 1%nat =>
      if byte =? A_RECEIVER then mkAck 2 (receivedControl s) (ackReceived s)
      else if negb (byte =? FLAG) then mkAck 0 (receivedControl s) (ackReceived s)
      else s
  | 2%nat =>
      if byte =? expected_rr sequenceNumber then mkAck 3 byte (ackReceived s)
      else if byte =? expected_rej sequenceNumber then mkAck 3 byte (ackReceived s)
      else if byte =? FLAG then mkAck 1 byte (ackReceived s)
      else mkAck 0 byte (ackReceived s)
  | 3%nat =>
      if byte =? Z.lxor A_RECEIVER (receivedControl s)
      then mkAck 4 (receivedControl s) (ackReceived s)
      else if byte =? FLAG then mkAck 1 (receivedControl s) (ackReceived s)
      else mkAck 0 (receivedControl s) (ackReceived s)
  | 4%nat =>
      if byte =? FLAG then mkAck 4 (receivedControl s) true
      else mkAck 0 (receivedControl s) (ackReceived s)
  | _ => s
  end.

Inductive wait_result : Type :=
| Acked (receivedControl : Z)   (* loop left with [ackReceived] set *)
| TimedOut                      (* loop left with [alarmFlag] set *)
| NoMoreInput.

(** [while (!alarmFlag && !ackReceived)]: returns how the loop was left and
    the events not yet observed. *)
Fixpoint wait_ack (sequenceNumber : Z) (s : ack_sm) (tr : list event)
  : wait_result * list event :=
  match tr with
  | [] => (NoMoreInput, [])
  | Alarm :: tr' => (TimedOut, tr')
  | Idle :: tr' => wait_ack sequenceNumber s tr'
  | Rx byte :: tr' =>
      let s' := ack_step sequenceNumber s byte in
      if ackReceived s' then (Acked (receivedControl s'), tr')
      else wait_ack sequenceNumber s' tr'
  end.

(** [while (retries < MAX_RETRIES)], with [remaining] standing for
    [MAX_RETRIES - retries]; both [retries++] branches go to [remaining']. *)
Fixpoint llwrite_loop (remaining : nat) (buf : list Z) (l : link)
  : outcome * link :=
  match remaining with
  | O => (Returned (-1), l)
  | S remaining' =>
      let frame := build_iframe (sequenceNumber l) buf in
      let l1 := writeBytesSerialPort frame l in
      match wait_ack (sequenceNumber l) ack_init (rx l1) with
      | (NoMoreInput, tr) => (Starved, with_rx tr l1)
      | (TimedOut, tr) => llwrite_loop remaining' buf (with_rx tr l1)
      | (Acked rc, tr) =>
          if rc =? expected_rr (sequenceNumber l) then
            (Returned (Z.of_nat (length buf)),
             with_sequenceNumber (Z.lxor (sequenceNumber l) 1) (with_rx tr l1))
          else llwrite_loop remaining' buf (with_rx tr l1)
      end
  end.

(** [llwrite] for a retry bound given as a parameter. *)
Definition llwrite_with (max_retries : nat) (buf : list Z) (l : link)
  : outcome * link :=
  llwrite_loop max_retries buf l.

Definition llwrite (buf : list Z) (l : link) : outcome * link :=
  llwrite_with MAX_RETRIES buf l.

(** *** llread *)

(** The frame-capture loop.  [frame] holds [frame[0 .. idx)]; the test
    [idx < 2048] guards only the store of a non-flag byte. *)
Fixpoint read_frame (inFrame : bool) (frame : list Z) (tr : list event)
  : option (list Z * list event) :=
  match tr with
  | [] => None
  | Rx byte :: tr' =>
      if byte =? FLAG then
        if negb inFrame then read_frame true [byte] tr'
        else Some (frame ++ [byte], tr')
      else if inFrame then
        if Z.of_nat (length frame) <? 2048
        then read_frame true (frame ++ [byte]) tr'
        else read_frame false [] tr'
      else read_frame inFrame frame tr'
  | _ :: tr' => read_frame inFrame frame tr'
  end.

(** The five-byte reply [{FLAG, A_RECEIVER, c, A_RECEIVER ^ c, FLAG}]. *)
Definition reply_frame (c : Z) : list Z :=
  [FLAG; A_RECEIVER; c; to_uchar (Z.lxor A_RECEIVER c); FLAG].

(** [memcpy(dst, src, n)] on a destination of at least [n] bytes. *)
Definition memcpy (dst src : list Z) (n : Z) : list Z :=
  firstn (Z.to_nat n) src ++ skipn (Z.to_nat n) dst.

(** The [send_rej] label. *)
Definition send_rej (packet : list Z) (l : link) : outcome * list Z * link :=
  let rej := if expectedSeq l =? 0 then C_REJ0 else C_REJ1 in
  (Returned (-1), packet, writeBytesSerialPort (reply_frame rej) l).

(** Everything after the capture loop, on the captured [frame[0 .. idx)]. *)
Definition llread_frame (frame : list Z) (packet : list Z) (l : link)
  : outcome * list Z * link :=
  let idx := Z.of_nat (length frame) in
  if idx <? 5 then send_rej packet l
  else if negb (Z.lxor (nth 1 frame 0) (nth 2 frame 0) =? nth 3 frame 0)
  then send_rej packet l
  else
    let control := nth 2 frame 0 in
    let receivedSeq := if Z.land control 0x40 =? 0 then 0 else 1 in
    if negb (receivedSeq =? expectedSeq l) then
      let rr := if expectedSeq l =? 0 then C_RR1 else C_RR0 in
      (Returned (-1), packet, writeBytesSerialPort (reply_frame rr) l)
    else
      let data := destuffData (firstn (Z.to_nat (idx - 5)) (skipn 4 frame)) in
      let dataSize := Z.of_nat (length data) in
      if dataSize <? 1 then send_rej packet l
      else
        let bcc2 := bcc2_of (firstn (Z.to_nat (dataSize - 1)) data) in
        if negb (bcc2 =? nth (Z.to_nat (dataSize - 1)) data 0)
        then send_rej packet l
        else
          let rr := if expectedSeq l =? 0 then C_RR1 else C_RR0 in
          let l1 := writeBytesSerialPort (reply_frame rr) l in
          (Returned (dataSize - 1),
           memcpy packet data (dataSize - 1),
           with_expectedSeq (Z.lxor (expectedSeq l) 1) l1).

(** [llread(packet)]: the caller's buffer is threaded through. *)
Definition llread (packet : list Z) (l : link) : outcome * list Z * link :=
  match read_frame false [] (rx l) with
  | None => (Starved, packet, with_rx [] l)
  | Some (frame, tr) => llread_frame frame packet (with_rx tr l)
  end.

(** *** llopen and llclose *)

(** [connectionParameters.role] and the argument of [llclose]. *)
Inductive LinkLayerRole : Type := LlTx | LlRx.

(** The five-byte frames built in [frame[0..4]]. *)
Definition sup_frame (A C : Z) : list Z :=
  [FLAG; A; C; to_uchar (Z.lxor A C); FLAG].

(** The [switch (state)] that [llopen] and [llclose] repeat for each frame
    they wait for, with the awaited address and control bytes as [A] and
    [C].  [None] is the branch of [case 4] that leaves the loop (by
    [return] or [goto]). *)
Definition sup_step (A C : Z) (state : nat) (recvByte : Z) : option nat :=
  match state with
  | 0%nat => if recvByte =? FLAG then Some 1%nat else Some state
  | 1%nat =>
      if recvByte =? A then Some 2%nat
      else if negb (recvByte =? FLAG) then Some 0%nat
      else Some state
  | 2%nat =>
      if recvByte =? C then Some 3%nat
      else if recvByte =? FLAG then Some 1%nat
      else Some 0%nat
  | 3%nat =>
      if recvByte =? Z.lxor A C then Some 4%nat
      else if recvByte =? FLAG then Some 1%nat
      else Some 0%nat
  | 4%nat => if recvByte =? FLAG then None else Some 0%nat
  | _ => Some state
  end.

Inductive sup_result : Type :=
| Accepted        (* the awaited frame was completed *)
| SupTimedOut     (* [while (!alarmFlag)] left with the flag set *)
| SupNoMoreInput.

(** A wait loop around [sup_step].  With [timed] the loop is
    [while (!alarmFlag)]; without it the loop is [while (1)] and an alarm
    only makes one read return nothing. *)
Fixpoint wait_sup (timed : bool) (A C : Z) (state : nat) (tr : list event)
  : sup_result * list event :=
  match tr with
  | [] => (SupNoMoreInput, [])
  | Alarm :: tr' =>
      if timed then (SupTimedOut, tr') else wait_sup timed A C state tr'
  | Idle :: tr' => wait_sup timed A C state tr'
  | Rx recvByte :: tr' =>
      match sup_step A C state recvByte with
      | None => (Accepted, tr')
      | Some state' => wait_sup timed A C state' tr'
      end
  end.

(** What a call of [llopen] or [llclose] leaves behind: its return value,
    the session, and whether it called [closeSerialPort]. *)
Record port_result : Type := mkPortResult {
  pr_outcome : outcome;
  pr_link : link;
  pr_closed : bool }.

(** The transmitter loop of [llopen], [remaining] standing for
    [MAX_RETRIES - retries]; [fd] is what [openSerialPort] returned. *)
Fixpoint llopen_tx_loop (remaining : nat) (fd : Z) (l : link) : port_result :=
  match remaining with
  | O => mkPortResult (Returned (-1)) l true
  | S remaining' =>
      let l1 := writeBytesSerialPort (sup_frame A_SENDER C_SET) l in
      match wait_sup true A_RECEIVER C_UA 0 (rx l1) with
      | (Accepted, tr) => mkPortResult (Returned fd) (with_rx tr l1) false
      | (SupTimedOut, tr) => llopen_tx_loop remaining' fd (with_rx tr l1)
      | (SupNoMoreInput, tr) => mkPortResult Starved (with_rx tr l1) false
      end
  end.

(** [llopen(connectionParameters)], with the result [fd] of
    [openSerialPort] given. *)
Definition llopen (role : LinkLayerRole) (fd : Z) (l : link) : port_result :=
  if fd <? 0 then mkPortResult (Returned (-1)) l false
  else
    match role with
    | LlTx => llopen_tx_loop MAX_RETRIES fd l
    | LlRx =>
        match wait_sup false A_SENDER C_SET 0 (rx l) with
        | (Accepted, tr) =>
            mkPortResult (Returned fd)
              (writeBytesSerialPort (sup_frame A_RECEIVER C_UA) (with_rx tr l))
              false
        | (_, tr) => mkPortResult Starved (with_rx tr l) false
        end
    end.

(** The transmitter loop of [llclose]; on the receiver's DISC it goes to
    [disc_received]: send UA, close the port, return 0. *)
Fixpoint llclose_tx_loop (remaining : nat) (l : link) : port_result :=
  match remaining with
  | O => mkPortResult (Returned (-1)) l true
  | S remaining' =>
      let l1 := writeBytesSerialPort (sup_frame A_SENDER C_DISC) l in
      match wait_sup true A_RECEIVER C_DISC 0 (rx l1) with
      | (Accepted, tr) =>
          mkPortResult (Returned 0)
            (writeBytesSerialPort (sup_frame A_RECEIVER C_UA) (with_rx tr l1))
            true
      | (SupTimedOut, tr) => llclose_tx_loop remaining' (with_rx tr l1)
      | (SupNoMoreInput, tr) => mkPortResult Starved (with_rx tr l1) false
      end
  end.

(** [llclose(showRole)]. *)
Definition llclose (showRole : LinkLayerRole) (l : link) : port_result :=
  match showRole with
  | LlTx => llclose_tx_loop MAX_RETRIES l
  | LlRx =>
      match wait_sup false A_SENDER C_DISC 0 (rx l) with
      | (Accepted, tr) =>
          let l1 :=
            writeBytesSerialPort (sup_frame A_RECEIVER C_DISC) (with_rx tr l) in
          match wait_sup true A_RECEIVER C_UA 0 (rx l1) with
          | (Accepted, tr') => mkPortResult (Returned 0) (with_rx tr' l1) true
          | (SupTimedOut, tr') => mkPortResult (Returned 0) (with_rx tr' l1) true
          | (SupNoMoreInput, tr') => mkPortResult Starved (with_rx tr' l1) false
          end
      | (_, tr) => mkPortResult Starved (with_rx tr l) false
      end
  end.

End LinkLayer.

(* ------------------------------------------------------------------ *)
(** ** application_layer.c: control packets *)

Module ApplicationLayer.

Definition CTRL_DATA : Z := 0x01.
Definition CTRL_START : Z := 0x02.
Definition CTRL_END : Z := 0x03.
Definition TLV_FILE_SIZE : Z := 0x00.
Definition TLV_FILE_NAME : Z := 0x01.

(** A [long] is 64 bits wide, two's complement. *)
Definition to_long (x : Z) : Z := (x + 2 ^ 63) mod 2 ^ 64 - 2 ^ 63.

Definition is_long (x : Z) : Prop := - 2 ^ 63 <= x < 2 ^ 63.

(** [do { sizeBytes[numSizeBytes++] = tempSize & 0xFF; tempSize >>= 8; }
    while (tempSize > 0);] -- the bytes [sizeBytes[0 .. numSizeBytes)],
    least significant first. *)
Equations? sizeBytes_loop (tempSize : Z) : list Z
  by wf (Z.to_nat tempSize) lt :=
  sizeBytes_loop tempSize with Z_lt_dec 0 (Z.shiftr tempSize 8) => {
    | left _ := to_uchar (Z.land tempSize 0xFF) :: sizeBytes_loop (Z.shiftr tempSize 8);
    | right _ := [to_uchar (Z.land tempSize 0xFF)] }.
Proof.
  rewrite Z.shiftr_div_pow2 in * by lia.
  change (2 ^ 8) with 256 in *.
  assert (0 < tempSize) by (destruct (Z_lt_dec 0 tempSize); [assumption |];
    exfalso; assert (tempSize / 256 <= 0) by (apply Z.div_le_upper_bound; lia); lia).
  assert (tempSize / 256 < tempSize) by (apply Z.div_lt; lia).
  lia.
Qed.

(** [strlen] of a C string given by its bytes before the terminator. *)
Definition strlen (filename : list Z) : Z := Z.of_nat (length filename).

(** The bytes [packet[0 .. idx)] written by [buildControlPacket]; the return
    value is their number. *)
Definition buildControlPacket (controlField : Z) (filename : list Z)
  (fileSize : Z) : list Z :=
  let sizeBytes := sizeBytes_loop fileSize in
  let numSizeBytes := Z.of_nat (length sizeBytes) in
  let nameLen := if 255 <? strlen filename then 255 else strlen filename in
  [controlField; TLV_FILE_SIZE; to_uchar numSizeBytes]
    ++ rev sizeBytes
    ++ [TLV_FILE_NAME; to_uchar nameLen]
    ++ firstn (Z.to_nat nameLen) filename.

(** [packet[idx]]; [None] outside the buffer. *)
Definition byte_at (packet : list Z) (idx : Z) : option Z :=
  if idx <? 0 then None else nth_error packet (Z.to_nat idx).

Definition slice (packet : list Z) (idx length : Z) : list Z :=
  firstn (Z.to_nat length) (skipn (Z.to_nat idx) packet).

(** The file-size loop: [length] times, the accumulator is shifted left by
    8 and or-ed with [packet[idx++]]. *)
Definition read_size (fileSize : Z) (value : list Z) : Z :=
  fold_left (fun fs b => to_long (Z.lor (Z.shiftl fs 8) b)) value fileSize.

(** The C string left in [filename] by [memcpy] followed by
    [filename[length] = 0]: the copied bytes up to the first zero. *)
Fixpoint c_string (bytes : list Z) : list Z :=
  match bytes with
  | [] => []
  | b :: rest => if b =? 0 then [] else b :: c_string rest
  end.

(** The [while (idx < packetSize)] loop.  The result is the return value
    with the contents of [*fileSize] and [filename]; [None] when a header
    byte is read outside the buffer.  [type] and [length] are
    [unsigned char] locals. *)
Equations? parse_loop (packet : list Z) (packetSize idx fileSize : Z)
  (filename : list Z) : option (Z * Z * list Z)
  by wf (Z.to_nat (packetSize - idx)) lt :=
  parse_loop packet packetSize idx fileSize filename
    with Z_lt_dec idx packetSize => {
    | right _ := Some (0, fileSize, filename);
    | left _ with byte_at packet idx, byte_at packet (idx + 1) => {
      | Some type, Some length
          with Z_gt_dec (idx + 2 + to_uchar length) packetSize => {
          | left _ := Some (-1, fileSize, filename);
          | right _ :=
              if to_uchar type =? TLV_FILE_SIZE then
                parse_loop packet packetSize (idx + 2 + to_uchar length)
                  (read_size fileSize (slice packet (idx + 2) (to_uchar length)))
                  filename
              else if to_uchar type =? TLV_FILE_NAME then
                parse_loop packet packetSize (idx + 2 + to_uchar length)
                  fileSize
                  (c_string (slice packet (idx + 2) (to_uchar length)))
              else
                parse_loop packet packetSize (idx + 2 + to_uchar length)
                  fileSize filename };
      | _, _ := None } }.
Proof.
  all: unfold to_uchar; pose proof (Z.mod_pos_bound length 256); lia.
Qed.

(** [parseControlPacket(packet, packetSize, &fileSize, filename)]:
    [idx] starts at 1, the file size at 0 and [filename] empty. *)
Definition parseControlPacket (packet : list Z) (packetSize : Z)
  : option (Z * Z * list Z) :=
  parse_loop packet packetSize 1 0 [].

(** *** Data packets and the two transfer functions *)

Import LinkLayer.

Definition MAX_PAYLOAD_SIZE : Z := 256.

(** [buildDataPacket(sequenceNum, data, dataSize, packet)]: the bytes
    [packet[0 .. idx)], with [data] the [dataSize] bytes that are copied. *)
Definition buildDataPacket (sequenceNum : Z) (data : list Z) : list Z :=
  let dataSize := Z.of_nat (length data) in
  [CTRL_DATA; sequenceNum;
   to_uchar (Z.land (Z.shiftr dataSize 8) 0xFF);
   to_uchar (Z.land dataSize 0xFF)] ++ data.

(** The [fread] / [llwrite] loop of [transmitFile] on what is left of the
    file: [None] when [fread] returns 0 and the loop ends, otherwise the
    value with which [transmitFile] returns from inside the loop. *)
#[local] Opaque skipn.

Equations? send_data (file : list Z) (sequenceNum : Z) (l : link)
  : option outcome * link by wf (length file) lt :=
  send_data file sequenceNum l with Nat.eq_dec (length file) 0 => {
    | left _ := (None, l);
    | right _
        with llwrite (buildDataPacket sequenceNum
                        (firstn (Z.to_nat MAX_PAYLOAD_SIZE) file)) l => {
      | (Starved, l') := (Some Starved, l');
      | (Returned ret, l') with ret <? 0 => {
        | true := (Some (Returned (-1)), l');
        | false :=
            send_data (skipn (Z.to_nat MAX_PAYLOAD_SIZE) file)
              (to_uchar ((sequenceNum + 1) mod 256)) l' } } }.
Proof.
  rewrite length_skipn. change (Z.to_nat MAX_PAYLOAD_SIZE) with 256%nat. lia.
Qed.

#[local] Transparent skipn.

(** [transmitFile(ll, filename)].  [file] is what [fopen] found ([None]
    when it failed) and [baseFilename] the result of [basename]. *)
Definition transmitFile (file : option (list Z)) (baseFilename : list Z)
  (l : link) : outcome * link :=
  match file with
  | None => (Returned (-1), l)
  | Some content =>
      let fileSize := Z.of_nat (length content) in
      match llwrite (buildControlPacket CTRL_START baseFilename fileSize) l with
      | (Starved, l1) => (Starved, l1)
      | (Returned ret, l1) =>
          if ret <? 0 then (Returned (-1), l1)
          else
            match send_data content 0 l1 with
            | (Some o, l2) => (o, l2)
            | (None, l2) =>
                match llwrite (buildControlPacket CTRL_END baseFilename fileSize)
                              l2 with
                | (Starved, l3) => (Starved, l3)
                | (Returned ret', l3) =>
                    if ret' <? 0 then (Returned (-1), l3) else (Returned 0, l3)
                end
            end
      end
  end.

(** How [receiveFile] can end: with a return value, still blocked in
    [llread], or having read a control-packet header outside [packet]. *)
Inductive app_outcome : Type :=
| AppReturned (ret : Z)
| AppStarved
| AppOutOfBuffer.

Inductive start_result : Type :=
| StartParsed (expectedFileSize : Z) (receivedFilename packet : list Z)
              (l : link)
| StartExit (o : app_outcome) (l : link).

(** The first [while (1)] of [receiveFile].  [fuel] bounds the number of
    [llread] calls; every call that returns has consumed an event, so one
    more than the number of pending events is never used up. *)
Fixpoint wait_start (fuel : nat) (packet : list Z) (l : link) : start_result :=
  match fuel with
  | O => StartExit AppStarved l
  | S fuel' =>
      match llread packet l with
      | (Starved, _, l') => StartExit AppStarved l'
      | (Returned packetSize, packet', l') =>
          if packetSize <? 0 then wait_start fuel' packet' l'
          else if (0 <? packetSize) && (nth 0 packet' 0 =? CTRL_START) then
            match parseControlPacket packet' packetSize with
            | None => StartExit AppOutOfBuffer l'
            | Some (ret, expectedFileSize, receivedFilename) =>
                if ret <? 0 then StartExit (AppReturned (-1)) l'
                else StartParsed expectedFileSize receivedFilename packet' l'
            end
          else wait_start fuel' packet' l'
      end
  end.

(** The second [while (1)] of [receiveFile] with the code after it.  [out]
    is what has been written to the file so far.  The END packet is parsed
    only to print warnings, and so is the packet counter kept. *)
Fixpoint receive_data (fuel : nat) (packet : list Z)
  (expectedFileSize totalReceived : Z) (out : list Z) (l : link)
  : app_outcome * list Z * link :=
  match fuel with
  | O => (AppStarved, out, l)
  | S fuel' =>
      match llread packet l with
      | (Starved, _, l') => (AppStarved, out, l')
      | (Returned packetSize, packet', l') =>
          if packetSize <? 0 then
            receive_data fuel' packet' expectedFileSize totalReceived out l'
          else if packetSize =? 0 then
            receive_data fuel' packet' expectedFileSize totalReceived out l'
          else
            let controlField := nth 0 packet' 0 in
            if controlField =? CTRL_END then
              (AppReturned
                 (if totalReceived =? expectedFileSize then 0 else -1),
               out, l')
            else if controlField =? CTRL_DATA then
              let dataLength :=
                Z.lor (Z.shiftl (nth 2 packet' 0) 8) (nth 3 packet' 0) in
              if 4 + dataLength >? packetSize then
                receive_data fuel' packet' expectedFileSize totalReceived out l'
              else
                receive_data fuel' packet' expectedFileSize
                  (totalReceived + dataLength)
                  (out ++ slice packet' 4 dataLength) l'
            else
              receive_data fuel' packet' expectedFileSize totalReceived out l'
      end
  end.

(** [receiveFile(ll, filename)].  [packet] is the 512-byte local buffer,
    [can_create] whether [fopen(filename, "wb")] succeeds; the second
    component is the content of the file when it was created. *)
Definition receiveFile (can_create : bool) (packet : list Z) (l : link)
  : app_outcome * option (list Z) * link :=
  match wait_start (S (length (rx l))) packet l with
  | StartExit o l1 => (o, None, l1)
  | StartParsed expectedFileSize receivedFilename packet1 l1 =>
      if can_create then
        match receive_data (S (length (rx l1))) packet1 expectedFileSize 0 [] l1
        with
        | (o, out, l2) => (o, Some out, l2)
        end
      else (AppReturned (-1), None, l1)
  end.

End ApplicationLayer.

(* ------------------------------------------------------------------ *)
(** ** Vocabulary of the properties *)

Module Props.
Import LinkLayer.

(** XOR-reduction of a byte sequence, seeded at 0. *)
Definition xor_all (p : list Z) : Z := fold_left Z.lxor p 0.

Definition is_bit (b : Z) : Prop := b = 0 \/ b = 1.

(** [timeouts sn n tr]: [n] acknowledgment waits in a row, started on [tr]
    with sender bit [sn], are each left by the alarm; the result is what
    remains of [tr] afterwards. *)
Fixpoint timeouts (sn : Z) (n : nat) (tr : list event) : option (list event) :=
  match n with
  | O => Some tr
  | S n' =>
      match wait_ack sn ack_init tr with
      | (TimedOut, tr') => timeouts sn n' tr'
      | _ => None
      end
  end.

(** An escape byte in last position of a stuffed region, with the escapes
    paired from the left. *)
Fixpoint ends_with_unpaired_escape (stuffed : list Z) : bool :=
  match stuffed with
  | [] => false
  | b :: rest =>
      if b =? 0x7D then
        match rest with
        | [] => true
        | _ :: rest' => ends_with_unpaired_escape rest'
        end
      else ends_with_unpaired_escape rest
  end.

(** The control bytes [llread] answers with when it expects [expectedSeq]. *)
Definition rej_for (expectedSeq : Z) : Z :=
  if expectedSeq =? 0 then C_REJ0 else C_REJ1.

Definition rr_for (expectedSeq : Z) : Z :=
  if expectedSeq =? 0 then C_RR1 else C_RR0.

Definition seq_bit (control : Z) : Z := if Z.land control 0x40 =? 0 then 0 else 1.

Definition flip_n (n : nat) (b : Z) : Z := if Nat.even n then b else 1 - b.

Definition succeeded (o : outcome) : bool :=
  match o with
  | Returned r => 0 <=? r
  | Starved => false
  end.

(** One call in a session: the sequence bit on entry, the outcome, and what
    the call wrote to the port. *)
Record call : Type := mkCall {
  call_seq : Z;
  call_outcome : outcome;
  call_written : list (list Z) }.

Definition successes (log : list call) : nat :=
  length (filter (fun c => succeeded (call_outcome c)) log).

(** [llwrite] called on each payload in turn; a starved call is the last. *)
Fixpoint llwrite_calls (bufs : list (list Z)) (l : link) : list call * link :=
  match bufs with
  | [] => ([], l)
  | buf :: bufs' =>
      let '(o, l') := llwrite buf l in
      let c := mkCall (sequenceNumber l) o (skipn (length (tx l)) (tx l')) in
      match o with
      | Starved => ([c], l')
      | Returned _ =>
          let '(log, l'') := llwrite_calls bufs' l' in (c :: log, l'')
      end
  end.

(** [llread] called [n] times on the same buffer. *)
Fixpoint llread_calls (n : nat) (packet : list Z) (l : link)
  : list call * list Z * link :=
  match n with
  | O => ([], packet, l)
  | S n' =>
      let '(o, packet', l') := llread packet l in
      let c := mkCall (expectedSeq l) o (skipn (length (tx l)) (tx l')) in
      match o with
      | Starved => ([c], packet', l')
      | Returned _ =>
          let '(log, packet'', l'') := llread_calls n' packet' l' in
          (c :: log, packet'', l'')
      end
  end.

(** Value of a byte string read most significant byte first. *)
Definition be_value (bytes : list Z) : Z :=
  fold_left (fun acc b => acc * 256 + b) bytes 0.

(** [failed_waits sn n tr]: [n] acknowledgment waits in a row are each left
    either by the alarm or with a control byte other than the awaited RR. *)
Fixpoint failed_waits (sn : Z) (n : nat) (tr : list event)
  : option (list event) :=
  match n with
  | O => Some tr
  | S n' =>
      match wait_ack sn ack_init tr with
      | (TimedOut, tr') => failed_waits sn n' tr'
      | (Acked rc, tr') =>
          if rc =? expected_rr sn then None else failed_waits sn n' tr'
      | (NoMoreInput, _) => None
      end
  end.

(** An event that is neither a received flag nor an alarm. *)
Definition quiet (e : event) : bool :=
  match e with
  | Rx b => negb (b =? FLAG)
  | Idle => true
  | Alarm => false
  end.

(** Number of bytes of [s] that stuffing replaces by two. *)
Definition escaped_count (s : list Z) : nat :=
  length (filter (fun b => (b =? FLAG) || (b =? 0x7D)) s).

(** [sup_timeouts A C n tr]: [n] timed waits for the frame [A], [C] are each
    left by the alarm. *)
Fixpoint sup_timeouts (A C : Z) (n : nat) (tr : list event)
  : option (list event) :=
  match n with
  | O => Some tr
  | S n' =>
      match wait_sup true A C 0 tr with
      | (SupTimedOut, tr') => sup_timeouts A C n' tr'
      | _ => None
      end
  end.

(** What the capture loop of [llread] holds while inside a frame: an
    opening flag followed by flag-free bytes, at most 2048 bytes in all. *)
Definition in_frame_inv (inFrame : bool) (frame : list Z) : Prop :=
  if inFrame then
    exists body : list Z,
      frame = FLAG :: body /\ ~ In FLAG body /\ (length frame <= 2048)%nat
  else True.

(** An event that is not a received flag. *)
Definition no_flag (e : event) : bool :=
  match e with
  | Rx b => negb (b =? FLAG)
  | _ => true
  end.

(** Byte stuffing as the protocol states it: 7E becomes 7D 5E, 7D becomes
    7D 5D, any other byte stands for itself. *)
Definition stuffed (s : list Z) : list Z :=
  flat_map (fun b => if b =? 0x7E then [0x7D; 0x5E]
                     else if b =? 0x7D then [0x7D; 0x5D]
                     else [b]) s.

(** The bytes received in a run of events. *)
Definition rx_bytes (evs : list event) : list Z :=
  flat_map (fun e => match e with Rx b => [b] | _ => [] end) evs.

Definition no_alarm (e : event) : bool :=
  match e with
  | Alarm => false
  | _ => true
  end.

(** [ends_in hist bs]: the events [hist] end in a run without alarm whose
    received bytes are [bs]. *)
Definition ends_in (hist : list event) (bs : list Z) : Prop :=
  exists pre evs : list event,
    hist = pre ++ evs /\ rx_bytes evs = bs /\ forallb no_alarm evs = true.

(** What the state of the acknowledgment wait says about the events read
    so far. *)
Definition ack_tail (s : ack_sm) (hist : list event) : Prop :=
  match state s with
  | 1%nat => ends_in hist [FLAG]
  | 2%nat => ends_in hist [FLAG; A_RECEIVER]
  | 3%nat => ends_in hist [FLAG; A_RECEIVER; receivedControl s]
  | 4%nat => ends_in hist [FLAG; A_RECEIVER; receivedControl s;
                           Z.lxor A_RECEIVER (receivedControl s)]
  | _ => True
  end.

(** The input of one failed attempt of [llwrite]: events that are neither a
    flag nor an alarm, then the REJ frame for the current bit ([true]) or
    the alarm ([false]). *)
Definition failed_attempt (sn : Z) (a : list event * bool) : list event :=
  fst a ++ (if snd a then map Rx (reply_frame (expected_rej sn)) else [Alarm]).

Definition failed_attempts (sn : Z) (atts : list (list event * bool))
  : list event :=
  flat_map (failed_attempt sn) atts.

Definition quiet_attempts (atts : list (list event * bool)) : Prop :=
  Forall (fun a => forallb quiet (fst a) = true) atts.

(** [occurs p l]: the bytes [p] occur in [l] as a contiguous run. *)
Fixpoint is_prefix (p l : list Z) : bool :=
  match p, l with
  | [], _ => true
  | a :: p', b :: l' => (a =? b) && is_prefix p' l'
  | _ :: _, [] => false
  end.

Fixpoint occurs (p l : list Z) : bool :=
  is_prefix p l
  || match l with
     | [] => false
     | _ :: l' => occurs p l'
     end.

(** *** Vocabulary of the file transfer *)

Import ApplicationLayer.

#[local] Opaque skipn firstn.

(** The buffers filled by the successive [fread] calls of [transmitFile]:
    the file cut into pieces of [MAX_PAYLOAD_SIZE] bytes, the last one
    possibly shorter. *)
Equations? chunks (file : list Z) : list (list Z) by wf (length file) lt :=
  chunks file with Nat.eq_dec (length file) 0 => {
    | left _ := [];
    | right _ :=
        firstn (Z.to_nat MAX_PAYLOAD_SIZE) file
          :: chunks (skipn (Z.to_nat MAX_PAYLOAD_SIZE) file) }.
Proof.
  rewrite length_skipn. change (Z.to_nat MAX_PAYLOAD_SIZE) with 256%nat. lia.
Qed.

#[local] Transparent skipn firstn.

(** Data packets for a list of buffers, numbered from [sequenceNum] on
    modulo 256. *)
Fixpoint data_packets (sequenceNum : Z) (buffers : list (list Z))
  : list (list Z) :=
  match buffers with
  | [] => []
  | buffer :: buffers' =>
      buildDataPacket sequenceNum buffer
        :: data_packets (to_uchar ((sequenceNum + 1) mod 256)) buffers'
  end.

(** The packets of one file transfer: START, the data packets, END. *)
Definition transfer_packets (baseFilename content : list Z) : list (list Z) :=
  let fileSize := Z.of_nat (length content) in
  buildControlPacket CTRL_START baseFilename fileSize
    :: data_packets 0 (chunks content)
    ++ [buildControlPacket CTRL_END baseFilename fileSize].

(** The I-frames of a list of packets, the sequence bit alternating from
    [bit] on. *)
Fixpoint frames_from (bit : Z) (packets : list (list Z)) : list (list Z) :=
  match packets with
  | [] => []
  | p :: packets' => build_iframe bit p :: frames_from (1 - bit) packets'
  end.

(** The RR frames that answer [n] accepted I-frames, the expected bit
    alternating from [bit] on. *)
Fixpoint replies_from (bit : Z) (n : nat) : list (list Z) :=
  match n with
  | O => []
  | S n' => reply_frame (rr_for bit) :: replies_from (1 - bit) n'
  end.

End Props.

(* ------------------------------------------------------------------ *)
(** ** Byte stuffing *)

Import LinkLayer Props.

Lemma destuffData_stuffData (s : list Z) : destuffData (stuffData s) = s.
Proof.
  induction s as [| b rest IH]; [reflexivity |].
  cbn [stuffData].
  destruct (b =? FLAG) eqn:Hflag.
  - apply Z.eqb_eq in Hflag. subst b. cbn. now rewrite IH.
  - destruct (b =? 0x7D) eqn:Hesc.
    + apply Z.eqb_eq in Hesc. subst b. cbn. now rewrite IH.
    + cbn [destuffData]. rewrite Hesc, IH. reflexivity.
Qed.

(** C5: for every byte sequence [s], destuffing the stuffed sequence gives
    [s] back, where stuffing maps 0x7E to 0x7D 0x5E, 0x7D to 0x7D 0x5D and
    leaves every other byte unchanged. *)
Theorem destuff_stuff_roundtrip :
  forall s : list Z,
    destuffData (stuffData s) = s
    /\ forall b : Z,
         stuffData [b] =
           if b =? 0x7E then [0x7D; 0x5E]
           else if b =? 0x7D then [0x7D; 0x5D]
           else [b].
Proof.
  intro s. split; [apply destuffData_stuffData |].
  intro b. cbn [stuffData]. unfold FLAG.
  destruct (b =? 0x7E); [reflexivity |].
  destruct (b =? 0x7D); reflexivity.
Qed.

Lemma stuffData_app (a b : list Z) :
  stuffData (a ++ b) = stuffData a ++ stuffData b.
Proof.
  induction a as [| x a IH]; [reflexivity |].
  cbn [app stuffData].
  destruct (x =? FLAG); [| destruct (x =? 0x7D)]; cbn; now rewrite IH.
Qed.

Lemma stuffData_length_bounds (s : list Z) :
  (length s <= length (stuffData s) <= 2 * length s)%nat.
Proof.
  induction s as [| x s IH]; [cbn; lia |].
  cbn [stuffData].
  destruct (x =? FLAG); [| destruct (x =? 0x7D)]; cbn [length]; lia.
Qed.

Lemma stuffData_no_flag (s : list Z) : ~ In FLAG (stuffData s).
Proof.
  induction s as [| x s IH]; [cbn; tauto |].
  cbn [stuffData].
  destruct (x =? FLAG) eqn:Hflag.
  - cbn. unfold FLAG in *. intros [H | [H | H]]; [lia | lia | tauto].
  - destruct (x =? 0x7D) eqn:Hesc.
    + cbn. unfold FLAG in *. intros [H | [H | H]]; [lia | lia | tauto].
    + cbn. intros [H | H]; [| tauto].
      apply Z.eqb_neq in Hflag. congruence.
Qed.

(** Destuffing a stuffed sequence followed by more bytes. *)
Lemma destuffData_stuffData_app (s t : list Z) :
  destuffData (stuffData s ++ t) = s ++ destuffData t.
Proof.
  induction s as [| b rest IH]; [reflexivity |].
  cbn [stuffData].
  destruct (b =? FLAG) eqn:Hflag.
  - apply Z.eqb_eq in Hflag. subst b. cbn. now rewrite IH.
  - destruct (b =? 0x7D) eqn:Hesc.
    + apply Z.eqb_eq in Hesc. subst b. cbn. now rewrite IH.
    + cbn [app destuffData]. rewrite Hesc, IH. reflexivity.
Qed.

(** An escape byte left alone at the end of a stuffed region is dropped. *)
Lemma destuffData_trailing_escape (s : list Z) :
  destuffData (stuffData s ++ [0x7D]) = s.
Proof. rewrite destuffData_stuffData_app. cbn. apply app_nil_r. Qed.

(* ------------------------------------------------------------------ *)
(** ** Checksums *)

Lemma lxor_uchar (a b : Z) : is_uchar a -> is_uchar b -> is_uchar (Z.lxor a b).
Proof.
  unfold is_uchar. intros Ha Hb.
  assert (Hnn : 0 <= Z.lxor a b) by (apply Z.lxor_nonneg; lia).
  split; [assumption |].
  destruct (Z.eq_dec (Z.lxor a b) 0) as [-> | Hnz]; [lia |].
  change 256 with (2 ^ 8). apply Z.log2_lt_pow2; [lia |].
  pose proof (Z.log2_lxor a b ltac:(lia) ltac:(lia)) as Hlog.
  assert (Hla : Z.log2 a < 8).
  { destruct (Z.eq_dec a 0) as [-> | ?]; [cbn; lia |].
    apply Z.log2_lt_pow2; [lia |]. change (2 ^ 8) with 256. lia. }
  assert (Hlb : Z.log2 b < 8).
  { destruct (Z.eq_dec b 0) as [-> | ?]; [cbn; lia |].
    apply Z.log2_lt_pow2; [lia |]. change (2 ^ 8) with 256. lia. }
  lia.
Qed.

Lemma to_uchar_id (b : Z) : is_uchar b -> to_uchar b = b.
Proof. unfold is_uchar, to_uchar. intro H. now apply Z.mod_small. Qed.

Lemma bcc2_fold_uchar (p : list Z) :
  all_uchar p ->
  forall acc, is_uchar acc ->
    fold_left (fun bcc2 b => to_uchar (Z.lxor bcc2 b)) p acc
      = fold_left Z.lxor p acc
    /\ is_uchar (fold_left Z.lxor p acc).
Proof.
  induction 1 as [| b p Hb Hp IH]; intros acc Hacc; [now split |].
  cbn [fold_left].
  rewrite to_uchar_id by now apply lxor_uchar.
  apply IH. now apply lxor_uchar.
Qed.

Lemma bcc2_of_xor_all (p : list Z) :
  all_uchar p -> bcc2_of p = xor_all p /\ is_uchar (xor_all p).
Proof.
  intro Hp. apply (bcc2_fold_uchar Hp). unfold is_uchar. lia.
Qed.

(* ------------------------------------------------------------------ *)
(** ** llwrite *)

Lemma control_field_cases (sn : Z) :
  control_field sn = 0x00 \/ control_field sn = 0x40.
Proof. unfold control_field. destruct (sn =? 0); auto. Qed.

Lemma build_iframe_length (sn : Z) (buf : list Z) :
  Z.of_nat (length (build_iframe sn buf)) = iframe_last_store buf + 1.
Proof.
  unfold build_iframe, iframe_last_store.
  cbn [app length]. rewrite length_app. cbn [length]. lia.
Qed.

(** The frame never needs more than [2 * bufSize + 7] bytes. *)
Lemma iframe_last_store_bound (buf : list Z) :
  iframe_last_store buf <= frame_capacity (Z.of_nat (length buf)).
Proof.
  unfold iframe_last_store, frame_capacity.
  pose proof (stuffData_length_bounds (buf ++ [bcc2_of buf])) as H.
  rewrite length_app in H. cbn [length] in H. lia.
Qed.

(** When BCC2 needs no stuffing every store is inside the buffer. *)
Lemma iframe_fits_plain_bcc2 (buf : list Z) :
  bcc2_of buf <> FLAG -> bcc2_of buf <> 0x7D ->
  iframe_last_store buf < frame_capacity (Z.of_nat (length buf)).
Proof.
  intros Hf He. unfold iframe_last_store, frame_capacity.
  rewrite stuffData_app, length_app. cbn [stuffData].
  apply Z.eqb_neq in Hf, He. rewrite Hf, He. cbn [length].
  pose proof (stuffData_length_bounds buf). lia.
Qed.

(** C7: with the one-byte payload 7E the closing flag of the I-frame is
    stored at index 8 of a buffer declared with 2*1+6 = 8 bytes, and the
    frame handed to the port has 9 bytes. *)
Theorem iframe_exceeds_frame_buffer :
  iframe_last_store [0x7E] = 8
  /\ frame_capacity (Z.of_nat (length [0x7E])) = 8
  /\ build_iframe 0 [0x7E] = [0x7E; 0x03; 0x00; 0x03; 0x7D; 0x5E; 0x7D; 0x5E; 0x7E]
  /\ Z.of_nat (length (build_iframe 0 [0x7E])) = 2 * 1 + 7.
Proof. repeat split. Qed.

(** What one run of the retransmission loop does to the session. *)
Lemma llwrite_loop_spec (n : nat) (buf : list Z) :
  forall l : link,
    let r := llwrite_loop n buf l in
    exists k : nat,
      (k <= n)%nat
      /\ (n <> O -> (1 <= k)%nat)
      /\ tx (snd r) = tx l ++ repeat (build_iframe (sequenceNumber l) buf) k
      /\ expectedSeq (snd r) = expectedSeq l
      /\ ((fst r = Returned (-1)
           /\ sequenceNumber (snd r) = sequenceNumber l /\ k = n)
          \/ (fst r = Starved /\ sequenceNumber (snd r) = sequenceNumber l)
          \/ (fst r = Returned (Z.of_nat (length buf))
              /\ sequenceNumber (snd r) = Z.lxor (sequenceNumber l) 1
              /\ exists tr,
                   wait_ack (sequenceNumber l) ack_init tr
                     = (Acked (expected_rr (sequenceNumber l)), rx (snd r)))).
Proof.
  induction n as [| n IH]; intro l; cbn zeta.
  - exists O. cbn. rewrite app_nil_r. repeat split; try lia. left. auto.
  - cbn [llwrite_loop].
    set (frame := build_iframe (sequenceNumber l) buf).
    set (l1 := writeBytesSerialPort frame l).
    destruct (wait_ack (sequenceNumber l) ack_init (rx l1)) as [w tr] eqn:Hw.
    assert (Hrec : forall l2, l2 = with_rx tr l1 ->
      let r := llwrite_loop n buf l2 in
      exists k : nat,
        (k <= S n)%nat /\ (S n <> O -> (1 <= k)%nat)
        /\ tx (snd r) = tx l ++ repeat frame k
        /\ expectedSeq (snd r) = expectedSeq l
        /\ ((fst r = Returned (-1)
             /\ sequenceNumber (snd r) = sequenceNumber l /\ k = S n)
            \/ (fst r = Starved /\ sequenceNumber (snd r) = sequenceNumber l)
            \/ (fst r = Returned (Z.of_nat (length buf))
                /\ sequenceNumber (snd r) = Z.lxor (sequenceNumber l) 1
                /\ exists tr0,
                     wait_ack (sequenceNumber l) ack_init tr0
                       = (Acked (expected_rr (sequenceNumber l)), rx (snd r))))).
    { intros l2 ->. cbn zeta.
      destruct (IH (with_rx tr l1)) as (k & Hk & _ & Htx & Hes & Hcase).
      cbn [with_rx l1 writeBytesSerialPort sequenceNumber expectedSeq tx] in *.
      exists (S k).
      split; [lia |]. split; [lia |].
      split; [rewrite Htx, <- app_assoc; reflexivity |].
      split; [exact Hes |].
      destruct Hcase as [(H1 & H2 & H3) | [(H1 & H2) | (H1 & H2 & H3)]].
      - left. repeat split; auto.
      - right. left. auto.
      - right. right. auto. }
    destruct w as [rc | |].
    + destruct (rc =? expected_rr (sequenceNumber l)) eqn:Hrc.
      * apply Z.eqb_eq in Hrc. subst rc.
        exists 1%nat. cbn. repeat split; try lia.
        right. right. repeat split. exists (rx l). exact Hw.
      * now apply Hrec.
    + now apply Hrec.
    + exists 1%nat. cbn. repeat split; try lia. right. left. auto.
Qed.

(** [stuffData] performs the substitution that the protocol states. *)
Lemma stuffData_stuffed (s : list Z) : stuffData s = stuffed s.
Proof.
  induction s as [| b s IH]; [reflexivity |].
  cbn [stuffData]. unfold stuffed in *. cbn [flat_map]. rewrite IH.
  unfold FLAG. destruct (b =? 0x7E); [reflexivity |].
  destruct (b =? 0x7D); reflexivity.
Qed.

(** C1 as stated fails: with four alarms pending, so that even a fourth wait
    would time out, [llwrite] returns -1 after three transmissions. *)
Lemma llwrite_giveup_not_four_transmissions :
  let l := link_init [Alarm; Alarm; Alarm; Alarm] in
  timeouts (sequenceNumber l) (S MAX_RETRIES) (rx l) = Some []
  /\ fst (llwrite [0x48; 0x69] l) = Returned (-1)
  /\ length (tx (snd (llwrite [0x48; 0x69] l))) = MAX_RETRIES
  /\ length (tx (snd (llwrite [0x48; 0x69] l))) <> S MAX_RETRIES
  /\ rx (snd (llwrite [0x48; 0x69] l)) = [Alarm].
Proof. cbv zeta. repeat split. cbn. discriminate. Qed.

(** C1, amended: for every retry bound [N] and every payload, when each of
    the [N] acknowledgment waits is left by the alarm, [llwrite] returns -1
    after writing the I-frame exactly [N] times, with the sender bit
    unchanged. *)
Theorem llwrite_gives_up_after_max_retries :
  forall (N : nat) (buf : list Z) (l : link) (rest : list event),
    timeouts (sequenceNumber l) N (rx l) = Some rest ->
    llwrite_with N buf l
    = (Returned (-1),
       mkLink (sequenceNumber l) (expectedSeq l) rest
              (tx l ++ repeat (build_iframe (sequenceNumber l) buf) N)).
Proof.
  unfold llwrite_with.
  induction N as [| N IH]; intros buf l rest Hto.
  - cbn in Hto. injection Hto as <-. cbn. rewrite app_nil_r. now destruct l.
  - cbn [timeouts] in Hto. cbn [llwrite_loop].
    cbn [writeBytesSerialPort rx].
    destruct (wait_ack (sequenceNumber l) ack_init (rx l)) as [[rc | |] tr];
      try discriminate.
    rewrite (IH buf _ rest);
      cbn [with_rx writeBytesSerialPort sequenceNumber expectedSeq rx tx].
    + rewrite <- app_assoc. reflexivity.
    + exact Hto.
Qed.

(** Three waits, each ended by the alarm after stray bytes and an RR that
    does not match the sender bit. *)
Lemma llwrite_gives_up_after_max_retries_witness :
  let l := link_init [Idle; Rx 0x7E; Alarm; Rx 0x7E; Rx 0x01; Rx 0x05;
                      Rx 0x04; Rx 0x7E; Alarm; Alarm; Idle] in
  timeouts (sequenceNumber l) MAX_RETRIES (rx l) = Some [Idle]
  /\ llwrite [0x48; 0x69] l
     = (Returned (-1),
        mkLink (sequenceNumber l) (expectedSeq l) [Idle]
               (tx l ++ repeat (build_iframe (sequenceNumber l) [0x48; 0x69])
                               MAX_RETRIES)).
Proof.
  cbv zeta. split; [reflexivity |].
  apply (llwrite_gives_up_after_max_retries MAX_RETRIES [0x48; 0x69]
           (link_init [Idle; Rx 0x7E; Alarm; Rx 0x7E; Rx 0x01; Rx 0x05;
                       Rx 0x04; Rx 0x7E; Alarm; Alarm; Idle])).
  reflexivity.
Defined.

Lemma lxor_bit (b : Z) : is_bit b -> Z.lxor b 1 = 1 - b /\ is_bit (1 - b).
Proof. unfold is_bit. intros [-> | ->]; cbn; auto. Qed.

Lemma skipn_own_length_app {A : Type} (a b : list A) :
  skipn (length a) (a ++ b) = b.
Proof. induction a; cbn; auto. Qed.

(** One [llwrite] call: the bit flips exactly on a successful return, and
    every frame of the call carries the bit held on entry. *)
Lemma llwrite_call_bit (buf : list Z) (l : link) :
  is_bit (sequenceNumber l) ->
  let r := llwrite buf l in
  sequenceNumber (snd r)
    = (if succeeded (fst r) then 1 - sequenceNumber l else sequenceNumber l)
  /\ is_bit (sequenceNumber (snd r))
  /\ expectedSeq (snd r) = expectedSeq l
  /\ Forall (fun f => nth 2 f 0 = control_field (sequenceNumber l))
            (skipn (length (tx l)) (tx (snd r)))
  /\ (succeeded (fst r) = true ->
      exists tr,
        wait_ack (sequenceNumber l) ack_init tr
          = (Acked (expected_rr (sequenceNumber l)), rx (snd r))).
Proof.
  intros Hbit r. subst r. unfold llwrite, llwrite_with.
  destruct (llwrite_loop_spec MAX_RETRIES buf l)
    as (k & _ & _ & Htx & Hes & Hcase).
  destruct (lxor_bit Hbit) as [Hx Hb'].
  assert (Hfr : Forall (fun f => nth 2 f 0 = control_field (sequenceNumber l))
            (skipn (length (tx l)) (tx (snd (llwrite_loop MAX_RETRIES buf l))))).
  { rewrite Htx, skipn_own_length_app. apply Forall_forall.
    intros f Hf. apply repeat_spec in Hf. subst f. reflexivity. }
  destruct Hcase as [(Ho & Hsn & _) | [(Ho & Hsn) | (Ho & Hsn & Hrr)]];
    rewrite Ho, Hsn; cbn [succeeded].
  - repeat split; auto. discriminate.
  - repeat split; auto. discriminate.
  - assert (Hpos : (0 <=? Z.of_nat (length buf)) = true)
      by (apply Z.leb_le; lia).
    rewrite Hpos, Hx. repeat split; auto.
Qed.

(* ------------------------------------------------------------------ *)
(** ** llread *)

(** The two ways [llread] leaves a captured frame: an error return that
    touches neither the caller's buffer nor the expected bit, or a delivery. *)
Lemma llread_frame_spec (frame packet : list Z) (l : link) :
  let r := llread_frame frame packet l in
  (fst (fst r) = Returned (-1)
   /\ snd (fst r) = packet
   /\ exists c, (c = rej_for (expectedSeq l) \/ c = rr_for (expectedSeq l))
        /\ snd r = writeBytesSerialPort (reply_frame c) l)
  \/ (exists payload : list Z,
        fst (fst r) = Returned (Z.of_nat (length payload))
        /\ snd (fst r) = payload ++ skipn (length payload) packet
        /\ snd r = with_expectedSeq (Z.lxor (expectedSeq l) 1)
                     (writeBytesSerialPort (reply_frame (rr_for (expectedSeq l))) l)
        /\ seq_bit (nth 2 frame 0) = expectedSeq l
        /\ destuffData (firstn (length frame - 5) (skipn 4 frame))
           = payload ++ [bcc2_of payload]).
Proof.
  cbv zeta. unfold llread_frame, send_rej.
  fold (rej_for (expectedSeq l)) (rr_for (expectedSeq l)).
  fold (seq_bit (nth 2 frame 0)).
  destruct (Z.of_nat (length frame) <? 5) eqn:Hlen;
    [left; cbn; eauto 6 |].
  destruct (Z.lxor (nth 1 frame 0) (nth 2 frame 0) =? nth 3 frame 0);
    cbn [negb]; [| left; cbn; eauto 6].
  destruct (seq_bit (nth 2 frame 0) =? expectedSeq l) eqn:Hseq;
    cbn [negb]; [| left; cbn; eauto 6].
  apply Z.ltb_ge in Hlen. apply Z.eqb_eq in Hseq.
  replace (Z.to_nat (Z.of_nat (length frame) - 5)) with (length frame - 5)%nat
    by lia.
  set (data := destuffData (firstn (length frame - 5) (skipn 4 frame))).
  destruct (Z.of_nat (length data) <? 1) eqn:Hsz; [left; cbn; eauto 6 |].
  apply Z.ltb_ge in Hsz.
  replace (Z.to_nat (Z.of_nat (length data) - 1)) with (length data - 1)%nat
    by lia.
  destruct (bcc2_of (firstn (length data - 1) data)
              =? nth (length data - 1) data 0) eqn:Hbcc;
    cbn [negb]; [| left; cbn; eauto 6].
  apply Z.eqb_eq in Hbcc.
  right. exists (firstn (length data - 1) data).
  assert (Hl : length (firstn (length data - 1) data) = (length data - 1)%nat)
    by (rewrite length_firstn; lia).
  cbn [fst snd]. rewrite Hl.
  split; [f_equal; lia |].
  split; [unfold memcpy;
          replace (Z.to_nat (Z.of_nat (length data) - 1))
            with (length data - 1)%nat by lia; reflexivity |].
  split; [reflexivity |].
  split; [exact Hseq |].
  rewrite Hbcc.
  rewrite <- (firstn_skipn (length data - 1) data) at 1.
  f_equal.
  assert (Hs : length (skipn (length data - 1) data) = 1%nat)
    by (rewrite length_skipn; lia).
  destruct (skipn (length data - 1) data) as [| x [| y t]] eqn:Hsk;
    try discriminate.
  f_equal.
  rewrite <- (firstn_skipn (length data - 1) data) at 2.
  rewrite app_nth2 by (rewrite Hl; lia).
  rewrite Hl, Nat.sub_diag, Hsk. reflexivity.
Qed.

(** C10: when [llread] returns -1 the caller's buffer and the expected bit
    are what they were on entry; otherwise the return value is the
    non-negative payload length, the payload has been copied to the front of
    the buffer and the expected bit has been flipped. *)
Theorem llread_error_is_without_effect :
  forall (packet : list Z) (l : link) (ret : Z) (packet' : list Z) (l' : link),
    llread packet l = (Returned ret, packet', l') ->
    (ret = -1 /\ packet' = packet /\ expectedSeq l' = expectedSeq l)
    \/ (0 <= ret
        /\ expectedSeq l' = Z.lxor (expectedSeq l) 1
        /\ exists payload : list Z,
             ret = Z.of_nat (length payload)
             /\ packet' = payload ++ skipn (length payload) packet).
Proof.
  intros packet l ret packet' l'. unfold llread.
  destruct (read_frame false [] (rx l)) as [[frame tr] |]; [| discriminate].
  intro Hr.
  destruct (llread_frame_spec frame packet (with_rx tr l))
    as [(Ho & Hp & c & _ & Hl) | (payload & Ho & Hp & Hl & _)];
    rewrite Hr in Ho, Hp, Hl; cbn [fst snd] in Ho, Hp, Hl.
  - left. injection Ho as ->. subst packet' l'. auto.
  - right. injection Ho as ->. subst packet' l'.
    split; [lia |]. split; [reflexivity |]. exists payload. auto.
Qed.

(** A frame whose BCC2 is wrong is refused and leaves the buffer alone. *)
Lemma llread_error_is_without_effect_witness :
  let packet := [0xAA; 0xBB; 0xCC] in
  let l := link_init (map Rx [0x7E; 0x03; 0x00; 0x03; 0x48; 0x69; 0x20; 0x7E]) in
  llread packet l
    = (Returned (-1), packet,
       mkLink 0 0 [] [[0x7E; 0x01; 0x01; 0x00; 0x7E]])
  /\ ((-1 = -1 /\ packet = packet /\ 0 = expectedSeq l)
      \/ (0 <= -1
          /\ 0 = Z.lxor (expectedSeq l) 1
          /\ exists payload : list Z,
               -1 = Z.of_nat (length payload)
               /\ packet = payload ++ skipn (length payload) packet)).
Proof.
  cbv zeta. split; [reflexivity |].
  apply (@llread_error_is_without_effect
           [0xAA; 0xBB; 0xCC]
           (link_init (map Rx [0x7E; 0x03; 0x00; 0x03; 0x48; 0x69; 0x20; 0x7E]))
           (-1) [0xAA; 0xBB; 0xCC]
           (mkLink 0 0 [] [[0x7E; 0x01; 0x01; 0x00; 0x7E]])).
  reflexivity.
Defined.

(** [llread_frame] on a frame with its four header bytes and closing flag. *)
Lemma llread_frame_shape (a c bcc1 : Z) (body packet : list Z) (l : link) :
  llread_frame (FLAG :: a :: c :: bcc1 :: body ++ [FLAG]) packet l
  = if negb (Z.lxor a c =? bcc1) then send_rej packet l
    else if negb (seq_bit c =? expectedSeq l) then
      (Returned (-1), packet,
       writeBytesSerialPort (reply_frame (rr_for (expectedSeq l))) l)
    else
      let data := destuffData body in
      if Z.of_nat (length data) <? 1 then send_rej packet l
      else if negb (bcc2_of (firstn (length data - 1) data)
                      =? nth (length data - 1) data 0)
      then send_rej packet l
      else
        (Returned (Z.of_nat (length data) - 1),
         memcpy packet data (Z.of_nat (length data) - 1),
         with_expectedSeq (Z.lxor (expectedSeq l) 1)
           (writeBytesSerialPort (reply_frame (rr_for (expectedSeq l))) l)).
Proof.
  unfold llread_frame.
  set (frame := FLAG :: a :: c :: bcc1 :: body ++ [FLAG]).
  fold (rr_for (expectedSeq l)) (seq_bit (nth 2 frame 0)).
  assert (Hlen : (Z.of_nat (length frame) <? 5) = false).
  { apply Z.ltb_ge. subst frame. cbn [length]. rewrite length_app.
    cbn [length]. lia. }
  rewrite Hlen.
  assert (Hbody :
    firstn (Z.to_nat (Z.of_nat (length frame) - 5)) (skipn 4 frame) = body).
  subst frame.
  { cbn [skipn length]. rewrite length_app. cbn [length].
    replace (Z.to_nat (Z.of_nat (S (S (S (S (length body + 1))))) - 5))
      with (length body + 0)%nat by lia.
    rewrite firstn_app_2. cbn. now rewrite app_nil_r. }
  rewrite Hbody. cbn [nth].
  replace (Z.to_nat (Z.of_nat (length (destuffData body)) - 1))
    with (length (destuffData body) - 1)%nat by lia.
  reflexivity.
Qed.

(** A frame that passes BCC1 and carries the other sequence bit is answered
    with the RR computed from the expected bit, and nothing is delivered. *)
Lemma llread_duplicate (a c : Z) (body packet : list Z) (l : link)
  (tr : list event) :
  read_frame false [] (rx l)
    = Some (FLAG :: a :: c :: Z.lxor a c :: body ++ [FLAG], tr) ->
  seq_bit c <> expectedSeq l ->
  llread packet l
  = (Returned (-1), packet,
     writeBytesSerialPort (reply_frame (rr_for (expectedSeq l))) (with_rx tr l)).
Proof.
  intros Hrf Hseq. unfold llread. rewrite Hrf, llread_frame_shape.
  rewrite Z.eqb_refl. cbn [negb with_rx expectedSeq].
  apply Z.eqb_neq in Hseq. rewrite Hseq. reflexivity.
Qed.

(** C2 as stated fails twice over: a stuffed region ending in an unpaired
    escape is delivered and acknowledged, and a frame with a wrong BCC2 but
    the unexpected sequence bit is answered with RR, not REJ. *)
Lemma llread_unpaired_escape_is_accepted :
  let packet := [0x00; 0x00; 0x00] in
  let body := [0x48; 0x69; 0x21; 0x7D] in
  let l := link_init (map Rx ([0x7E; 0x03; 0x00; 0x03] ++ body ++ [0x7E])) in
  let l2 := link_init (map Rx [0x7E; 0x03; 0x40; 0x43; 0x48; 0x69; 0xFF; 0x7E]) in
  ends_with_unpaired_escape body = true
  /\ llread packet l
     = (Returned 2, [0x48; 0x69; 0x00],
        mkLink 0 1 [] [[0x7E; 0x01; 0x85; 0x84; 0x7E]])
  /\ xor_all [0x48; 0x69] <> 0xFF
  /\ llread packet l2
     = (Returned (-1), packet, mkLink 0 0 [] [[0x7E; 0x01; 0x85; 0x84; 0x7E]]).
Proof. cbv zeta. repeat split. cbn. discriminate. Qed.

(** C2, amended: for every captured frame whose sequence bit is the expected
    one and whose destuffed body (an unpaired trailing escape being dropped
    by [destuffData]) is empty or ends in a byte other than the XOR of the
    bytes before it, [llread] writes the REJ frame for the expected bit,
    returns -1, and leaves the caller's buffer and the expected bit as they
    were. *)
Theorem llread_rejects_bad_bcc2 :
  forall (packet : list Z) (l : link) (a c bcc1 : Z) (body : list Z)
         (tr : list event),
    read_frame false [] (rx l)
      = Some (FLAG :: a :: c :: bcc1 :: body ++ [FLAG], tr) ->
    seq_bit c = expectedSeq l ->
    (destuffData body = []
     \/ exists (payload : list Z) (bcc2 : Z),
          destuffData body = payload ++ [bcc2]
          /\ all_uchar payload /\ bcc2 <> xor_all payload) ->
    llread packet l
    = (Returned (-1), packet,
       mkLink (sequenceNumber l) (expectedSeq l) tr
              (tx l ++ [[FLAG; A_RECEIVER; rej_for (expectedSeq l);
                         Z.lxor A_RECEIVER (rej_for (expectedSeq l)); FLAG]])).
Proof.
  intros packet l a c bcc1 body tr Hrf Hseq Hbad.
  assert (Hrej : send_rej packet (with_rx tr l)
    = (Returned (-1), packet,
       mkLink (sequenceNumber l) (expectedSeq l) tr
              (tx l ++ [[FLAG; A_RECEIVER; rej_for (expectedSeq l);
                         Z.lxor A_RECEIVER (rej_for (expectedSeq l)); FLAG]]))).
  { unfold send_rej, rej_for. cbn [with_rx expectedSeq].
    destruct (expectedSeq l =? 0); reflexivity. }
  unfold llread. rewrite Hrf, llread_frame_shape.
  destruct (Z.lxor a c =? bcc1); cbn [negb]; [| exact Hrej].
  cbn [with_rx expectedSeq]. rewrite Hseq, Z.eqb_refl. cbn [negb]. cbv zeta.
  destruct Hbad as [-> | (payload & bcc2 & -> & Hp & Hne)];
    [cbn; exact Hrej |].
  rewrite length_app. cbn [length].
  destruct (Z.of_nat (length payload + 1) <? 1) eqn:Hsz;
    [apply Z.ltb_lt in Hsz; lia |].
  replace (length payload + 1 - 1)%nat with (length payload + 0)%nat by lia.
  rewrite firstn_app_2, app_nil_r. cbn [firstn].
  rewrite app_nth2 by lia.
  replace (length payload + 0 - length payload)%nat with O by lia.
  cbn [nth].
  destruct (bcc2_of_xor_all Hp) as [-> _].
  assert (Hcmp : (xor_all payload =? bcc2) = false)
    by (apply Z.eqb_neq; congruence).
  rewrite Hcmp. exact Hrej.
Qed.

(** Scenario S4: the frame of "Hi" with one payload bit flipped. *)
Lemma llread_rejects_bad_bcc2_witness :
  let packet := [0xAA; 0xBB; 0xCC] in
  let l := link_init (map Rx [0x7E; 0x03; 0x00; 0x03; 0x48; 0x68; 0x21; 0x7E]) in
  read_frame false [] (rx l)
    = Some (FLAG :: 0x03 :: 0x00 :: 0x03 :: [0x48; 0x68; 0x21] ++ [FLAG], [])
  /\ llread packet l
     = (Returned (-1), packet,
        mkLink 0 0 [] ([] ++ [[0x7E; 0x01; 0x01; 0x00; 0x7E]])).
Proof.
  cbv zeta. split; [reflexivity |].
  apply (@llread_rejects_bad_bcc2
           [0xAA; 0xBB; 0xCC]
           (link_init (map Rx [0x7E; 0x03; 0x00; 0x03; 0x48; 0x68; 0x21; 0x7E]))
           0x03 0x00 0x03 [0x48; 0x68; 0x21] []).
  - reflexivity.
  - reflexivity.
  - right. exists [0x48; 0x68], 0x21. split; [reflexivity |].
    split; [repeat constructor; unfold is_uchar; lia | cbn; lia].
Defined.

(** C3: the frame of "Hi" with sequence bit 0, delivered twice to a receiver
    expecting 0.  The first copy is delivered and answered with RR1; the
    second is recognised as a duplicate and not delivered, but it is
    answered with RR0.  A sender still holding bit 0 does not accept RR0
    and gives up. *)
Theorem llread_duplicate_is_answered_with_other_rr :
  let frame := [0x7E; 0x03; 0x00; 0x03; 0x48; 0x69; 0x21; 0x7E] in
  let packet := [0x00; 0x00; 0x00] in
  let first := llread packet (link_init (map Rx (frame ++ frame))) in
  let second := llread (snd (fst first)) (snd first) in
  fst (fst first) = Returned 2
  /\ snd (fst first) = [0x48; 0x69; 0x00]
  /\ expectedSeq (snd first) = 1
  /\ fst (fst second) = Returned (-1)
  /\ snd (fst second) = [0x48; 0x69; 0x00]
  /\ expectedSeq (snd second) = 1
  /\ tx (snd second)
     = [[0x7E; 0x01; 0x85; 0x84; 0x7E]; [0x7E; 0x01; 0x05; 0x04; 0x7E]]
  /\ fst (llwrite [0x48; 0x69]
            (link_init (map Rx (reply_frame C_RR0) ++ [Alarm]
                        ++ map Rx (reply_frame C_RR0) ++ [Alarm]
                        ++ map Rx (reply_frame C_RR0) ++ [Alarm])))
     = Returned (-1).
Proof. cbv zeta. repeat split. Qed.

(** The capture loop, once inside a frame, stores flag-free bytes that fit
    the buffer and stops at the next flag. *)
Lemma read_frame_body (body : list Z) :
  forall (acc : list Z) (rest : list event),
    ~ In FLAG body ->
    (length acc + length body <= 2048)%nat ->
    read_frame true acc (map Rx body ++ Rx FLAG :: rest)
    = Some (acc ++ body ++ [FLAG], rest).
Proof.
  induction body as [| b body IH]; intros acc rest Hnf Hlen.
  - reflexivity.
  - cbn [map app read_frame].
    assert (Hb : (b =? FLAG) = false)
      by (apply Z.eqb_neq; intro; apply Hnf; left; auto).
    rewrite Hb.
    assert (Hfit : (Z.of_nat (length acc) <? 2048) = true)
      by (apply Z.ltb_lt; cbn [length] in Hlen; lia).
    rewrite Hfit, IH.
    + now rewrite <- app_assoc.
    + intro; apply Hnf; right; auto.
    + rewrite length_app. cbn [length] in *. lia.
Qed.

(** Outside a frame, flag-free bytes are discarded. *)
Lemma read_frame_discards (junk : list Z) (tr : list event) :
  ~ In FLAG junk ->
  read_frame false [] (map Rx junk ++ tr) = read_frame false [] tr.
Proof.
  induction junk as [| b junk IH]; intro Hnf; [reflexivity |].
  cbn [map app read_frame].
  assert (Hb : (b =? FLAG) = false)
    by (apply Z.eqb_neq; intro; apply Hnf; left; auto).
  rewrite Hb. apply IH. intro; apply Hnf; right; auto.
Qed.

Lemma iframe_inner_no_flag (sn : Z) (buf : list Z) :
  ~ In FLAG ([A_SENDER; control_field sn;
              to_uchar (Z.lxor A_SENDER (control_field sn))]
             ++ stuffData (buf ++ [bcc2_of buf])).
Proof.
  intro H. apply in_app_or in H. destruct H as [H | H].
  - unfold control_field in H.
    destruct (sn =? 0); cbn in H; unfold FLAG in H;
      repeat (destruct H as [H | H]; [discriminate |]); exact H.
  - exact (stuffData_no_flag _ H).
Qed.

Lemma build_iframe_inner (sn : Z) (buf : list Z) :
  build_iframe sn buf
  = FLAG :: ([A_SENDER; control_field sn;
              to_uchar (Z.lxor A_SENDER (control_field sn))]
             ++ stuffData (buf ++ [bcc2_of buf])) ++ [FLAG].
Proof. unfold build_iframe. cbn. reflexivity. Qed.

(** A frame built by [llwrite] that fits the 2048-byte buffer is captured
    whole, whatever flag-free bytes precede it. *)
Lemma read_frame_iframe (sn : Z) (buf junk : list Z) (rest : list event) :
  ~ In FLAG junk ->
  (length (build_iframe sn buf) <= 2048)%nat ->
  read_frame false [] (map Rx (junk ++ build_iframe sn buf) ++ rest)
  = Some (build_iframe sn buf, rest).
Proof.
  intros Hj Hlen. rewrite map_app, <- app_assoc, read_frame_discards by exact Hj.
  rewrite build_iframe_inner in *.
  pose proof (iframe_inner_no_flag sn buf) as Hnf.
  remember ([A_SENDER; control_field sn;
             to_uchar (Z.lxor A_SENDER (control_field sn))]
            ++ stuffData (buf ++ [bcc2_of buf])) as inner eqn:Hinner.
  clear Hinner.
  cbn [map app read_frame]. rewrite Z.eqb_refl. cbn [negb].
  rewrite map_app, <- app_assoc. cbn [map app].
  rewrite read_frame_body; [reflexivity | exact Hnf |].
  cbn [length] in *. rewrite length_app in Hlen. cbn [length] in Hlen. lia.
Qed.

(** [llread] delivers the payload of a frame built by [llwrite] with the
    expected bit. *)
Lemma llread_accepts_iframe (buf junk packet : list Z) (l : link)
  (rest : list event) :
  is_bit (expectedSeq l) ->
  ~ In FLAG junk ->
  (length (build_iframe (expectedSeq l) buf) <= 2048)%nat ->
  rx l = map Rx (junk ++ build_iframe (expectedSeq l) buf) ++ rest ->
  llread packet l
  = (Returned (Z.of_nat (length buf)),
     buf ++ skipn (length buf) packet,
     mkLink (sequenceNumber l) (1 - expectedSeq l) rest
            (tx l ++ [reply_frame (rr_for (expectedSeq l))])).
Proof.
  intros Hbit Hj Hlen Hrx. unfold llread.
  rewrite Hrx, read_frame_iframe by assumption.
  unfold build_iframe. cbn [app]. rewrite llread_frame_shape.
  cbn [with_rx expectedSeq].
  assert (Hhdr : (Z.lxor A_SENDER (control_field (expectedSeq l))
                  =? to_uchar (Z.lxor A_SENDER (control_field (expectedSeq l))))
                 = true
                 /\ (seq_bit (control_field (expectedSeq l)) =? expectedSeq l)
                    = true).
  { destruct Hbit as [-> | ->]; split; reflexivity. }
  destruct Hhdr as [-> ->]. cbn [negb]. cbv zeta.
  rewrite destuffData_stuffData.
  rewrite length_app. cbn [length].
  destruct (Z.of_nat (length buf + 1) <? 1) eqn:Hsz;
    [apply Z.ltb_lt in Hsz; lia |].
  replace (length buf + 1 - 1)%nat with (length buf + 0)%nat by lia.
  rewrite firstn_app_2, app_nil_r. cbn [firstn].
  rewrite app_nth2 by lia.
  replace (length buf + 0 - length buf)%nat with O by lia.
  cbn [nth]. rewrite Z.eqb_refl. cbn [negb].
  unfold memcpy.
  replace (Z.to_nat (Z.of_nat (length buf + 1) - 1))
    with (length buf + 0)%nat by lia.
  rewrite firstn_app_2, app_nil_r. cbn [firstn].
  replace (length buf + 0)%nat with (length buf) by lia.
  destruct (lxor_bit Hbit) as [-> _].
  replace (Z.of_nat (length buf + 1) - 1) with (Z.of_nat (length buf)) by lia.
  reflexivity.
Qed.

(** C8 as stated fails: two valid frames sharing one flag byte.  The first
    is delivered; the second call discards the header and body of the second
    frame, takes its closing flag as an opening flag and is still waiting
    when the stream ends; one more flag makes it answer REJ. *)
Lemma llread_shared_flag_loses_second_frame :
  let hi := [0x48; 0x69] in
  let stream := build_iframe 0 hi ++ tl (build_iframe 1 hi) in
  let packet := [0x00; 0x00; 0x00] in
  let first := llread packet (link_init (map Rx stream)) in
  let second := llread (snd (fst first)) (snd first) in
  let first' := llread packet (link_init (map Rx (stream ++ [0x7E]))) in
  let second' := llread (snd (fst first')) (snd first') in
  stream = [0x7E; 0x03; 0x00; 0x03; 0x48; 0x69; 0x21;
            0x7E; 0x03; 0x40; 0x43; 0x48; 0x69; 0x21; 0x7E]
  /\ fst (fst first) = Returned 2
  /\ fst (fst second) = Starved
  /\ tx (snd second) = [[0x7E; 0x01; 0x85; 0x84; 0x7E]]
  /\ fst (fst second') = Returned (-1)
  /\ tx (snd second')
     = [[0x7E; 0x01; 0x85; 0x84; 0x7E]; [0x7E; 0x01; 0x81; 0x80; 0x7E]].
Proof. cbv zeta. repeat split. Qed.

(** C8, amended: [llread] captures the bytes from the first flag it sees to
    the next flag.  Two back-to-back valid frames that each carry their own
    opening and closing flag, and fit the 2048-byte buffer, are both
    delivered and acknowledged.  When the second frame has no opening flag
    of its own, its bytes up to its closing flag are discarded and that flag
    is taken as the opening flag of whatever follows. *)
Theorem llread_accepts_frames_with_own_flags :
  forall (p1 p2 packet : list Z) (l : link) (rest : list event),
    is_bit (expectedSeq l) ->
    (length (build_iframe (expectedSeq l) p1) <= 2048)%nat ->
    (length (build_iframe (1 - expectedSeq l) p2) <= 2048)%nat ->
    rx l = map Rx (build_iframe (expectedSeq l) p1
                   ++ build_iframe (1 - expectedSeq l) p2) ++ rest ->
    let first := llread packet l in
    let second := llread (snd (fst first)) (snd first) in
    fst (fst first) = Returned (Z.of_nat (length p1))
    /\ snd (fst first) = p1 ++ skipn (length p1) packet
    /\ fst (fst second) = Returned (Z.of_nat (length p2))
    /\ snd (fst second) = p2 ++ skipn (length p2) (snd (fst first))
    /\ rx (snd second) = rest
    /\ tx (snd second)
       = tx l ++ [reply_frame (rr_for (expectedSeq l));
                  reply_frame (rr_for (1 - expectedSeq l))]
    /\ expectedSeq (snd second) = expectedSeq l
    /\ forall tr : list event,
         read_frame false []
           (map Rx (tl (build_iframe (1 - expectedSeq l) p2)) ++ tr)
         = read_frame true [FLAG] tr.
Proof.
  intros p1 p2 packet l rest Hbit H1 H2 Hrx first second.
  assert (Hfirst : first
    = (Returned (Z.of_nat (length p1)), p1 ++ skipn (length p1) packet,
       mkLink (sequenceNumber l) (1 - expectedSeq l)
              (map Rx ([] ++ build_iframe (1 - expectedSeq l) p2) ++ rest)
              (tx l ++ [reply_frame (rr_for (expectedSeq l))]))).
  { subst first. apply (@llread_accepts_iframe p1 [] packet l); auto.
    cbn [app]. rewrite Hrx, map_app, <- app_assoc. reflexivity. }
  assert (Hsecond : second
    = (Returned (Z.of_nat (length p2)),
       p2 ++ skipn (length p2) (p1 ++ skipn (length p1) packet),
       mkLink (sequenceNumber l) (1 - (1 - expectedSeq l)) rest
              ((tx l ++ [reply_frame (rr_for (expectedSeq l))])
               ++ [reply_frame (rr_for (1 - expectedSeq l))]))).
  { subst second. rewrite Hfirst. cbn [fst snd].
    apply (@llread_accepts_iframe p2 [] _ (mkLink _ _ _ _)); cbn [expectedSeq rx]; auto.
    apply (lxor_bit Hbit). }
  rewrite Hsecond, Hfirst. cbn [fst snd rx tx expectedSeq].
  repeat split; try reflexivity.
  - now rewrite <- app_assoc.
  - lia.
  - intro tr. rewrite build_iframe_inner. cbn [tl].
    rewrite map_app, <- app_assoc.
    rewrite read_frame_discards by apply iframe_inner_no_flag.
    cbn [map app read_frame]. rewrite Z.eqb_refl. reflexivity.
Qed.

(** "Hi" then "ok", each frame with both of its flags. *)
Lemma llread_accepts_frames_with_own_flags_witness :
  let l := link_init (map Rx (build_iframe 0 [0x48; 0x69]
                              ++ build_iframe 1 [0x6F; 0x6B]) ++ [Idle]) in
  let first := llread [0x00; 0x00; 0x00] l in
  let second := llread (snd (fst first)) (snd first) in
  is_bit (expectedSeq l)
  /\ fst (fst first) = Returned 2
  /\ snd (fst first) = [0x48; 0x69; 0x00]
  /\ fst (fst second) = Returned 2
  /\ snd (fst second) = [0x6F; 0x6B; 0x00].
Proof.
  cbv zeta.
  assert (Hb : is_bit (expectedSeq (link_init (map Rx (build_iframe 0 [0x48; 0x69]
                              ++ build_iframe 1 [0x6F; 0x6B]) ++ [Idle]))))
    by (left; reflexivity).
  split; [exact Hb |].
  destruct (@llread_accepts_frames_with_own_flags
              [0x48; 0x69] [0x6F; 0x6B] [0x00; 0x00; 0x00]
              (link_init (map Rx (build_iframe 0 [0x48; 0x69]
                                  ++ build_iframe 1 [0x6F; 0x6B]) ++ [Idle]))
              [Idle] Hb)
    as (Ha & Hb' & Hc & Hd & _).
  - cbn. lia.
  - cbn. lia.
  - reflexivity.
  - split; [exact Ha | split; [exact Hb' | split; [exact Hc | exact Hd]]].
Defined.

(* ------------------------------------------------------------------ *)
(** ** Sequence bits across calls *)

Lemma flip_n_succ (m : nat) (b : Z) : flip_n (S m) b = flip_n m (1 - b).
Proof.
  unfold flip_n. rewrite Nat.even_succ, <- Nat.negb_even.
  destruct (Nat.even m); cbn [negb]; lia.
Qed.

Lemma successes_cons (c : call) (log : list call) :
  successes (c :: log)
  = if succeeded (call_outcome c) then S (successes log) else successes log.
Proof. unfold successes. cbn [filter]. now destruct (succeeded (call_outcome c)). Qed.

(** One [llread] call: the expected bit flips exactly on a successful
    return, and then the payload has been delivered. *)
Lemma llread_call_bit (packet : list Z) (l : link) :
  is_bit (expectedSeq l) ->
  let r := llread packet l in
  expectedSeq (snd r)
    = (if succeeded (fst (fst r)) then 1 - expectedSeq l else expectedSeq l)
  /\ is_bit (expectedSeq (snd r))
  /\ sequenceNumber (snd r) = sequenceNumber l
  /\ (succeeded (fst (fst r)) = false -> snd (fst r) = packet)
  /\ (succeeded (fst (fst r)) = true ->
      exists payload : list Z,
        fst (fst r) = Returned (Z.of_nat (length payload))
        /\ snd (fst r) = payload ++ skipn (length payload) packet).
Proof.
  intros Hbit r. subst r. unfold llread.
  destruct (lxor_bit Hbit) as [Hx Hb'].
  destruct (read_frame false [] (rx l)) as [[frame tr] |].
  - destruct (llread_frame_spec frame packet (with_rx tr l))
      as [(Ho & Hp & c & _ & Hl) | (payload & Ho & Hp & Hl & _)];
      rewrite Ho, Hp, Hl; cbn [succeeded with_rx with_expectedSeq
                                writeBytesSerialPort expectedSeq sequenceNumber].
    + cbn. repeat split; auto. discriminate.
    + assert (Hpos : (0 <=? Z.of_nat (length payload)) = true)
        by (apply Z.leb_le; lia).
      rewrite Hpos, Hx. repeat split; auto; try discriminate.
      intros _. exists payload. auto.
  - cbn. repeat split; auto. discriminate.
Qed.

Lemma llwrite_calls_bits (bufs : list (list Z)) :
  forall (l : link) (k : nat) (c : call),
    is_bit (sequenceNumber l) ->
    nth_error (fst (llwrite_calls bufs l)) k = Some c ->
    call_seq c
      = flip_n (successes (firstn k (fst (llwrite_calls bufs l))))
               (sequenceNumber l)
    /\ Forall (fun f => nth 2 f 0 = control_field (call_seq c))
              (call_written c).
Proof.
  induction bufs as [| buf bufs IH]; intros l k c Hbit Hnth.
  - destruct k; discriminate.
  - cbn [llwrite_calls] in *.
    pose proof (llwrite_call_bit buf l Hbit) as Hcall. cbv zeta in Hcall.
    destruct (llwrite buf l) as [o l'].
    cbn [fst snd] in Hcall. destruct Hcall as (Hsn & Hb' & _ & Hfr & _).
    assert (Hhead : forall log, nth_error
               (mkCall (sequenceNumber l) o (skipn (length (tx l)) (tx l')) :: log)
               0 = Some c ->
             call_seq c = flip_n (successes []) (sequenceNumber l)
             /\ Forall (fun f => nth 2 f 0 = control_field (call_seq c))
                       (call_written c)).
    { intros log H. injection H as <-. cbn. auto. }
    destruct o as [ret |].
    + specialize (IH l'). destruct (llwrite_calls bufs l') as [log l''].
      cbn [fst] in *. destruct k as [| k]; [now apply (Hhead log) |].
      cbn [nth_error] in Hnth. destruct (IH k c Hb' Hnth) as [Hseq Hall].
      split; [| exact Hall].
      cbn [firstn]. rewrite successes_cons, Hseq, Hsn. cbn [call_outcome].
      destruct (succeeded (Returned ret)); [now rewrite flip_n_succ | reflexivity].
    + cbn [fst] in *. destruct k as [| k]; [now apply (Hhead []) |].
      destruct k; discriminate.
Qed.

Lemma llread_calls_bits (n : nat) :
  forall (packet : list Z) (l : link) (k : nat) (c : call),
    is_bit (expectedSeq l) ->
    nth_error (fst (fst (llread_calls n packet l))) k = Some c ->
    call_seq c
      = flip_n (successes (firstn k (fst (fst (llread_calls n packet l)))))
               (expectedSeq l).
Proof.
  induction n as [| n IH]; intros packet l k c Hbit Hnth.
  - destruct k; discriminate.
  - cbn [llread_calls] in *.
    pose proof (llread_call_bit packet l Hbit) as Hcall. cbv zeta in Hcall.
    destruct (llread packet l) as [[o packet'] l'].
    cbn [fst snd] in Hcall. destruct Hcall as (Hes & Hb' & _).
    destruct o as [ret |].
    + specialize (IH packet' l').
      destruct (llread_calls n packet' l') as [[log packet''] l''].
      cbn [fst] in *. destruct k as [| k].
      * injection Hnth as <-. reflexivity.
      * cbn [nth_error] in Hnth. rewrite (IH k c Hb' Hnth).
        cbn [firstn]. rewrite successes_cons, Hes. cbn [call_outcome].
        destruct (succeeded (Returned ret));
          [now rewrite flip_n_succ | reflexivity].
    + cbn [fst] in *. destruct k as [| k].
      * injection Hnth as <-. reflexivity.
      * destruct k; discriminate.
Qed.

(* ------------------------------------------------------------------ *)
(** ** Control packets *)

Import ApplicationLayer.

Lemma lor_shiftl_byte (a b : Z) :
  is_uchar b -> Z.lor (Z.shiftl a 8) b = a * 256 + b.
Proof.
  intro Hb.
  assert (Hland : Z.land (Z.shiftl a 8) b = 0).
  { apply Z.bits_inj'. intros n Hn. rewrite Z.land_spec, Z.bits_0.
    destruct (Z_lt_dec n 8) as [Hlt | Hge].
    - rewrite Z.shiftl_spec_low by lia. reflexivity.
    - rewrite <- (Z.mod_small b (2 ^ 8)) by (unfold is_uchar in Hb; lia).
      rewrite Z.mod_pow2_bits_high by lia. apply andb_false_r. }
  pose proof (Z.add_lor_land (Z.shiftl a 8) b) as Hadd.
  rewrite Hland, Z.shiftl_mul_pow2 in Hadd by lia.
  rewrite Z.shiftl_mul_pow2 by lia. change (2 ^ 8) with 256 in *. lia.
Qed.

Lemma to_long_id (x : Z) : is_long x -> to_long x = x.
Proof.
  unfold is_long, to_long. intro H.
  rewrite Z.mod_small by lia. lia.
Qed.

(** The size loop at a non-negative value: low byte first, then the loop on
    the remaining high part while that is positive. *)
Lemma sizeBytes_loop_step (t : Z) :
  0 <= t ->
  sizeBytes_loop t
  = t mod 256 :: (if 0 <? t / 256 then sizeBytes_loop (t / 256) else []).
Proof.
  intro Ht. rewrite sizeBytes_loop_equation_1.
  assert (Hb : to_uchar (Z.land t 255) = t mod 256).
  { change 255 with (Z.ones 8). rewrite Z.land_ones by lia.
    change (2 ^ 8) with 256. unfold to_uchar. apply Z.mod_mod. lia. }
  assert (Hs : Z.shiftr t 8 = t / 256)
    by (rewrite Z.shiftr_div_pow2 by lia; reflexivity).
  destruct (Z_lt_dec 0 (Z.shiftr t 8)) as [Hpos | Hneg];
    simp sizeBytes_loop; rewrite Hb, Hs in *.
  - apply Z.ltb_lt in Hpos. rewrite Hpos. reflexivity.
  - apply Z.ltb_nlt in Hneg. rewrite Hneg. reflexivity.
Qed.

Lemma be_value_snoc (v : list Z) (b : Z) :
  be_value (v ++ [b]) = be_value v * 256 + b.
Proof. unfold be_value. rewrite fold_left_app. reflexivity. Qed.

(** The size bytes, written most significant first, are the base-256 digits
    of the size. *)
Lemma sizeBytes_loop_spec :
  forall t : Z,
    0 <= t ->
    all_uchar (rev (sizeBytes_loop t))
    /\ be_value (rev (sizeBytes_loop t)) = t
    /\ (1 <= length (sizeBytes_loop t))%nat
    /\ forall n : nat,
         t < 256 ^ Z.of_nat (S n) -> (length (sizeBytes_loop t) <= S n)%nat.
Proof.
  apply (Zlt_0_ind (fun t =>
    all_uchar (rev (sizeBytes_loop t))
    /\ be_value (rev (sizeBytes_loop t)) = t
    /\ (1 <= length (sizeBytes_loop t))%nat
    /\ forall n : nat,
         t < 256 ^ Z.of_nat (S n) -> (length (sizeBytes_loop t) <= S n)%nat)).
  intros t IH Ht. rewrite sizeBytes_loop_step by exact Ht.
  pose proof (Z.mod_pos_bound t 256 ltac:(lia)) as Hmod.
  pose proof (Z.div_mod t 256 ltac:(lia)) as Hdm.
  destruct (0 <? t / 256) eqn:Hq.
  - apply Z.ltb_lt in Hq.
    destruct (IH (t / 256)) as (Hu & Hv & Hl & Hn); [lia |].
    cbn [rev length]. repeat split.
    + apply Forall_app. split; [exact Hu |].
      constructor; [exact Hmod | constructor].
    + rewrite be_value_snoc, Hv. lia.
    + lia.
    + intros [| n] Hlt.
      * change (256 ^ Z.of_nat 1) with 256 in Hlt. lia.
      * apply le_n_S, Hn.
        rewrite Nat2Z.inj_succ, Z.pow_succ_r in Hlt by lia.
        apply Z.div_lt_upper_bound; lia.
  - cbn [rev length app]. repeat split.
    + constructor; [exact Hmod | constructor].
    + apply Z.ltb_nlt in Hq. cbn.
      assert (t / 256 = 0) by (pose proof (Z.div_pos t 256); lia). lia.
    + lia.
    + intros n _. lia.
Qed.

(** Reading the digits back most significant first gives their value, as
    long as it is a [long]. *)
Lemma read_size_be_value (v : list Z) :
  all_uchar v -> be_value v < 2 ^ 63 ->
  read_size 0 v = be_value v /\ 0 <= be_value v.
Proof.
  induction v as [| b v IH] using rev_ind; intros Hu Hlt.
  - cbn. split; [reflexivity | lia].
  - apply Forall_app in Hu. destruct Hu as [Hv Hb].
    inversion Hb as [| ? ? Hb' _]; subst.
    rewrite be_value_snoc in *.
    assert (Hnn : 0 <= be_value v).
    { clear - Hv. induction v as [| x v IHv] using rev_ind; [cbn; lia |].
      apply Forall_app in Hv. destruct Hv as [Hv Hx].
      inversion Hx as [| ? ? Hx' _]; subst.
      rewrite be_value_snoc. specialize (IHv Hv). unfold is_uchar in Hx'. lia. }
    unfold is_uchar in Hb'.
    destruct IH as [IH _]; [exact Hv | lia |].
    unfold read_size in *. rewrite fold_left_app. cbn [fold_left].
    rewrite IH, lor_shiftl_byte by exact Hb'.
    split; [apply to_long_id; unfold is_long; lia | lia].
Qed.

Lemma parse_loop_end (packet : list Z) (packetSize idx fs : Z)
  (name : list Z) :
  packetSize <= idx ->
  parse_loop packet packetSize idx fs name = Some (0, fs, name).
Proof.
  intro H. rewrite parse_loop_equation_1.
  destruct (Z_lt_dec idx packetSize); [lia |]. reflexivity.
Qed.

(** One turn of the loop on a TLV that lies inside the packet. *)
Lemma parse_loop_tlv (packet : list Z) (packetSize idx fs : Z)
  (name : list Z) (type len : Z) :
  idx < packetSize ->
  byte_at packet idx = Some type ->
  byte_at packet (idx + 1) = Some len ->
  is_uchar type -> is_uchar len ->
  idx + 2 + len <= packetSize ->
  parse_loop packet packetSize idx fs name
  = if type =? TLV_FILE_SIZE then
      parse_loop packet packetSize (idx + 2 + len)
        (read_size fs (slice packet (idx + 2) len)) name
    else if type =? TLV_FILE_NAME then
      parse_loop packet packetSize (idx + 2 + len) fs
        (c_string (slice packet (idx + 2) len))
    else parse_loop packet packetSize (idx + 2 + len) fs name.
Proof.
  intros Hlt Hb1 Hb2 Ht Hl Hfit.
  match goal with |- _ = ?r => set (rhs := r) end.
  rewrite parse_loop_equation_1.
  destruct (Z_lt_dec idx packetSize) as [? | ?]; [| lia].
  simp parse_loop. rewrite Hb1. simp parse_loop. rewrite Hb2. simp parse_loop.
  destruct (Z_gt_dec (idx + 2 + to_uchar len) packetSize) as [? | ?];
    [pose proof (to_uchar_id Hl); lia |].
  simp parse_loop.
  rewrite (to_uchar_id Hl), (to_uchar_id Ht).
  subst rhs. rewrite <- !parse_loop_equation_1. reflexivity.
Qed.

Lemma byte_at_app (pre post : list Z) (x idx : Z) :
  idx = Z.of_nat (length pre) ->
  byte_at (pre ++ x :: post) idx = Some x.
Proof.
  intros ->. unfold byte_at.
  destruct (Z.of_nat (length pre) <? 0) eqn:H; [apply Z.ltb_lt in H; lia |].
  rewrite Nat2Z.id, nth_error_app2, Nat.sub_diag by lia. reflexivity.
Qed.

Lemma slice_app (pre v post : list Z) (idx n : Z) :
  idx = Z.of_nat (length pre) -> n = Z.of_nat (length v) ->
  slice (pre ++ v ++ post) idx n = v.
Proof.
  intros -> ->. unfold slice. rewrite !Nat2Z.id.
  rewrite skipn_own_length_app.
  replace (length v) with (length v + 0)%nat by lia.
  rewrite firstn_app_2. cbn. apply app_nil_r.
Qed.

Lemma c_string_nonzero (name : list Z) :
  Forall (fun ch => 0 < ch < 256) name -> c_string name = name.
Proof.
  induction 1 as [| ch name Hch _ IH]; [reflexivity |].
  cbn [c_string]. destruct (ch =? 0) eqn:H; [apply Z.eqb_eq in H; lia |].
  now rewrite IH.
Qed.

(** C9: for every file size that is a non-negative [long] and every file
    name of at most 255 non-zero bytes, parsing the packet built from them
    returns 0 with exactly that size and name; in the packet the size TLV
    holds between 1 and 8 value bytes whose value read most significant
    byte first is the file size. *)
Theorem control_packet_roundtrip :
  forall (controlField fileSize : Z) (filename : list Z),
    0 <= fileSize < 2 ^ 63 ->
    Forall (fun ch => 0 < ch < 256) filename ->
    (length filename <= 255)%nat ->
    let packet := buildControlPacket controlField filename fileSize in
    parseControlPacket packet (Z.of_nat (length packet))
      = Some (0, fileSize, filename)
    /\ exists value : list Z,
         packet = [controlField; TLV_FILE_SIZE; Z.of_nat (length value)]
                    ++ value
                    ++ [TLV_FILE_NAME; Z.of_nat (length filename)]
                    ++ filename
         /\ (1 <= length value <= 8)%nat
         /\ all_uchar value
         /\ be_value value = fileSize.
Proof.
  intros c fs name Hfs Hname Hlen packet.
  destruct (sizeBytes_loop_spec (proj1 Hfs)) as (Hu & Hv & Hl1 & Hl8).
  specialize (Hl8 7%nat).
  assert (H8 : (length (sizeBytes_loop fs) <= 8)%nat).
  { apply Hl8. change (256 ^ Z.of_nat 8) with (2 ^ 64). lia. }
  set (value := rev (sizeBytes_loop fs)) in *.
  assert (Hlv : length value = length (sizeBytes_loop fs))
    by (unfold value; apply length_rev).
  assert (Hpacket : packet
    = [c; TLV_FILE_SIZE; Z.of_nat (length value)] ++ value
        ++ [TLV_FILE_NAME; Z.of_nat (length name)] ++ name).
  { unfold packet, buildControlPacket, strlen. fold value. rewrite Hlv.
    assert (H255 : (255 <? Z.of_nat (length name)) = false)
      by (apply Z.ltb_ge; lia).
    rewrite H255, Nat2Z.id, firstn_all.
    rewrite !to_uchar_id by (unfold is_uchar; lia). reflexivity. }
  split; [| exists value; repeat split; auto; lia].
  rewrite Hpacket. unfold parseControlPacket.
  set (n := Z.of_nat (length value)). set (m := Z.of_nat (length name)).
  set (tail := [TLV_FILE_NAME; m] ++ name).
  assert (Hsize : Z.of_nat (length ([c; TLV_FILE_SIZE; n] ++ value ++ tail))
                  = 5 + n + m).
  { unfold tail. rewrite !length_app. cbn [length]. lia. }
  rewrite Hsize.
  (* the file-size TLV at index 1 *)
  rewrite (@parse_loop_tlv _ _ 1 0 [] TLV_FILE_SIZE n);
    try (unfold is_uchar, TLV_FILE_SIZE; lia).
  2: { apply (byte_at_app [c]). reflexivity. }
  2: { apply (byte_at_app [c; TLV_FILE_SIZE]). reflexivity. }
  cbn [Z.eqb TLV_FILE_SIZE].
  rewrite (@slice_app [c; TLV_FILE_SIZE; n] value tail) by (cbn; lia).
  destruct (read_size_be_value Hu ltac:(lia)) as [-> _]. rewrite Hv.
  (* the file-name TLV at index 3 + n *)
  assert (Hsplit : [c; TLV_FILE_SIZE; n] ++ value ++ tail
                   = ([c; TLV_FILE_SIZE; n] ++ value) ++ TLV_FILE_NAME :: [m] ++ name)
    by (unfold tail; rewrite <- app_assoc; reflexivity).
  assert (Hsplit2 : [c; TLV_FILE_SIZE; n] ++ value ++ tail
                   = (([c; TLV_FILE_SIZE; n] ++ value) ++ [TLV_FILE_NAME]) ++ m :: name)
    by (unfold tail; rewrite <- !app_assoc; reflexivity).
  assert (Hsplit3 : [c; TLV_FILE_SIZE; n] ++ value ++ tail
                   = (([c; TLV_FILE_SIZE; n] ++ value) ++ [TLV_FILE_NAME; m])
                       ++ name ++ [])
    by (unfold tail; rewrite app_nil_r, <- !app_assoc; reflexivity).
  rewrite (@parse_loop_tlv _ _ (1 + 2 + n) fs [] TLV_FILE_NAME m);
    try (unfold is_uchar, TLV_FILE_NAME; lia).
  2: { rewrite Hsplit. apply byte_at_app.
       rewrite length_app. cbn [length]. lia. }
  2: { rewrite Hsplit2. apply byte_at_app.
       rewrite !length_app. cbn [length]. lia. }
  cbn [Z.eqb TLV_FILE_NAME TLV_FILE_SIZE].
  rewrite Hsplit3 at 2.
  rewrite slice_app;
    [| rewrite !length_app; cbn [length]; lia | reflexivity].
  rewrite c_string_nonzero by exact Hname.
  apply parse_loop_end. lia.
Qed.

(** A 74565-byte file called "ab": the size goes out as 01 23 45. *)
Lemma control_packet_roundtrip_witness :
  let packet := buildControlPacket CTRL_START [0x61; 0x62] 0x012345 in
  0 <= 0x012345 < 2 ^ 63
  /\ packet = [0x02; 0x00; 0x03; 0x01; 0x23; 0x45; 0x01; 0x02; 0x61; 0x62]
  /\ parseControlPacket packet (Z.of_nat (length packet))
     = Some (0, 0x012345, [0x61; 0x62]).
Proof.
  cbv zeta.
  assert (Hfs : 0 <= 0x012345 < 2 ^ 63) by lia.
  split; [exact Hfs |]. split; [reflexivity |].
  refine (proj1 (@control_packet_roundtrip CTRL_START 0x012345 [0x61; 0x62]
                   Hfs _ _)).
  - repeat (constructor; [lia |]). constructor.
  - cbn. lia.
Defined.

(* ------------------------------------------------------------------ *)
(** ** Frames on the wire *)

(** X1: every I-frame that [llwrite] builds is a flag, a flag-free inner
    part of three header bytes and the stuffed payload with BCC2, and a
    closing flag. *)
Theorem iframe_flags_only_at_ends :
  forall (sn : Z) (buf : list Z),
    exists inner : list Z,
      build_iframe sn buf = FLAG :: inner ++ [FLAG]
      /\ ~ In FLAG inner
      /\ length inner = (3 + length (stuffData (buf ++ [bcc2_of buf])))%nat.
Proof.
  intros sn buf.
  exists ([A_SENDER; control_field sn;
           to_uchar (Z.lxor A_SENDER (control_field sn))]
          ++ stuffData (buf ++ [bcc2_of buf])).
  split; [apply build_iframe_inner |].
  split; [apply iframe_inner_no_flag | reflexivity].
Qed.

(** X2: stuffing lengthens a sequence by exactly the number of its bytes
    equal to 7E or 7D. *)
Theorem stuffData_length_exact :
  forall s : list Z,
    length (stuffData s) = (length s + escaped_count s)%nat.
Proof.
  unfold escaped_count.
  induction s as [| b s IH]; [reflexivity |].
  cbn [stuffData filter length].
  destruct (b =? FLAG); [cbn [orb length]; lia |].
  destruct (b =? 0x7D); cbn [orb length]; lia.
Qed.

Lemma destuffData_cons (b : Z) (rest : list Z) :
  destuffData (b :: rest)
  = if b =? 0x7D then
      match rest with
      | [] => []
      | c :: rest' => (if c =? 0x5E then FLAG else 0x7D) :: destuffData rest'
      end
    else b :: destuffData rest.
Proof. reflexivity. Qed.

Lemma destuffData_length_le_strong (n : nat) :
  forall d : list Z,
    (length d <= n)%nat -> (length (destuffData d) <= length d)%nat.
Proof.
  induction n as [| n IH]; intros d Hd.
  - destruct d; [cbn; lia | cbn in Hd; lia].
  - destruct d as [| b rest]; [cbn; lia |].
    rewrite destuffData_cons. cbn [length] in Hd.
    destruct (b =? 0x7D).
    + destruct rest as [| c rest]; [cbn; lia |].
      cbn [length] in *. specialize (IH rest ltac:(lia)). lia.
    + cbn [length]. specialize (IH rest ltac:(lia)). lia.
Qed.

(** X3: destuffing never produces more bytes than it reads, so the output
    of [destuffData] fits any buffer that holds its input. *)
Theorem destuffData_length_le :
  forall d : list Z, (length (destuffData d) <= length d)%nat.
Proof. intro d. apply (@destuffData_length_le_strong (length d) d). lia. Qed.


(* ------------------------------------------------------------------ *)
(** ** The capture loop of llread *)

Lemma read_frame_inv (tr : list event) :
  forall (inFrame : bool) (acc frame : list Z) (tr' : list event),
    in_frame_inv inFrame acc ->
    read_frame inFrame acc tr = Some (frame, tr') ->
    exists body : list Z,
      frame = FLAG :: body ++ [FLAG]
      /\ ~ In FLAG body
      /\ (length frame <= 2049)%nat
      /\ (length tr' < length tr)%nat.
Proof.
  induction tr as [| e tr IH]; intros inFrame acc frame tr' Hinv Hrf;
    [discriminate |].
  assert (Hskip : forall b a,
            in_frame_inv b a -> read_frame b a tr = Some (frame, tr') ->
            exists body : list Z,
              frame = FLAG :: body ++ [FLAG] /\ ~ In FLAG body
              /\ (length frame <= 2049)%nat
              /\ (length tr' < length (e :: tr))%nat).
  { intros b a Hi Hr. destruct (IH b a frame tr' Hi Hr) as (body & ? & ? & ? & ?).
    exists body. cbn [length]. repeat split; auto; lia. }
  destruct e as [byte | |]; cbn [read_frame] in Hrf;
    [| now apply (Hskip inFrame acc) | now apply (Hskip inFrame acc)].
  destruct (byte =? FLAG) eqn:Hflag.
  - apply Z.eqb_eq in Hflag. subst byte.
    destruct inFrame; cbn [negb] in Hrf.
    + injection Hrf as <- <-.
      destruct Hinv as (body & -> & Hnf & Hlen).
      exists body. cbn [length app] in *. rewrite length_app. cbn [length].
      repeat split; auto; lia.
    + apply (Hskip true [FLAG]); [| exact Hrf].
      exists []. cbn. repeat split; auto; lia.
  - apply Z.eqb_neq in Hflag.
    destruct inFrame; [| now apply (Hskip false acc)].
    destruct (Z.of_nat (length acc) <? 2048) eqn:Hfit.
    + apply Z.ltb_lt in Hfit.
      apply (Hskip true (acc ++ [byte])); [| exact Hrf].
      destruct Hinv as (body & -> & Hnf & Hlen).
      exists (body ++ [byte]). cbn [app length] in *.
      rewrite length_app. cbn [length].
      split; [reflexivity |]. split; [| lia].
      intro Hin. apply in_app_or in Hin. destruct Hin as [Hin | [Hin | []]];
        [now apply Hnf | congruence].
    + apply (Hskip false []); [exact I | exact Hrf].
Qed.

(** X4: whatever arrives, a frame captured by [llread] is a flag, flag-free
    bytes and a flag, of at most 2049 bytes in all, and capturing it
    consumes at least one event. *)
Theorem read_frame_captures_flag_delimited :
  forall (tr tr' : list event) (frame : list Z),
    read_frame false [] tr = Some (frame, tr') ->
    exists body : list Z,
      frame = FLAG :: body ++ [FLAG]
      /\ ~ In FLAG body
      /\ (length body <= 2047)%nat
      /\ (length tr' < length tr)%nat.
Proof.
  intros tr tr' frame Hrf.
  destruct (read_frame_inv tr false [] I Hrf) as (body & -> & Hnf & Hlen & Htr).
  exists body. cbn [length] in Hlen. rewrite length_app in Hlen.
  cbn [length] in Hlen. repeat split; auto; lia.
Qed.

Lemma read_frame_captures_flag_delimited_witness :
  read_frame false [] [Rx 0x11; Rx 0x7E; Idle; Rx 0x22; Rx 0x7E; Rx 0x33]
    = Some ([0x7E; 0x22; 0x7E], [Rx 0x33])
  /\ exists body : list Z,
       [0x7E; 0x22; 0x7E] = FLAG :: body ++ [FLAG]
       /\ ~ In FLAG body
       /\ (length body <= 2047)%nat
       /\ (length [Rx 0x33]
           < length [Rx 0x11; Rx 0x7E; Idle; Rx 0x22; Rx 0x7E; Rx 0x33])%nat.
Proof.
  split; [reflexivity |].
  apply (@read_frame_captures_flag_delimited
           [Rx 0x11; Rx 0x7E; Idle; Rx 0x22; Rx 0x7E; Rx 0x33]
           [Rx 0x33] [0x7E; 0x22; 0x7E]).
  reflexivity.
Defined.

(** X5: the value returned by [llread] is -1 or a payload length between
    0 and 2043. *)
Theorem llread_return_bounds :
  forall (packet : list Z) (l : link) (ret : Z) (packet' : list Z) (l' : link),
    llread packet l = (Returned ret, packet', l') ->
    ret = -1 \/ 0 <= ret <= 2043.
Proof.
  intros packet l ret packet' l'. unfold llread.
  destruct (read_frame false [] (rx l)) as [[frame tr] |] eqn:Hrf;
    [| discriminate].
  intro Hr.
  destruct (read_frame_inv (rx l) false [] I Hrf) as (body & _ & _ & Hlen & _).
  destruct (llread_frame_spec frame packet (with_rx tr l))
    as [(Ho & _) | (payload & Ho & _ & _ & _ & Hd)];
    rewrite Hr in Ho; cbn [fst] in Ho; injection Ho as ->; [now left |].
  right.
  pose proof (@destuffData_length_le_strong
                (length (firstn (length frame - 5) (skipn 4 frame)))
                (firstn (length frame - 5) (skipn 4 frame)) (le_n _)) as Hle.
  rewrite Hd, length_app, length_firstn in Hle. cbn [length] in Hle. lia.
Qed.

Lemma llread_return_bounds_witness :
  llread [0x00; 0x00; 0x00]
    (link_init (map Rx [0x7E; 0x03; 0x00; 0x03; 0x48; 0x69; 0x21; 0x7E]))
    = (Returned 2, [0x48; 0x69; 0x00],
       mkLink 0 1 [] [[0x7E; 0x01; 0x85; 0x84; 0x7E]])
  /\ (2 = -1 \/ 0 <= 2 <= 2043).
Proof.
  split; [reflexivity |].
  apply (@llread_return_bounds
           [0x00; 0x00; 0x00]
           (link_init (map Rx [0x7E; 0x03; 0x00; 0x03; 0x48; 0x69; 0x21; 0x7E]))
           2 [0x48; 0x69; 0x00]
           (mkLink 0 1 [] [[0x7E; 0x01; 0x85; 0x84; 0x7E]])).
  reflexivity.
Defined.

(** X6: a captured frame of fewer than five bytes, or one whose fourth byte
    is not the XOR of its second and third, makes [llread] write the REJ
    frame for the expected bit and return -1, with the caller's buffer and
    both sequence bits unchanged. *)
Theorem llread_rejects_short_or_bad_header :
  forall (packet : list Z) (l : link) (frame : list Z) (tr : list event),
    read_frame false [] (rx l) = Some (frame, tr) ->
    (length frame < 5)%nat
    \/ Z.lxor (nth 1 frame 0) (nth 2 frame 0) <> nth 3 frame 0 ->
    llread packet l
    = (Returned (-1), packet,
       mkLink (sequenceNumber l) (expectedSeq l) tr
              (tx l ++ [reply_frame (rej_for (expectedSeq l))])).
Proof.
  intros packet l frame tr Hrf Hbad.
  unfold llread. rewrite Hrf. unfold llread_frame, send_rej.
  fold (rej_for (expectedSeq (with_rx tr l))).
  destruct (Z.of_nat (length frame) <? 5) eqn:Hlen; [reflexivity |].
  apply Z.ltb_ge in Hlen.
  destruct Hbad as [Hshort | Hbcc]; [lia |].
  apply Z.eqb_neq in Hbcc. rewrite Hbcc. reflexivity.
Qed.

(** Two adjacent flags are a two-byte frame. *)
Lemma llread_rejects_short_or_bad_header_witness :
  let l := mkLink 0 1 [Rx 0x7E; Rx 0x7E; Rx 0x03] [] in
  read_frame false [] (rx l) = Some ([0x7E; 0x7E], [Rx 0x03])
  /\ llread [0xAA] l
     = (Returned (-1), [0xAA],
        mkLink 0 1 [Rx 0x03] ([] ++ [[0x7E; 0x01; 0x81; 0x80; 0x7E]])).
Proof.
  cbv zeta. split; [reflexivity |].
  apply (@llread_rejects_short_or_bad_header
           [0xAA] (mkLink 0 1 [Rx 0x7E; Rx 0x7E; Rx 0x03] [])
           [0x7E; 0x7E] [Rx 0x03]).
  - reflexivity.
  - left. cbn. lia.
Defined.

(* ------------------------------------------------------------------ *)
(** ** Retransmission in llwrite *)

(** The retransmission loop after [k] waits that each ended with the alarm
    or with the REJ: [k] frames are out, [remaining] attempts are left. *)
Lemma llwrite_loop_failed_waits (k : nat) :
  forall (remaining : nat) (buf : list Z) (l : link) (tr' : list event),
    failed_waits (sequenceNumber l) k (rx l) = Some tr' ->
    llwrite_loop (k + remaining) buf l
    = llwrite_loop remaining buf
        (mkLink (sequenceNumber l) (expectedSeq l) tr'
                (tx l ++ repeat (build_iframe (sequenceNumber l) buf) k)).
Proof.
  induction k as [| k IH]; intros remaining buf l tr' Hfw.
  - cbn in Hfw. injection Hfw as <-. cbn. rewrite app_nil_r. now destruct l.
  - cbn [failed_waits] in Hfw. cbn [Nat.add llwrite_loop].
    cbn [writeBytesSerialPort rx].
    destruct (wait_ack (sequenceNumber l) ack_init (rx l)) as [[rc | |] tr];
      try discriminate.
    + destruct (rc =? expected_rr (sequenceNumber l)); [discriminate |].
      rewrite (IH remaining buf _ tr');
        cbn [with_rx writeBytesSerialPort sequenceNumber expectedSeq rx tx];
        [| exact Hfw].
      rewrite <- app_assoc. reflexivity.
    + rewrite (IH remaining buf _ tr');
        cbn [with_rx writeBytesSerialPort sequenceNumber expectedSeq rx tx];
        [| exact Hfw].
      rewrite <- app_assoc. reflexivity.
Qed.

(** X7: if fewer than [N] waits fail, by timeout or by a REJ, and the next
    wait receives the RR for the next sequence, [llwrite] returns the
    payload length after one transmission per failed wait plus one, and
    flips the sender bit. *)
Theorem llwrite_succeeds_after_failed_waits :
  forall (N k : nat) (buf : list Z) (l : link) (tr' rest : list event),
    (k < N)%nat ->
    failed_waits (sequenceNumber l) k (rx l) = Some tr' ->
    wait_ack (sequenceNumber l) ack_init tr'
      = (Acked (expected_rr (sequenceNumber l)), rest) ->
    llwrite_with N buf l
    = (Returned (Z.of_nat (length buf)),
       mkLink (Z.lxor (sequenceNumber l) 1) (expectedSeq l) rest
              (tx l ++ repeat (build_iframe (sequenceNumber l) buf) (S k))).
Proof.
  intros N k buf l tr' rest Hk Hfw Hack. unfold llwrite_with.
  replace N with (k + S (N - S k))%nat by lia.
  rewrite (llwrite_loop_failed_waits k (S (N - S k)) buf l Hfw).
  cbn [llwrite_loop writeBytesSerialPort rx sequenceNumber].
  rewrite Hack, Z.eqb_refl.
  unfold with_sequenceNumber, with_rx, writeBytesSerialPort.
  cbn [sequenceNumber expectedSeq rx tx].
  rewrite <- app_assoc.
  replace (repeat (build_iframe (sequenceNumber l) buf) k
           ++ [build_iframe (sequenceNumber l) buf])
    with (repeat (build_iframe (sequenceNumber l) buf) (S k)); [reflexivity |].
  rewrite <- (Nat.add_1_r k), repeat_app. reflexivity.
Qed.

(** A timeout, then a REJ0, then RR1. *)
Lemma llwrite_succeeds_after_failed_waits_witness :
  let l := link_init ([Alarm] ++ map Rx (reply_frame C_REJ0)
                      ++ map Rx (reply_frame C_RR1) ++ [Idle]) in
  failed_waits (sequenceNumber l) 2 (rx l)
    = Some (map Rx (reply_frame C_RR1) ++ [Idle])
  /\ llwrite [0x48; 0x69] l
     = (Returned 2,
        mkLink 1 0 [Idle]
               ([] ++ repeat [0x7E; 0x03; 0x00; 0x03; 0x48; 0x69; 0x21; 0x7E] 3)).
Proof.
  cbv zeta. split; [reflexivity |].
  apply (@llwrite_succeeds_after_failed_waits MAX_RETRIES 2 [0x48; 0x69]
           (link_init ([Alarm] ++ map Rx (reply_frame C_REJ0)
                       ++ map Rx (reply_frame C_RR1) ++ [Idle]))
           (map Rx (reply_frame C_RR1) ++ [Idle]) [Idle]).
  - unfold MAX_RETRIES. lia.
  - reflexivity.
  - reflexivity.
Defined.

(** X8: a REJ counts as a failed attempt like a timeout: after [N] waits
    that each end with the alarm or with a REJ, [llwrite] returns -1 having
    sent the frame [N] times, and the sender bit is unchanged. *)
Theorem llwrite_counts_rej_as_retry :
  forall (N : nat) (buf : list Z) (l : link) (rest : list event),
    failed_waits (sequenceNumber l) N (rx l) = Some rest ->
    llwrite_with N buf l
    = (Returned (-1),
       mkLink (sequenceNumber l) (expectedSeq l) rest
              (tx l ++ repeat (build_iframe (sequenceNumber l) buf) N)).
Proof.
  intros N buf l rest Hfw. unfold llwrite_with.
  replace N with (N + 0)%nat at 1 by lia.
  rewrite (llwrite_loop_failed_waits N 0 buf l Hfw). reflexivity.
Qed.

(** Three REJ0 frames in a row. *)
Lemma llwrite_counts_rej_as_retry_witness :
  let l := link_init (map Rx (reply_frame C_REJ0 ++ reply_frame C_REJ0
                              ++ reply_frame C_REJ0)) in
  failed_waits (sequenceNumber l) MAX_RETRIES (rx l) = Some []
  /\ llwrite [0x48; 0x69] l
     = (Returned (-1),
        mkLink 0 0 []
               ([] ++ repeat (build_iframe 0 [0x48; 0x69]) MAX_RETRIES)).
Proof.
  cbv zeta. split; [reflexivity |].
  apply (@llwrite_counts_rej_as_retry MAX_RETRIES [0x48; 0x69]
           (link_init (map Rx (reply_frame C_REJ0 ++ reply_frame C_REJ0
                               ++ reply_frame C_REJ0))) []).
  reflexivity.
Defined.

(* ------------------------------------------------------------------ *)
(** ** The acknowledgment wait of llwrite *)

Lemma ack_step_inv (sn : Z) (s : ack_sm) (byte : Z) :
  ackReceived s = false ->
  (state s = 3%nat \/ state s = 4%nat ->
   receivedControl s = expected_rr sn \/ receivedControl s = expected_rej sn) ->
  let s' := ack_step sn s byte in
  (ackReceived s' = true ->
   receivedControl s' = expected_rr sn \/ receivedControl s' = expected_rej sn)
  /\ (state s' = 3%nat \/ state s' = 4%nat ->
      receivedControl s' = expected_rr sn
      \/ receivedControl s' = expected_rej sn).
Proof.
  destruct s as [st rc ack]. cbn [ackReceived state receivedControl].
  intros -> Hinv. unfold ack_step. cbn [state receivedControl ackReceived].
  destruct st as [| [| [| [| [| st]]]]].
  - destruct (byte =? FLAG); cbn; split; intros; try discriminate;
      intuition discriminate.
  - destruct (byte =? A_RECEIVER); [| destruct (negb (byte =? FLAG))];
      cbn; split; intros; try discriminate; intuition discriminate.
  - destruct (byte =? expected_rr sn) eqn:Hrr;
      [apply Z.eqb_eq in Hrr; cbn; split; intros; try discriminate; auto |].
    destruct (byte =? expected_rej sn) eqn:Hrej;
      [apply Z.eqb_eq in Hrej; cbn; split; intros; try discriminate; auto |].
    destruct (byte =? FLAG); cbn; split; intros; try discriminate;
      intuition discriminate.
  - assert (Hrc : rc = expected_rr sn \/ rc = expected_rej sn)
      by (apply Hinv; now left).
    destruct (byte =? Z.lxor A_RECEIVER rc); [| destruct (byte =? FLAG)];
      cbn; split; intros; try discriminate; try exact Hrc;
      intuition discriminate.
  - assert (Hrc : rc = expected_rr sn \/ rc = expected_rej sn)
      by (apply Hinv; now right).
    destruct (byte =? FLAG); cbn; split; intros; try discriminate;
      try exact Hrc; intuition discriminate.
  - cbn. split; intros; try discriminate. intuition discriminate.
Qed.

Lemma wait_ack_inv (sn : Z) (tr : list event) :
  forall (s : ack_sm) (rc : Z) (rest : list event),
    ackReceived s = false ->
    (state s = 3%nat \/ state s = 4%nat ->
     receivedControl s = expected_rr sn \/ receivedControl s = expected_rej sn) ->
    wait_ack sn s tr = (Acked rc, rest) ->
    rc = expected_rr sn \/ rc = expected_rej sn.
Proof.
  induction tr as [| e tr IH]; intros s rc rest Hack Hinv Hw; [discriminate |].
  destruct e as [byte | |]; cbn [wait_ack] in Hw;
    [| now apply (IH s rc rest) | discriminate].
  destruct (ack_step_inv sn s byte Hack Hinv) as [Hdone Hnext].
  cbv zeta in Hdone, Hnext.
  destruct (ackReceived (ack_step sn s byte)) eqn:Hs'.
  - injection Hw as <- <-. now apply Hdone.
  - now apply (IH (ack_step sn s byte) rc rest).
Qed.

(** X9: when the acknowledgment wait of [llwrite] is left with a frame, the
    control byte it reports is the RR for the next sequence or the REJ for
    the current one, whatever bytes arrived. *)
Theorem wait_ack_reports_rr_or_rej :
  forall (sn : Z) (tr rest : list event) (rc : Z),
    wait_ack sn ack_init tr = (Acked rc, rest) ->
    rc = expected_rr sn \/ rc = expected_rej sn.
Proof.
  intros sn tr rest rc Hw.
  apply (@wait_ack_inv sn tr ack_init rc rest); [reflexivity | | exact Hw].
  cbn. intros [H | H]; discriminate.
Qed.

(** An RR0 that reaches a sender holding bit 0 is not reported; the REJ0
    after it is. *)
Lemma wait_ack_reports_rr_or_rej_witness :
  wait_ack 0 ack_init (map Rx (reply_frame C_RR0 ++ reply_frame C_REJ0))
    = (Acked C_REJ0, [])
  /\ (C_REJ0 = expected_rr 0 \/ C_REJ0 = expected_rej 0).
Proof.
  split; [reflexivity |].
  apply (@wait_ack_reports_rr_or_rej 0
           (map Rx (reply_frame C_RR0 ++ reply_frame C_REJ0)) [] C_REJ0).
  reflexivity.
Defined.

Lemma wait_ack_skips_quiet (sn : Z) (junk tr : list event) :
  forallb quiet junk = true ->
  wait_ack sn ack_init (junk ++ tr) = wait_ack sn ack_init tr.
Proof.
  induction junk as [| e junk IH]; intro Hq; [reflexivity |].
  cbn [forallb] in Hq. apply andb_prop in Hq. destruct Hq as [He Hq].
  destruct e as [b | |]; cbn [app wait_ack]; [| now apply IH | discriminate].
  cbn [quiet] in He. apply negb_true_iff in He.
  unfold ack_step. cbn [state ack_init]. rewrite He.
  cbn [ackReceived ack_init]. now apply IH.
Qed.

Lemma wait_ack_rx (sn : Z) (s : ack_sm) (b : Z) (tr : list event) :
  wait_ack sn s (Rx b :: tr)
  = if ackReceived (ack_step sn s b)
    then (Acked (receivedControl (ack_step sn s b)), tr)
    else wait_ack sn (ack_step sn s b) tr.
Proof. reflexivity. Qed.

Lemma wait_ack_reply (sn c : Z) (rest : list event) :
  c = expected_rr sn \/ c = expected_rej sn ->
  wait_ack sn ack_init (map Rx (reply_frame c) ++ rest) = (Acked c, rest).
Proof.
  intro Hc.
  assert (H3 : ack_step sn (mkAck 2 0 false) c = mkAck 3 c false).
  { unfold ack_step. cbn [state ackReceived].
    destruct Hc as [-> | ->]; [now rewrite Z.eqb_refl |].
    rewrite Z.eqb_refl. now destruct (expected_rej sn =? expected_rr sn). }
  assert (Hbcc : to_uchar (Z.lxor A_RECEIVER c) = Z.lxor A_RECEIVER c).
  { unfold expected_rr, expected_rej in Hc.
    destruct (sn =? 0); destruct Hc as [-> | ->]; reflexivity. }
  assert (H4 : ack_step sn (mkAck 3 c false) (Z.lxor A_RECEIVER c)
               = mkAck 4 c false).
  { unfold ack_step. cbn [state receivedControl ackReceived].
    now rewrite Z.eqb_refl. }
  unfold reply_frame. cbn [map app].
  rewrite wait_ack_rx.
  change (ack_step sn ack_init FLAG) with (mkAck 1 0 false).
  cbn [ackReceived].
  rewrite wait_ack_rx.
  change (ack_step sn (mkAck 1 0 false) A_RECEIVER) with (mkAck 2 0 false).
  cbn [ackReceived].
  rewrite wait_ack_rx, H3. cbn [ackReceived].
  rewrite wait_ack_rx, Hbcc, H4. cbn [ackReceived].
  rewrite wait_ack_rx.
  change (ack_step sn (mkAck 4 c false) FLAG) with (mkAck 4 c true).
  reflexivity.
Qed.

(** X10: bytes other than the flag and idle reads that precede a reply do
    not disturb the wait: the RR for the next sequence, or the REJ for the
    current one, is reported and the events after it are left unread. *)
Theorem wait_ack_accepts_reply_after_junk :
  forall (sn c : Z) (junk rest : list event),
    forallb quiet junk = true ->
    c = expected_rr sn \/ c = expected_rej sn ->
    wait_ack sn ack_init (junk ++ map Rx (reply_frame c) ++ rest)
    = (Acked c, rest).
Proof.
  intros sn c junk rest Hq Hc.
  rewrite wait_ack_skips_quiet by exact Hq. now apply wait_ack_reply.
Qed.

Lemma wait_ack_accepts_reply_after_junk_witness :
  forallb quiet [Rx 0x01; Idle; Rx 0x85; Rx 0x84] = true
  /\ wait_ack 1 ack_init
       ([Rx 0x01; Idle; Rx 0x85; Rx 0x84] ++ map Rx (reply_frame C_RR0)
        ++ [Alarm])
     = (Acked C_RR0, [Alarm]).
Proof.
  split; [reflexivity |].
  apply (@wait_ack_accepts_reply_after_junk 1 C_RR0
           [Rx 0x01; Idle; Rx 0x85; Rx 0x84] [Alarm]).
  - reflexivity.
  - left. reflexivity.
Defined.

(* ------------------------------------------------------------------ *)
(** ** One frame across the link *)

(** X11: a sender holding bit [s] and a receiver expecting [s] agree on one
    exchange.  Given the receiver's reply the sender returns the payload
    length after writing one frame and flips its bit; given that frame the
    receiver delivers the payload, flips its bit, and writes exactly the
    reply the sender consumed. *)
Theorem llwrite_llread_exchange :
  forall (buf packet : list Z) (l_tx l_rx : link)
         (rest_tx rest_rx : list event),
    is_bit (sequenceNumber l_tx) ->
    expectedSeq l_rx = sequenceNumber l_tx ->
    (length (build_iframe (sequenceNumber l_tx) buf) <= 2048)%nat ->
    rx l_tx = map Rx (reply_frame (rr_for (expectedSeq l_rx))) ++ rest_tx ->
    rx l_rx = map Rx (build_iframe (sequenceNumber l_tx) buf) ++ rest_rx ->
    llwrite buf l_tx
    = (Returned (Z.of_nat (length buf)),
       mkLink (1 - sequenceNumber l_tx) (expectedSeq l_tx) rest_tx
              (tx l_tx ++ [build_iframe (sequenceNumber l_tx) buf]))
    /\ llread packet l_rx
       = (Returned (Z.of_nat (length buf)),
          buf ++ skipn (length buf) packet,
          mkLink (sequenceNumber l_rx) (1 - expectedSeq l_rx) rest_rx
                 (tx l_rx ++ [reply_frame (rr_for (expectedSeq l_rx))])).
Proof.
  intros buf packet l_tx l_rx rest_tx rest_rx Hbit Hseq Hlen Htx Hrx.
  split.
  - unfold llwrite, llwrite_with, MAX_RETRIES.
    cbn [llwrite_loop writeBytesSerialPort rx].
    rewrite Htx, Hseq.
    change (rr_for (sequenceNumber l_tx)) with (expected_rr (sequenceNumber l_tx)).
    rewrite wait_ack_reply by now left.
    rewrite Z.eqb_refl.
    unfold with_sequenceNumber, with_rx.
    cbn [sequenceNumber expectedSeq rx tx].
    destruct (lxor_bit Hbit) as [-> _]. reflexivity.
  - apply (@llread_accepts_iframe buf [] packet l_rx rest_rx).
    + rewrite Hseq. exact Hbit.
    + intros [].
    + rewrite Hseq. exact Hlen.
    + rewrite Hseq. exact Hrx.
Qed.

(** "Hi" from a sender and a receiver that both hold bit 1. *)
Lemma llwrite_llread_exchange_witness :
  let l_tx := mkLink 1 0 (map Rx (reply_frame C_RR0) ++ [Idle]) [] in
  let l_rx := mkLink 0 1 (map Rx (build_iframe 1 [0x48; 0x69])) [] in
  is_bit (sequenceNumber l_tx)
  /\ llwrite [0x48; 0x69] l_tx
     = (Returned 2,
        mkLink 0 0 [Idle] ([] ++ [[0x7E; 0x03; 0x40; 0x43; 0x48; 0x69; 0x21; 0x7E]]))
  /\ llread [0x00; 0x00; 0x00] l_rx
     = (Returned 2, [0x48; 0x69; 0x00],
        mkLink 0 0 [] ([] ++ [[0x7E; 0x01; 0x05; 0x04; 0x7E]])).
Proof.
  cbv zeta.
  assert (Hb : is_bit (sequenceNumber
            (mkLink 1 0 (map Rx (reply_frame C_RR0) ++ [Idle]) [])))
    by (right; reflexivity).
  split; [exact Hb |].
  apply (@llwrite_llread_exchange [0x48; 0x69] [0x00; 0x00; 0x00]
           (mkLink 1 0 (map Rx (reply_frame C_RR0) ++ [Idle]) [])
           (mkLink 0 1 (map Rx (build_iframe 1 [0x48; 0x69])) [])
           [Idle] [] Hb).
  - reflexivity.
  - cbn. lia.
  - reflexivity.
  - cbn. reflexivity.
Defined.

(* ------------------------------------------------------------------ *)
(** ** Waiting for a supervision frame *)

Lemma sup_frame_plain (A C : Z) :
  is_uchar A -> is_uchar C -> sup_frame A C = [FLAG; A; C; Z.lxor A C; FLAG].
Proof.
  intros HA HC. unfold sup_frame.
  rewrite to_uchar_id by now apply lxor_uchar. reflexivity.
Qed.

(** After the opening flag, the rest of the awaited frame is accepted. *)
Lemma wait_sup_after_flag (timed : bool) (A C : Z) (rest : list event) :
  wait_sup timed A C 1 (map Rx [A; C; Z.lxor A C; FLAG] ++ rest)
  = (Accepted, rest).
Proof.
  cbn [map app wait_sup]. unfold sup_step. now rewrite !Z.eqb_refl.
Qed.

(** A flag leads to state 1 unless it completes a frame. *)
Lemma sup_step_flag (A C : Z) (state : nat) :
  A <> FLAG -> C <> FLAG -> Z.lxor A C <> FLAG -> (state <= 4)%nat ->
  sup_step A C state FLAG = (if Nat.eqb state 4 then None else Some 1%nat).
Proof.
  intros HA HC HX Hs.
  assert (EA : (FLAG =? A) = false) by (apply Z.eqb_neq; congruence).
  assert (EC : (FLAG =? C) = false) by (apply Z.eqb_neq; congruence).
  assert (EX : (FLAG =? Z.lxor A C) = false) by (apply Z.eqb_neq; congruence).
  unfold sup_step.
  destruct state as [| [| [| [| [| ?]]]]]; [| | | | | lia];
    rewrite ?EA, ?EC, ?EX, ?Z.eqb_refl; reflexivity.
Qed.

(** Flag-free bytes and idle reads before the frame leave it to be accepted
    exactly at its closing flag. *)
Lemma wait_sup_after_quiet (timed : bool) (A C : Z) (junk : list event)
  (rest : list event) :
  forallb quiet junk = true ->
  wait_sup timed A C 0 (junk ++ map Rx [FLAG; A; C; Z.lxor A C; FLAG] ++ rest)
  = (Accepted, rest).
Proof.
  induction junk as [| e junk IH]; intro Hq.
  - cbn [app map wait_sup]. unfold sup_step at 1. rewrite Z.eqb_refl.
    apply (wait_sup_after_flag timed A C rest).
  - cbn [forallb] in Hq. apply andb_prop in Hq. destruct Hq as [He Hq].
    destruct e as [b | |]; cbn [app wait_sup]; [| now apply IH | discriminate].
    cbn [quiet] in He. apply negb_true_iff in He.
    unfold sup_step at 1. rewrite He. now apply IH.
Qed.

Lemma occurs_unfold (p l : list Z) :
  occurs p l
  = is_prefix p l
    || match l with
       | [] => false
       | _ :: l' => occurs p l'
       end.
Proof. destruct l; reflexivity. Qed.

Lemma is_prefix_app (p s : list Z) : is_prefix p (p ++ s) = true.
Proof.
  induction p as [| a p IH]; [reflexivity |].
  cbn [app is_prefix]. now rewrite Z.eqb_refl, IH.
Qed.

Lemma occurs_app (p q s : list Z) : occurs p (q ++ p ++ s) = true.
Proof.
  induction q as [| a q IH].
  - cbn [app]. now rewrite occurs_unfold, is_prefix_app.
  - cbn [app]. rewrite occurs_unfold, IH. apply orb_true_r.
Qed.

(** One byte of a wait for the frame [A], [C]: the state counts how many
    bytes of the frame the bytes read so far end in, and the loop is left
    exactly when they end in the whole frame. *)
Lemma sup_step_tail (A C : Z) (state : nat) (b : Z) (seen : list Z) :
  (state <= 4)%nat ->
  (exists p, seen = p ++ firstn state [FLAG; A; C; Z.lxor A C; FLAG]) ->
  match sup_step A C state b with
  | None => exists p, seen ++ [b] = p ++ [FLAG; A; C; Z.lxor A C; FLAG]
  | Some state' =>
      (state' <= 4)%nat
      /\ exists p,
           seen ++ [b] = p ++ firstn state' [FLAG; A; C; Z.lxor A C; FLAG]
  end.
Proof.
  intros Hs [p Hp].
  assert (Hflag : (4 >= 1)%nat
                  /\ exists q, seen ++ [FLAG]
                               = q ++ firstn 1 [FLAG; A; C; Z.lxor A C; FLAG])
    by (split; [lia | now exists seen]).
  assert (Hzero : forall x, (0 <= 4)%nat
                  /\ exists q, seen ++ [x]
                               = q ++ firstn 0 [FLAG; A; C; Z.lxor A C; FLAG])
    by (intro x; split; [lia | exists (seen ++ [x]); cbn [firstn];
                               now rewrite app_nil_r]).
  assert (Hnext : forall bs x, seen = p ++ bs ->
                    seen ++ [x] = p ++ bs ++ [x])
    by (intros bs x ->; now rewrite <- app_assoc).
  unfold sup_step.
  destruct state as [| [| [| [| [| ?]]]]]; [| | | | | lia];
    cbn [firstn] in Hp.
  - destruct (b =? FLAG) eqn:EF; [| apply Hzero].
    apply Z.eqb_eq in EF. subst b. split; [lia | apply Hflag].
  - destruct (b =? A) eqn:EA.
    + apply Z.eqb_eq in EA. subst b.
      split; [lia | exists p; exact (Hnext [FLAG] A Hp)].
    + destruct (b =? FLAG) eqn:EF; cbn [negb]; [| apply Hzero].
      apply Z.eqb_eq in EF. subst b. split; [lia | apply Hflag].
  - destruct (b =? C) eqn:EC.
    + apply Z.eqb_eq in EC. subst b.
      split; [lia | exists p; exact (Hnext [FLAG; A] C Hp)].
    + destruct (b =? FLAG) eqn:EF; [| apply Hzero].
      apply Z.eqb_eq in EF. subst b. split; [lia | apply Hflag].
  - destruct (b =? Z.lxor A C) eqn:EX.
    + apply Z.eqb_eq in EX. subst b.
      split; [lia | exists p; exact (Hnext [FLAG; A; C] (Z.lxor A C) Hp)].
    + destruct (b =? FLAG) eqn:EF; [| apply Hzero].
      apply Z.eqb_eq in EF. subst b. split; [lia | apply Hflag].
  - destruct (b =? FLAG) eqn:EF; [| apply Hzero].
    apply Z.eqb_eq in EF. subst b.
    exists p. exact (Hnext [FLAG; A; C; Z.lxor A C] FLAG Hp).
Qed.

(** A wait without time limit is left exactly at the closing flag of the
    first occurrence of the awaited frame, whatever bytes, idle reads and
    alarms come before it. *)
Lemma wait_sup_first_frame (A C : Z) (junk : list event) :
  forall (state : nat) (seen : list Z) (rest : list event),
    A <> FLAG -> C <> FLAG -> Z.lxor A C <> FLAG ->
    (state <= 4)%nat ->
    (exists p, seen = p ++ firstn state [FLAG; A; C; Z.lxor A C; FLAG]) ->
    occurs [FLAG; A; C; Z.lxor A C; FLAG]
           (seen ++ rx_bytes junk ++ [FLAG; A; C; Z.lxor A C]) = false ->
    wait_sup false A C state
      (junk ++ map Rx [FLAG; A; C; Z.lxor A C; FLAG] ++ rest)
    = (Accepted, rest).
Proof.
  induction junk as [| e junk IH];
    intros state seen rest HA HC HX Hs Hseen Hocc.
  - cbn [app map wait_sup]. rewrite sup_step_flag by assumption.
    destruct (Nat.eqb state 4) eqn:E4.
    + exfalso. apply Nat.eqb_eq in E4. subst state.
      destruct Hseen as [p ->]. cbn [firstn rx_bytes flat_map app] in Hocc.
      replace ((p ++ [FLAG; A; C; Z.lxor A C]) ++ [FLAG; A; C; Z.lxor A C])
        with (p ++ [FLAG; A; C; Z.lxor A C; FLAG] ++ [A; C; Z.lxor A C])
        in Hocc by (now rewrite <- app_assoc).
      rewrite occurs_app in Hocc. discriminate.
    + apply (wait_sup_after_flag false A C rest).
  - destruct e as [b | |]; cbn [app wait_sup];
      [| now apply (IH state seen) | now apply (IH state seen)].
    pose proof (@sup_step_tail A C state b seen Hs Hseen) as Hstep.
    assert (Hocc' : occurs [FLAG; A; C; Z.lxor A C; FLAG]
                      ((seen ++ [b]) ++ rx_bytes junk
                       ++ [FLAG; A; C; Z.lxor A C]) = false)
      by (rewrite <- app_assoc; exact Hocc).
    destruct (sup_step A C state b) as [state' |].
    + destruct Hstep as [Hs' Hseen']. now apply (IH state' (seen ++ [b])).
    + exfalso. destruct Hstep as [p Hp]. rewrite Hp in Hocc'.
      rewrite <- app_assoc, occurs_app in Hocc'. discriminate.
Qed.

(* ------------------------------------------------------------------ *)
(** ** llopen *)

(** X12: the receiver's [llopen] accepts the first SET frame of its input,
    whatever comes before it: other bytes, flags and partial SET frames
    included, idle reads and alarms, which this wait does not observe.  It
    reads up to the closing flag of that frame and no further, writes the UA
    frame once, returns the descriptor and leaves the port open. *)
Theorem llopen_rx_accepts_set_after_garbage :
  forall (fd : Z) (l : link) (junk rest : list event),
    0 <= fd ->
    rx l = junk ++ map Rx (sup_frame A_SENDER C_SET) ++ rest ->
    occurs (sup_frame A_SENDER C_SET)
           (rx_bytes junk ++ firstn 4 (sup_frame A_SENDER C_SET)) = false ->
    llopen LlRx fd l
    = mkPortResult (Returned fd)
        (mkLink (sequenceNumber l) (expectedSeq l) rest
                (tx l ++ [[0x7E; 0x01; 0x07; 0x06; 0x7E]]))
        false.
Proof.
  intros fd l junk rest Hfd Hrx Hocc.
  unfold llopen.
  destruct (fd <? 0) eqn:Hneg; [apply Z.ltb_lt in Hneg; lia |].
  rewrite Hrx.
  change (sup_frame A_SENDER C_SET)
    with [FLAG; A_SENDER; C_SET; Z.lxor A_SENDER C_SET; FLAG] in *.
  rewrite (@wait_sup_first_frame A_SENDER C_SET junk 0%nat [] rest);
    try (unfold A_SENDER, C_SET, FLAG; cbn; lia); try reflexivity.
  - now exists [].
  - exact Hocc.
Qed.

(** In front of the SET frame: a flag, an alarm, the first three bytes of a
    SET frame, an idle read, a wrong BCC1 and another flag. *)
Lemma llopen_rx_accepts_set_after_garbage_witness :
  let junk := [Rx 0x7E; Alarm; Rx 0x03; Rx 0x03; Idle; Rx 0x55; Rx 0x7E] in
  let l := link_init (junk ++ map Rx (sup_frame A_SENDER C_SET)
                      ++ [Alarm; Rx 0x7E]) in
  0 <= 3
  /\ llopen LlRx 3 l
     = mkPortResult (Returned 3)
         (mkLink 0 0 [Alarm; Rx 0x7E] ([] ++ [[0x7E; 0x01; 0x07; 0x06; 0x7E]]))
         false.
Proof.
  cbv zeta.
  assert (H : 0 <= 3) by lia.
  split; [exact H |].
  apply (@llopen_rx_accepts_set_after_garbage 3
           (link_init ([Rx 0x7E; Alarm; Rx 0x03; Rx 0x03; Idle; Rx 0x55; Rx 0x7E]
                       ++ map Rx (sup_frame A_SENDER C_SET)
                       ++ [Alarm; Rx 0x7E]))
           [Rx 0x7E; Alarm; Rx 0x03; Rx 0x03; Idle; Rx 0x55; Rx 0x7E]
           [Alarm; Rx 0x7E] H).
  - reflexivity.
  - reflexivity.
Defined.

(** The transmitter loop of [llopen] after [k] waits ended by the alarm. *)
Lemma llopen_tx_loop_timeouts (k : nat) :
  forall (remaining : nat) (fd : Z) (l : link) (tr' : list event),
    sup_timeouts A_RECEIVER C_UA k (rx l) = Some tr' ->
    llopen_tx_loop (k + remaining) fd l
    = llopen_tx_loop remaining fd
        (mkLink (sequenceNumber l) (expectedSeq l) tr'
                (tx l ++ repeat (sup_frame A_SENDER C_SET) k)).
Proof.
  induction k as [| k IH]; intros remaining fd l tr' Hto.
  - cbn in Hto. injection Hto as <-. cbn [Nat.add repeat].
    rewrite app_nil_r. now destruct l.
  - cbn [sup_timeouts] in Hto. cbn [Nat.add llopen_tx_loop].
    cbn [writeBytesSerialPort rx].
    destruct (wait_sup true A_RECEIVER C_UA 0 (rx l)) as [[| |] tr];
      try discriminate.
    rewrite (IH remaining fd _ tr');
      cbn [with_rx writeBytesSerialPort sequenceNumber expectedSeq rx tx];
      [| exact Hto].
    rewrite <- app_assoc. reflexivity.
Qed.

(** X13: when fewer than [MAX_RETRIES] waits of the transmitter's [llopen]
    time out and the UA frame then arrives, possibly after flag-free bytes,
    [llopen] returns the descriptor after one SET frame per timed-out wait
    plus one, and leaves the port open. *)
Theorem llopen_tx_retries_until_ua :
  forall (k : nat) (fd : Z) (l : link) (junk rest : list event),
    0 <= fd ->
    (k < MAX_RETRIES)%nat ->
    forallb quiet junk = true ->
    sup_timeouts A_RECEIVER C_UA k (rx l)
      = Some (junk ++ map Rx (sup_frame A_RECEIVER C_UA) ++ rest) ->
    llopen LlTx fd l
    = mkPortResult (Returned fd)
        (mkLink (sequenceNumber l) (expectedSeq l) rest
                (tx l ++ repeat [0x7E; 0x03; 0x03; 0x00; 0x7E] (S k)))
        false.
Proof.
  intros k fd l junk rest Hfd Hk Hq Hto. unfold llopen.
  destruct (fd <? 0) eqn:Hneg; [apply Z.ltb_lt in Hneg; lia |].
  replace MAX_RETRIES with (k + S (MAX_RETRIES - S k))%nat by lia.
  rewrite (llopen_tx_loop_timeouts k (S (MAX_RETRIES - S k)) fd l Hto).
  cbn [llopen_tx_loop writeBytesSerialPort rx].
  change (sup_frame A_RECEIVER C_UA)
    with [FLAG; A_RECEIVER; C_UA; Z.lxor A_RECEIVER C_UA; FLAG].
  rewrite wait_sup_after_quiet by exact Hq.
  unfold with_rx, writeBytesSerialPort.
  cbn [sequenceNumber expectedSeq rx tx].
  rewrite <- app_assoc.
  change [0x7E; 0x03; 0x03; 0x00; 0x7E] with (sup_frame A_SENDER C_SET).
  replace (repeat (sup_frame A_SENDER C_SET) k ++ [sup_frame A_SENDER C_SET])
    with (repeat (sup_frame A_SENDER C_SET) (S k)); [reflexivity |].
  rewrite <- (Nat.add_1_r k), repeat_app. reflexivity.
Qed.

(** One timeout, stray bytes, then the UA. *)
Lemma llopen_tx_retries_until_ua_witness :
  let l := link_init ([Idle; Alarm; Rx 0x01; Idle]
                      ++ map Rx (sup_frame A_RECEIVER C_UA) ++ [Idle]) in
  0 <= 3
  /\ llopen LlTx 3 l
     = mkPortResult (Returned 3)
         (mkLink 0 0 [Idle] ([] ++ repeat [0x7E; 0x03; 0x03; 0x00; 0x7E] 2))
         false.
Proof.
  cbv zeta.
  assert (H : 0 <= 3) by lia.
  split; [exact H |].
  apply (@llopen_tx_retries_until_ua 1 3
           (link_init ([Idle; Alarm; Rx 0x01; Idle]
                       ++ map Rx (sup_frame A_RECEIVER C_UA) ++ [Idle]))
           [Rx 0x01; Idle] [Idle] H).
  - unfold MAX_RETRIES. lia.
  - reflexivity.
  - reflexivity.
Defined.

(** X14: when [MAX_RETRIES] waits of the transmitter's [llopen] time out,
    it has written the SET frame [MAX_RETRIES] times, closes the port and
    returns -1. *)
Theorem llopen_tx_gives_up :
  forall (fd : Z) (l : link) (rest : list event),
    0 <= fd ->
    sup_timeouts A_RECEIVER C_UA MAX_RETRIES (rx l) = Some rest ->
    llopen LlTx fd l
    = mkPortResult (Returned (-1))
        (mkLink (sequenceNumber l) (expectedSeq l) rest
                (tx l ++ repeat [0x7E; 0x03; 0x03; 0x00; 0x7E] MAX_RETRIES))
        true.
Proof.
  intros fd l rest Hfd Hto. unfold llopen.
  destruct (fd <? 0) eqn:Hneg; [apply Z.ltb_lt in Hneg; lia |].
  replace MAX_RETRIES with (MAX_RETRIES + 0)%nat at 1 by lia.
  rewrite (llopen_tx_loop_timeouts MAX_RETRIES 0 fd l Hto). reflexivity.
Qed.

(** A UA with a wrong BCC1 is not accepted. *)
Lemma llopen_tx_gives_up_witness :
  let l := link_init (map Rx [0x7E; 0x01; 0x07; 0x07; 0x7E]
                      ++ [Alarm; Alarm; Alarm]) in
  0 <= 3
  /\ llopen LlTx 3 l
     = mkPortResult (Returned (-1))
         (mkLink 0 0 []
            ([] ++ repeat [0x7E; 0x03; 0x03; 0x00; 0x7E] MAX_RETRIES))
         true.
Proof.
  cbv zeta.
  assert (H : 0 <= 3) by lia.
  split; [exact H |].
  apply (@llopen_tx_gives_up 3
           (link_init (map Rx [0x7E; 0x01; 0x07; 0x07; 0x7E]
                       ++ [Alarm; Alarm; Alarm])) [] H).
  reflexivity.
Defined.

Lemma llopen_tx_loop_closed (remaining : nat) (fd : Z) :
  forall (l : link) (r : Z),
    0 <= fd ->
    pr_outcome (llopen_tx_loop remaining fd l) = Returned r ->
    (r = fd /\ pr_closed (llopen_tx_loop remaining fd l) = false)
    \/ (r = -1 /\ pr_closed (llopen_tx_loop remaining fd l) = true).
Proof.
  induction remaining as [| n IH]; intros l r Hfd Hr.
  - cbn in *. injection Hr as <-. now right.
  - cbn [llopen_tx_loop] in *.
    destruct (wait_sup true A_RECEIVER C_UA 0
                (rx (writeBytesSerialPort (sup_frame A_SENDER C_SET) l)))
      as [[| |] tr].
    + cbn in *. injection Hr as <-. now left.
    + now apply IH.
    + discriminate.
Qed.

(** X15: with a valid descriptor, [llopen] returns either the descriptor,
    leaving the port open, or -1 after closing the port; -1 is returned
    only in the transmitter role. *)
Theorem llopen_closes_port_exactly_on_failure :
  forall (role : LinkLayerRole) (fd : Z) (l : link) (r : Z),
    0 <= fd ->
    pr_outcome (llopen role fd l) = Returned r ->
    (r = fd /\ pr_closed (llopen role fd l) = false)
    \/ (r = -1 /\ role = LlTx /\ pr_closed (llopen role fd l) = true).
Proof.
  intros role fd l r Hfd. unfold llopen.
  destruct (fd <? 0) eqn:Hneg; [apply Z.ltb_lt in Hneg; lia |].
  destruct role.
  - intro Hr. destruct (llopen_tx_loop_closed MAX_RETRIES l Hfd Hr)
      as [[? ?] | [? ?]]; [left | right]; auto.
  - destruct (wait_sup false A_SENDER C_SET 0 (rx l)) as [[| |] tr];
      cbn; intro Hr; try discriminate.
    injection Hr as <-. now left.
Qed.

Lemma llopen_closes_port_exactly_on_failure_witness :
  0 <= 3
  /\ ((-1 = 3 /\ pr_closed (llopen LlTx 3 (link_init [Alarm; Alarm; Alarm]))
                 = false)
      \/ (-1 = -1 /\ LlTx = LlTx
          /\ pr_closed (llopen LlTx 3 (link_init [Alarm; Alarm; Alarm]))
             = true)).
Proof.
  assert (H : 0 <= 3) by lia.
  split; [exact H |].
  apply (@llopen_closes_port_exactly_on_failure LlTx 3
           (link_init [Alarm; Alarm; Alarm]) (-1) H).
  reflexivity.
Defined.

(* ------------------------------------------------------------------ *)
(** ** llclose *)

Lemma llclose_tx_loop_timeouts (k : nat) :
  forall (remaining : nat) (l : link) (tr' : list event),
    sup_timeouts A_RECEIVER C_DISC k (rx l) = Some tr' ->
    llclose_tx_loop (k + remaining) l
    = llclose_tx_loop remaining
        (mkLink (sequenceNumber l) (expectedSeq l) tr'
                (tx l ++ repeat (sup_frame A_SENDER C_DISC) k)).
Proof.
  induction k as [| k IH]; intros remaining l tr' Hto.
  - cbn in Hto. injection Hto as <-. cbn [Nat.add repeat].
    rewrite app_nil_r. now destruct l.
  - cbn [sup_timeouts] in Hto. cbn [Nat.add llclose_tx_loop].
    cbn [writeBytesSerialPort rx].
    destruct (wait_sup true A_RECEIVER C_DISC 0 (rx l)) as [[| |] tr];
      try discriminate.
    rewrite (IH remaining _ tr');
      cbn [with_rx writeBytesSerialPort sequenceNumber expectedSeq rx tx];
      [| exact Hto].
    rewrite <- app_assoc. reflexivity.
Qed.

(** X16: when fewer than [MAX_RETRIES] waits of the transmitter's
    [llclose] time out and the receiver's DISC then arrives, possibly after
    flag-free bytes, [llclose] has written one DISC per timed-out wait plus
    one, writes the final UA with the receiver's address, closes the port
    and returns 0. *)
Theorem llclose_tx_retries_until_disc :
  forall (k : nat) (l : link) (junk rest : list event),
    (k < MAX_RETRIES)%nat ->
    forallb quiet junk = true ->
    sup_timeouts A_RECEIVER C_DISC k (rx l)
      = Some (junk ++ map Rx (sup_frame A_RECEIVER C_DISC) ++ rest) ->
    llclose LlTx l
    = mkPortResult (Returned 0)
        (mkLink (sequenceNumber l) (expectedSeq l) rest
                (tx l ++ repeat [0x7E; 0x03; 0x0B; 0x08; 0x7E] (S k)
                      ++ [[0x7E; 0x01; 0x07; 0x06; 0x7E]]))
        true.
Proof.
  intros k l junk rest Hk Hq Hto. unfold llclose.
  replace MAX_RETRIES with (k + S (MAX_RETRIES - S k))%nat by lia.
  rewrite (llclose_tx_loop_timeouts k (S (MAX_RETRIES - S k)) l Hto).
  cbn [llclose_tx_loop writeBytesSerialPort rx].
  change (sup_frame A_RECEIVER C_DISC)
    with [FLAG; A_RECEIVER; C_DISC; Z.lxor A_RECEIVER C_DISC; FLAG].
  rewrite wait_sup_after_quiet by exact Hq.
  unfold with_rx, writeBytesSerialPort.
  cbn [sequenceNumber expectedSeq rx tx].
  rewrite <- !app_assoc.
  change [0x7E; 0x03; 0x0B; 0x08; 0x7E] with (sup_frame A_SENDER C_DISC).
  replace (repeat (sup_frame A_SENDER C_DISC) (S k))
    with (repeat (sup_frame A_SENDER C_DISC) k ++ [sup_frame A_SENDER C_DISC])
    by (rewrite <- (Nat.add_1_r k), repeat_app; reflexivity).
  rewrite <- app_assoc. reflexivity.
Qed.

Lemma llclose_tx_retries_until_disc_witness :
  let l := mkLink 1 0 ([Alarm; Alarm; Rx 0x00]
                       ++ map Rx (sup_frame A_RECEIVER C_DISC) ++ [Idle]) [] in
  (2 < MAX_RETRIES)%nat
  /\ llclose LlTx l
     = mkPortResult (Returned 0)
         (mkLink 1 0 [Idle]
            ([] ++ repeat [0x7E; 0x03; 0x0B; 0x08; 0x7E] 3
                ++ [[0x7E; 0x01; 0x07; 0x06; 0x7E]]))
         true.
Proof.
  cbv zeta.
  assert (H : (2 < MAX_RETRIES)%nat) by (unfold MAX_RETRIES; lia).
  split; [exact H |].
  apply (@llclose_tx_retries_until_disc 2
           (mkLink 1 0 ([Alarm; Alarm; Rx 0x00]
                        ++ map Rx (sup_frame A_RECEIVER C_DISC) ++ [Idle]) [])
           [Rx 0x00] [Idle] H).
  - reflexivity.
  - reflexivity.
Defined.



Lemma llclose_tx_loop_closed (remaining : nat) :
  forall (l : link) (r : Z),
    pr_outcome (llclose_tx_loop remaining l) = Returned r ->
    pr_closed (llclose_tx_loop remaining l) = true /\ (r = 0 \/ r = -1).
Proof.
  induction remaining as [| n IH]; intros l r Hr.
  - cbn in *. injection Hr as <-. auto.
  - cbn [llclose_tx_loop] in *.
    destruct (wait_sup true A_RECEIVER C_DISC 0
                (rx (writeBytesSerialPort (sup_frame A_SENDER C_DISC) l)))
      as [[| |] tr].
    + cbn in *. injection Hr as <-. auto.
    + now apply IH.
    + discriminate.
Qed.

(** X18: [llclose] never returns without having closed the port; the
    receiver's return value is always 0, the transmitter's is 0 or -1. *)
Theorem llclose_returns_only_after_closing :
  forall (role : LinkLayerRole) (l : link) (r : Z),
    pr_outcome (llclose role l) = Returned r ->
    pr_closed (llclose role l) = true
    /\ (r = 0 \/ (r = -1 /\ role = LlTx)).
Proof.
  intros role l r. unfold llclose. destruct role.
  - intro Hr. destruct (llclose_tx_loop_closed MAX_RETRIES l Hr) as [Hc [? | ?]];
      auto.
  - destruct (wait_sup false A_SENDER C_DISC 0 (rx l)) as [[| |] tr];
      cbn; try discriminate.
    destruct (wait_sup true A_RECEIVER C_UA 0 tr) as [[| |] tr'];
      cbn; intro Hr; try discriminate; injection Hr as <-; auto.
Qed.

Lemma llclose_returns_only_after_closing_witness :
  pr_outcome (llclose LlTx (link_init [Alarm; Alarm; Alarm])) = Returned (-1)
  /\ pr_closed (llclose LlTx (link_init [Alarm; Alarm; Alarm])) = true
  /\ (-1 = 0 \/ (-1 = -1 /\ LlTx = LlTx)).
Proof.
  split; [reflexivity |].
  apply (@llclose_returns_only_after_closing LlTx
           (link_init [Alarm; Alarm; Alarm]) (-1)).
  reflexivity.
Defined.

(* ------------------------------------------------------------------ *)
(** ** Control packets: bounds, truncation, unknown fields *)

(** A header whose declared length runs past the packet ends the parse
    with -1. *)
Lemma parse_loop_overrun (packet : list Z) (packetSize idx fs : Z)
  (name : list Z) (type len : Z) :
  idx < packetSize ->
  byte_at packet idx = Some type ->
  byte_at packet (idx + 1) = Some len ->
  is_uchar len ->
  packetSize < idx + 2 + len ->
  parse_loop packet packetSize idx fs name = Some (-1, fs, name).
Proof.
  intros Hlt Hb1 Hb2 Hl Hover.
  rewrite parse_loop_equation_1.
  destruct (Z_lt_dec idx packetSize) as [? | ?]; [| lia].
  simp parse_loop. rewrite Hb1. simp parse_loop. rewrite Hb2. simp parse_loop.
  destruct (Z_gt_dec (idx + 2 + to_uchar len) packetSize) as [? | ?];
    [| pose proof (to_uchar_id Hl); lia].
  simp parse_loop. reflexivity.
Qed.

(** The parse of a size field followed by a name field, wherever they lie
    in the buffer and whatever follows the packet. *)
Lemma parse_loop_size_name (pre value name post : list Z) (fs0 : Z)
  (name0 : list Z) :
  (length value <= 255)%nat ->
  (length name <= 255)%nat ->
  Forall (fun ch => 0 < ch < 256) name ->
  let packet :=
    pre ++ [TLV_FILE_SIZE; Z.of_nat (length value)] ++ value
        ++ [TLV_FILE_NAME; Z.of_nat (length name)] ++ name ++ post in
  parse_loop packet (Z.of_nat (length packet) - Z.of_nat (length post))
             (Z.of_nat (length pre)) fs0 name0
  = Some (0, read_size fs0 value, name).
Proof.
  intros Hv Hn Hname packet.
  set (n := Z.of_nat (length value)). set (m := Z.of_nat (length name)).
  set (p := Z.of_nat (length pre)).
  assert (Hsize : Z.of_nat (length packet) - Z.of_nat (length post)
                  = p + 4 + n + m).
  { unfold packet, n, m, p.
    repeat (rewrite length_app || cbn [length]). lia. }
  rewrite Hsize.
  assert (E1 : packet
    = pre ++ TLV_FILE_SIZE
        :: ([n] ++ value ++ [TLV_FILE_NAME; m] ++ name ++ post))
    by reflexivity.
  assert (E2 : packet
    = (pre ++ [TLV_FILE_SIZE]) ++ n
        :: (value ++ [TLV_FILE_NAME; m] ++ name ++ post))
    by (unfold packet; rewrite <- app_assoc; reflexivity).
  assert (E3 : packet
    = (pre ++ [TLV_FILE_SIZE; n]) ++ value
        ++ ([TLV_FILE_NAME; m] ++ name ++ post))
    by (unfold packet; rewrite <- app_assoc; reflexivity).
  assert (E4 : packet
    = (pre ++ [TLV_FILE_SIZE; n] ++ value) ++ TLV_FILE_NAME
        :: ([m] ++ name ++ post))
    by (unfold packet; rewrite <- !app_assoc; reflexivity).
  assert (E5 : packet
    = (pre ++ [TLV_FILE_SIZE; n] ++ value ++ [TLV_FILE_NAME]) ++ m
        :: (name ++ post))
    by (unfold packet; rewrite <- !app_assoc; reflexivity).
  assert (E6 : packet
    = (pre ++ [TLV_FILE_SIZE; n] ++ value ++ [TLV_FILE_NAME; m]) ++ name
        ++ post)
    by (unfold packet; rewrite <- !app_assoc; reflexivity).
  clearbody packet.
  rewrite (@parse_loop_tlv packet _ p fs0 name0 TLV_FILE_SIZE n);
    try (unfold is_uchar, TLV_FILE_SIZE, n, m, p; lia).
  2: { rewrite E1. now apply byte_at_app. }
  2: { rewrite E2. apply byte_at_app.
       repeat (rewrite length_app || cbn [length]). unfold p. lia. }
  cbn [Z.eqb TLV_FILE_SIZE].
  rewrite E3 at 2.
  rewrite slice_app;
    [| repeat (rewrite length_app || cbn [length]); unfold p; lia
     | reflexivity].
  rewrite (@parse_loop_tlv packet _ (p + 2 + n) _ name0 TLV_FILE_NAME m);
    try (unfold is_uchar, TLV_FILE_NAME, n, m, p; lia).
  2: { rewrite E4. apply byte_at_app.
       repeat (rewrite length_app || cbn [length]). unfold p, n. lia. }
  2: { rewrite E5. apply byte_at_app.
       repeat (rewrite length_app || cbn [length]). unfold p, n. lia. }
  cbn [Z.eqb TLV_FILE_NAME TLV_FILE_SIZE].
  rewrite E6 at 2.
  rewrite slice_app;
    [| repeat (rewrite length_app || cbn [length]); unfold p, n; lia
     | reflexivity].
  rewrite c_string_nonzero by exact Hname.
  apply parse_loop_end. lia.
Qed.

(** The size loop on any [long]: one to eight bytes. *)
Lemma sizeBytes_loop_length (t : Z) :
  is_long t -> (1 <= length (sizeBytes_loop t) <= 8)%nat.
Proof.
  intro Ht. unfold is_long in Ht. destruct (Z_lt_dec t 0) as [Hneg | Hpos].
  - rewrite sizeBytes_loop_equation_1.
    destruct (Z_lt_dec 0 (Z.shiftr t 8)) as [H | H].
    + exfalso. rewrite Z.shiftr_div_pow2 in H by lia.
      assert (t / 2 ^ 8 < 0) by (apply Z.div_lt_upper_bound; lia). lia.
    + simp sizeBytes_loop. cbn. lia.
  - destruct (@sizeBytes_loop_spec t ltac:(lia)) as (_ & _ & H1 & H8).
    split; [exact H1 |]. apply (H8 7%nat).
    change (256 ^ Z.of_nat 8) with (2 ^ 64). lia.
Qed.

Lemma control_packet_bounds_aux (c fs : Z) (name : list Z) :
  is_long fs ->
  (5 <= length (buildControlPacket c name fs) <= 268)%nat.
Proof.
  intro Hfs. pose proof (sizeBytes_loop_length Hfs) as Hsz.
  unfold buildControlPacket, strlen.
  rewrite !length_app, length_rev, length_firstn. cbn [length].
  destruct (255 <? Z.of_nat (length name)) eqn:H255.
  - change (Z.to_nat 255) with 255%nat. lia.
  - apply Z.ltb_ge in H255. lia.
Qed.

(** X19: for every [long] file size, negative ones included, and every
    file name, the size field of a control packet has between 1 and 8 value
    bytes and the packet has between 5 and 268 bytes, so neither the 8-byte
    [sizeBytes] array nor a 512-byte packet buffer is overrun. *)
Theorem control_packet_size_bounds :
  forall (controlField fileSize : Z) (filename : list Z),
    is_long fileSize ->
    (1 <= length (sizeBytes_loop fileSize) <= 8)%nat
    /\ (5 <= length (buildControlPacket controlField filename fileSize)
        <= 268)%nat.
Proof.
  intros c fs name Hfs.
  pose proof (sizeBytes_loop_length Hfs) as Hsz. split; [exact Hsz |].
  unfold buildControlPacket, strlen.
  rewrite !length_app, length_rev, length_firstn. cbn [length].
  destruct (255 <? Z.of_nat (length name)) eqn:H255.
  - change (Z.to_nat 255) with 255%nat. lia.
  - apply Z.ltb_ge in H255. lia.
Qed.

Lemma control_packet_size_bounds_witness :
  is_long (-1)
  /\ (1 <= length (sizeBytes_loop (-1)) <= 8)%nat
  /\ (5 <= length (buildControlPacket CTRL_START (repeat 0x61%Z 300) (-1))
      <= 268)%nat.
Proof.
  assert (H : is_long (-1)) by (unfold is_long; lia).
  split; [exact H |].
  apply (@control_packet_size_bounds CTRL_START (-1) (repeat 0x61%Z 300) H).
Defined.

(** The layout of a control packet for any [long] size and any name. *)
Lemma buildControlPacket_shape (c fs : Z) (name : list Z) :
  is_long fs ->
  let value := rev (sizeBytes_loop fs) in
  let name' := firstn 255 name in
  buildControlPacket c name fs
  = [c] ++ [TLV_FILE_SIZE; Z.of_nat (length value)] ++ value
        ++ [TLV_FILE_NAME; Z.of_nat (length name')] ++ name'
  /\ (1 <= length value <= 8)%nat
  /\ (length name' <= 255)%nat.
Proof.
  intros Hfs value name'.
  pose proof (sizeBytes_loop_length Hfs) as Hsz.
  assert (Hlv : length value = length (sizeBytes_loop fs))
    by (unfold value; apply length_rev).
  assert (Hln : (length name' <= 255)%nat)
    by (unfold name'; rewrite length_firstn; lia).
  split; [| split; [lia | exact Hln]].
  unfold buildControlPacket, strlen. fold value. rewrite <- Hlv.
  rewrite (to_uchar_id (b := Z.of_nat (length value)))
    by (unfold is_uchar; lia).
  assert (Hname : firstn (Z.to_nat (if 255 <? Z.of_nat (length name)
                                    then 255 else Z.of_nat (length name)))
                         name = name'
                  /\ (if 255 <? Z.of_nat (length name)
                      then 255 else Z.of_nat (length name))
                     = Z.of_nat (length name')).
  { unfold name'. rewrite length_firstn.
    destruct (255 <? Z.of_nat (length name)) eqn:H255.
    - apply Z.ltb_lt in H255. split; [reflexivity | lia].
    - apply Z.ltb_ge in H255. rewrite Nat2Z.id.
      rewrite !firstn_all2 by lia. split; [reflexivity | lia]. }
  destruct Hname as [-> ->].
  rewrite (to_uchar_id (b := Z.of_nat (length name')))
    by (unfold is_uchar; lia).
  reflexivity.
Qed.

Lemma Forall_firstn_nonzero (n : nat) (name : list Z) :
  Forall (fun ch => 0 < ch < 256) name ->
  Forall (fun ch => 0 < ch < 256) (firstn n name).
Proof.
  intro H. revert n. induction H as [| x l Hx _ IH]; intros [| n]; cbn;
    constructor; auto.
Qed.

(** Parsing what was built, with any bytes after the packet in the buffer:
    the size comes back as the value bytes are read, the name cut to 255
    bytes. *)
Lemma parse_built_packet (c fs : Z) (name post : list Z) :
  is_long fs ->
  Forall (fun ch => 0 < ch < 256) name ->
  let packet := buildControlPacket c name fs in
  parseControlPacket (packet ++ post) (Z.of_nat (length packet))
  = Some (0, read_size 0 (rev (sizeBytes_loop fs)), firstn 255 name).
Proof.
  intros Hfs Hname packet.
  destruct (buildControlPacket_shape c name Hfs) as (Hshape & Hv & Hn).
  cbv zeta in Hshape. unfold packet. rewrite Hshape.
  set (value := rev (sizeBytes_loop fs)) in *.
  set (name' := firstn 255 name) in *.
  pose proof (@parse_loop_size_name [c] value name' post 0 []
                ltac:(lia) Hn (Forall_firstn_nonzero 255 Hname)) as Hp.
  cbv zeta in Hp. unfold parseControlPacket.
  rewrite <- !app_assoc.
  replace (Z.of_nat (length ([c] ++ [TLV_FILE_SIZE; Z.of_nat (length value)]
                              ++ value
                              ++ [TLV_FILE_NAME; Z.of_nat (length name')]
                              ++ name')))
    with (Z.of_nat (length ([c] ++ [TLV_FILE_SIZE; Z.of_nat (length value)]
                              ++ value
                              ++ [TLV_FILE_NAME; Z.of_nat (length name')]
                              ++ name' ++ post))
          - Z.of_nat (length post))
    by (repeat (rewrite length_app || cbn [length]); lia).
  exact Hp.
Qed.

(** X20: a file name longer than 255 bytes is cut to its first 255 bytes:
    for every non-negative [long] size and every name without zero bytes,
    parsing the built packet, whatever follows it in the buffer, returns 0
    with the size and the first 255 bytes of the name. *)
Theorem control_packet_name_is_cut_to_255 :
  forall (controlField fileSize : Z) (filename stale : list Z),
    0 <= fileSize < 2 ^ 63 ->
    Forall (fun ch => 0 < ch < 256) filename ->
    let packet := buildControlPacket controlField filename fileSize in
    parseControlPacket (packet ++ stale) (Z.of_nat (length packet))
    = Some (0, fileSize, firstn 255 filename).
Proof.
  intros c fs name stale Hfs Hname packet.
  unfold packet. rewrite parse_built_packet;
    [| unfold is_long; lia | exact Hname].
  destruct (@sizeBytes_loop_spec fs (proj1 Hfs)) as (Hu & Hv & _).
  destruct (read_size_be_value Hu ltac:(lia)) as [-> _]. now rewrite Hv.
Qed.

Lemma control_packet_name_is_cut_to_255_witness :
  0 <= 5 < 2 ^ 63
  /\ parseControlPacket
       (buildControlPacket CTRL_END (repeat 0x61%Z 300) 5 ++ [0x99])
       (Z.of_nat (length (buildControlPacket CTRL_END (repeat 0x61%Z 300) 5)))
     = Some (0, 5, firstn 255 (repeat 0x61%Z 300)).
Proof.
  assert (H : 0 <= 5 < 2 ^ 63) by lia.
  split; [exact H |].
  apply (@control_packet_name_is_cut_to_255 CTRL_END 5 (repeat 0x61%Z 300)
           [0x99] H).
  apply Forall_forall. intros x Hx. apply repeat_spec in Hx. lia.
Defined.

(** X21: a negative file size, as [ftell] returns on failure, is sent as the
    single byte [fileSize mod 256], and the parser reads that byte back as
    the size. *)
Theorem control_packet_negative_size :
  forall (controlField fileSize : Z) (filename : list Z),
    - 2 ^ 63 <= fileSize < 0 ->
    Forall (fun ch => 0 < ch < 256) filename ->
    let packet := buildControlPacket controlField filename fileSize in
    firstn 4 packet = [controlField; TLV_FILE_SIZE; 1; fileSize mod 256]
    /\ parseControlPacket packet (Z.of_nat (length packet))
       = Some (0, fileSize mod 256, firstn 255 filename).
Proof.
  intros c fs name Hfs Hname packet.
  assert (Hl : is_long fs) by (unfold is_long; lia).
  assert (Hsb : sizeBytes_loop fs = [fs mod 256]).
  { rewrite sizeBytes_loop_equation_1.
    destruct (Z_lt_dec 0 (Z.shiftr fs 8)) as [H | H].
    - exfalso. rewrite Z.shiftr_div_pow2 in H by lia.
      assert (fs / 2 ^ 8 < 0) by (apply Z.div_lt_upper_bound; lia). lia.
    - simp sizeBytes_loop. f_equal.
      change 255 with (Z.ones 8). rewrite Z.land_ones by lia.
      change (2 ^ 8) with 256. unfold to_uchar. apply Z.mod_mod. lia. }
  pose proof (Z.mod_pos_bound fs 256 ltac:(lia)) as Hb.
  split.
  - unfold packet, buildControlPacket. rewrite Hsb. reflexivity.
  - pose proof (@parse_built_packet c fs name [] Hl Hname) as Hp.
    cbv zeta in Hp. rewrite app_nil_r in Hp. unfold packet. rewrite Hp.
    rewrite Hsb. cbn [rev app read_size fold_left].
    rewrite Z.shiftl_0_l, Z.lor_0_l, to_long_id by (unfold is_long; lia).
    reflexivity.
Qed.

Lemma control_packet_negative_size_witness :
  - 2 ^ 63 <= -1 < 0
  /\ firstn 4 (buildControlPacket CTRL_START [0x61] (-1))
     = [CTRL_START; TLV_FILE_SIZE; 1; (-1) mod 256]
  /\ parseControlPacket (buildControlPacket CTRL_START [0x61] (-1))
       (Z.of_nat (length (buildControlPacket CTRL_START [0x61] (-1))))
     = Some (0, (-1) mod 256, firstn 255 [0x61]).
Proof.
  assert (H : - 2 ^ 63 <= -1 < 0) by lia.
  split; [exact H |].
  apply (@control_packet_negative_size CTRL_START (-1) [0x61] H).
  repeat constructor; lia.
Defined.

(** X22: a control packet cut short inside its name field is refused: with
    the packet size reduced by [k] bytes, [k] at least 1 and at most the
    length of the name as sent, [parseControlPacket] returns -1, having read
    the file size but no name. *)
Theorem control_packet_cut_short_is_rejected :
  forall (controlField fileSize : Z) (filename : list Z) (k : nat),
    0 <= fileSize < 2 ^ 63 ->
    (1 <= k <= length (firstn 255 filename))%nat ->
    let packet := buildControlPacket controlField filename fileSize in
    parseControlPacket packet (Z.of_nat (length packet) - Z.of_nat k)
    = Some (-1, fileSize, []).
Proof.
  intros c fs name k Hfs Hk packet.
  assert (Hl : is_long fs) by (unfold is_long; lia).
  destruct (buildControlPacket_shape c name Hl) as (Hshape & Hv & Hn).
  cbv zeta in Hshape. unfold packet. rewrite Hshape.
  set (value := rev (sizeBytes_loop fs)) in *.
  set (name' := firstn 255 name) in *.
  set (n := Z.of_nat (length value)). set (m := Z.of_nat (length name')).
  assert (Hsize : Z.of_nat (length ([c] ++ [TLV_FILE_SIZE; n] ++ value
                                      ++ [TLV_FILE_NAME; m] ++ name'))
                  = 5 + n + m)
    by (repeat (rewrite length_app || cbn [length]); unfold n, m; lia).
  rewrite Hsize. unfold parseControlPacket.
  set (pk := [c] ++ [TLV_FILE_SIZE; n] ++ value ++ [TLV_FILE_NAME; m] ++ name').
  assert (E1 : pk = [c] ++ TLV_FILE_SIZE
                 :: ([n] ++ value ++ [TLV_FILE_NAME; m] ++ name'))
    by reflexivity.
  assert (E2 : pk = [c; TLV_FILE_SIZE] ++ n
                 :: (value ++ [TLV_FILE_NAME; m] ++ name'))
    by reflexivity.
  assert (E3 : pk = [c; TLV_FILE_SIZE; n] ++ value
                 ++ ([TLV_FILE_NAME; m] ++ name'))
    by reflexivity.
  assert (E4 : pk = ([c; TLV_FILE_SIZE; n] ++ value) ++ TLV_FILE_NAME
                 :: ([m] ++ name'))
    by reflexivity.
  assert (E5 : pk = ([c; TLV_FILE_SIZE; n] ++ value ++ [TLV_FILE_NAME]) ++ m
                 :: name')
    by (unfold pk; cbn [app]; rewrite <- app_assoc; reflexivity).
  clearbody pk.
  rewrite (@parse_loop_tlv pk _ 1 0 [] TLV_FILE_SIZE n);
    try (unfold is_uchar, TLV_FILE_SIZE, n, m; lia).
  2: { rewrite E1. now apply byte_at_app. }
  2: { rewrite E2. now apply byte_at_app. }
  cbn [Z.eqb TLV_FILE_SIZE].
  rewrite E3 at 2. rewrite slice_app by (cbn [length]; unfold n; lia).
  destruct (@sizeBytes_loop_spec fs (proj1 Hfs)) as (Hu & Hbe & _).
  destruct (read_size_be_value Hu ltac:(lia)) as [Hrs _].
  fold value in Hrs, Hbe. rewrite Hrs, Hbe.
  apply (@parse_loop_overrun pk _ (1 + 2 + n) fs [] TLV_FILE_NAME m);
    try (unfold is_uchar, n, m; lia).
  - rewrite E4. apply byte_at_app.
    repeat (rewrite length_app || cbn [length]). unfold n. lia.
  - rewrite E5. apply byte_at_app.
    repeat (rewrite length_app || cbn [length]). unfold n. lia.
Qed.

Lemma control_packet_cut_short_is_rejected_witness :
  0 <= 0x012345 < 2 ^ 63
  /\ parseControlPacket (buildControlPacket CTRL_START [0x61; 0x62] 0x012345)
       (Z.of_nat (length (buildControlPacket CTRL_START [0x61; 0x62] 0x012345))
        - Z.of_nat 1)
     = Some (-1, 0x012345, []).
Proof.
  assert (H : 0 <= 0x012345 < 2 ^ 63) by lia.
  split; [exact H |].
  apply (@control_packet_cut_short_is_rejected CTRL_START 0x012345
           [0x61; 0x62] 1 H).
  cbn. lia.
Defined.

(** X23: a field of a type other than size and name is skipped: put before
    the size and name fields of a built packet, it does not change what
    [parseControlPacket] returns. *)
Theorem control_packet_unknown_field_is_skipped :
  forall (controlField type fileSize : Z) (value filename : list Z),
    is_uchar type -> type <> TLV_FILE_SIZE -> type <> TLV_FILE_NAME ->
    (length value <= 255)%nat ->
    0 <= fileSize < 2 ^ 63 ->
    Forall (fun ch => 0 < ch < 256) filename ->
    let packet :=
      [controlField; type; Z.of_nat (length value)] ++ value
        ++ tl (buildControlPacket controlField filename fileSize) in
    parseControlPacket packet (Z.of_nat (length packet))
    = Some (0, fileSize, firstn 255 filename).
Proof.
  intros c t fs v name Ht Ht0 Ht1 Hv Hfs Hname packet.
  assert (Hl : is_long fs) by (unfold is_long; lia).
  destruct (buildControlPacket_shape c name Hl) as (Hshape & Hval & Hn).
  cbv zeta in Hshape. unfold packet. rewrite Hshape. cbn [tl app].
  set (value := rev (sizeBytes_loop fs)) in *.
  set (name' := firstn 255 name) in *.
  set (tlvs := TLV_FILE_SIZE :: Z.of_nat (length value)
               :: value ++ TLV_FILE_NAME :: Z.of_nat (length name') :: name').
  assert (Htl : (4 <= length tlvs)%nat)
    by (unfold tlvs; cbn [length]; rewrite length_app; cbn [length]; lia).
  set (pk := c :: t :: Z.of_nat (length v) :: v ++ tlvs).
  assert (Hsize : Z.of_nat (length pk)
                  = 3 + Z.of_nat (length v) + Z.of_nat (length tlvs))
    by (unfold pk; cbn [length]; rewrite length_app; lia).
  unfold parseControlPacket.
  rewrite (@parse_loop_tlv pk _ 1 0 [] t (Z.of_nat (length v)));
    try (unfold is_uchar; lia); try exact Ht.
  2: { apply (@byte_at_app [c]). reflexivity. }
  2: { apply (@byte_at_app [c; t]). reflexivity. }
  apply Z.eqb_neq in Ht0, Ht1. rewrite Ht0, Ht1.
  pose proof (@parse_loop_size_name ([c; t; Z.of_nat (length v)] ++ v)
                value name' [] 0 [] ltac:(lia) Hn
                (Forall_firstn_nonzero 255 Hname)) as Hp.
  cbv zeta in Hp. rewrite app_nil_r in Hp. cbn [length] in Hp.
  rewrite Z.sub_0_r in Hp.
  replace (([c; t; Z.of_nat (length v)] ++ v)
           ++ [TLV_FILE_SIZE; Z.of_nat (length value)] ++ value
           ++ [TLV_FILE_NAME; Z.of_nat (length name')] ++ name')
    with pk in Hp by (unfold pk, tlvs; cbn [app]; reflexivity).
  replace (Z.of_nat (length ([c; t; Z.of_nat (length v)] ++ v)))
    with (1 + 2 + Z.of_nat (length v)) in Hp
    by (rewrite length_app; cbn [length]; lia).
  rewrite Hp.
  destruct (@sizeBytes_loop_spec fs (proj1 Hfs)) as (Hu & Hbe & _).
  destruct (read_size_be_value Hu ltac:(lia)) as [Hrs _].
  fold value in Hrs, Hbe. now rewrite Hrs, Hbe.
Qed.

Lemma control_packet_unknown_field_is_skipped_witness :
  is_uchar 0x07
  /\ parseControlPacket
       ([CTRL_START; 0x07; Z.of_nat (length [0xAA; 0xBB])] ++ [0xAA; 0xBB]
          ++ tl (buildControlPacket CTRL_START [0x61] 260))
       (Z.of_nat (length
          ([CTRL_START; 0x07; Z.of_nat (length [0xAA; 0xBB])] ++ [0xAA; 0xBB]
             ++ tl (buildControlPacket CTRL_START [0x61] 260))))
     = Some (0, 260, firstn 255 [0x61]).
Proof.
  assert (H : is_uchar 0x07) by (unfold is_uchar; lia).
  split; [exact H |].
  apply (@control_packet_unknown_field_is_skipped CTRL_START 0x07 260
           [0xAA; 0xBB] [0x61] H).
  - unfold TLV_FILE_SIZE. lia.
  - unfold TLV_FILE_NAME. lia.
  - cbn. lia.
  - lia.
  - repeat constructor; lia.
Defined.

(* ------------------------------------------------------------------ *)
(** ** Sending a file *)

Lemma flip_n_bit (n : nat) (b : Z) : is_bit b -> is_bit (flip_n n b).
Proof.
  intro Hb. unfold flip_n. destruct (Nat.even n); [exact Hb |].
  apply (lxor_bit Hb).
Qed.

Lemma frames_from_app (ps qs : list (list Z)) :
  forall bit : Z,
    frames_from bit (ps ++ qs)
    = frames_from bit ps ++ frames_from (flip_n (length ps) bit) qs.
Proof.
  induction ps as [| p ps IH]; intro bit; [reflexivity |].
  cbn [app frames_from length]. rewrite IH, flip_n_succ. reflexivity.
Qed.

Lemma replies_from_add (n m : nat) :
  forall bit : Z,
    replies_from bit (n + m)
    = replies_from bit n ++ replies_from (flip_n n bit) m.
Proof.
  induction n as [| n IH]; intro bit; [reflexivity |].
  cbn [Nat.add replies_from app]. rewrite IH, flip_n_succ. reflexivity.
Qed.

Lemma frames_from_length (ps : list (list Z)) :
  forall bit : Z, length (frames_from bit ps) = length ps.
Proof. induction ps as [| p ps IH]; intro bit; cbn; auto. Qed.

Lemma data_packets_length (cs : list (list Z)) :
  forall seq : Z, length (data_packets seq cs) = length cs.
Proof. induction cs as [| c cs IH]; intro seq; cbn; auto. Qed.

(** A write that is acknowledged at once. *)
Lemma llwrite_acked (buf : list Z) (l : link) (rest : list event) :
  is_bit (sequenceNumber l) ->
  rx l = map Rx (reply_frame (rr_for (sequenceNumber l))) ++ rest ->
  llwrite buf l
  = (Returned (Z.of_nat (length buf)),
     mkLink (1 - sequenceNumber l) (expectedSeq l) rest
            (tx l ++ [build_iframe (sequenceNumber l) buf])).
Proof.
  intros Hbit Hrx. unfold llwrite, llwrite_with, MAX_RETRIES.
  cbn [llwrite_loop writeBytesSerialPort rx]. rewrite Hrx.
  change (rr_for (sequenceNumber l)) with (expected_rr (sequenceNumber l)).
  rewrite wait_ack_reply by now left.
  rewrite Z.eqb_refl. unfold with_sequenceNumber, with_rx.
  cbn [sequenceNumber expectedSeq rx tx].
  destruct (lxor_bit Hbit) as [-> _]. reflexivity.
Qed.

Lemma chunks_nil : chunks [] = [].
Proof. reflexivity. Qed.

Lemma chunks_step (file : list Z) :
  file <> [] ->
  chunks file
  = firstn (Z.to_nat MAX_PAYLOAD_SIZE) file
      :: chunks (skipn (Z.to_nat MAX_PAYLOAD_SIZE) file).
Proof.
  intro Hne. rewrite chunks_equation_1.
  destruct (Nat.eq_dec (length file) 0) as [H0 | H0].
  - destruct file; [congruence | discriminate].
  - simp chunks. reflexivity.
Qed.

Lemma send_data_nil (sequenceNum : Z) (l : link) :
  send_data [] sequenceNum l = (None, l).
Proof. reflexivity. Qed.

Lemma send_data_step (file : list Z) (sequenceNum : Z) (l : link) :
  file <> [] ->
  send_data file sequenceNum l
  = match llwrite (buildDataPacket sequenceNum
                     (firstn (Z.to_nat MAX_PAYLOAD_SIZE) file)) l with
    | (Starved, l') => (Some Starved, l')
    | (Returned ret, l') =>
        if ret <? 0 then (Some (Returned (-1)), l')
        else send_data (skipn (Z.to_nat MAX_PAYLOAD_SIZE) file)
               (to_uchar ((sequenceNum + 1) mod 256)) l'
    end.
Proof.
  intro Hne.
  match goal with |- _ = ?r => set (rhs := r) end.
  rewrite send_data_equation_1.
  destruct (Nat.eq_dec (length file) 0) as [H0 | H0];
    [destruct file; [congruence | discriminate] |].
  simp send_data. subst rhs.
  destruct (llwrite (buildDataPacket sequenceNum
                       (firstn (Z.to_nat MAX_PAYLOAD_SIZE) file)) l)
    as [[ret |] l']; simp send_data; [| reflexivity].
  destruct (ret <? 0); simp send_data; reflexivity.
Qed.

(** The data loop when every packet is acknowledged at once. *)
Lemma send_data_acked (n : nat) :
  forall (file : list Z) (sequenceNum : Z) (l : link) (rest : list event),
    (length file <= n)%nat ->
    is_bit (sequenceNumber l) ->
    rx l = map Rx (concat (replies_from (sequenceNumber l)
                             (length (chunks file)))) ++ rest ->
    send_data file sequenceNum l
    = (None,
       mkLink (flip_n (length (chunks file)) (sequenceNumber l))
              (expectedSeq l) rest
              (tx l ++ frames_from (sequenceNumber l)
                         (data_packets sequenceNum (chunks file)))).
Proof.
  induction n as [| n IH]; intros file sequenceNum l rest Hlen Hbit Hrx.
  - destruct file; [| cbn in Hlen; lia].
    rewrite chunks_nil in *. cbn in Hrx. rewrite send_data_nil.
    cbn. rewrite app_nil_r. subst rest. now destruct l.
  - destruct file as [| b file']; [| set (file := b :: file') in *].
    + rewrite chunks_nil in *. cbn in Hrx. rewrite send_data_nil.
      cbn. rewrite app_nil_r. subst rest. now destruct l.
    + assert (Hne : file <> []) by discriminate.
      rewrite (chunks_step Hne) in *.
      cbn [length replies_from concat data_packets frames_from] in *.
      rewrite map_app, <- app_assoc in Hrx.
      rewrite (send_data_step _ _ Hne).
      rewrite (llwrite_acked _ _ Hbit Hrx).
      assert (Hpos : (Z.of_nat (length (buildDataPacket sequenceNum
                        (firstn (Z.to_nat MAX_PAYLOAD_SIZE) file))) <? 0)
                     = false) by (apply Z.ltb_ge; lia).
      rewrite Hpos.
      rewrite (IH (skipn (Z.to_nat MAX_PAYLOAD_SIZE) file) _ _ rest).
      * cbn [sequenceNumber expectedSeq tx]. rewrite flip_n_succ.
        rewrite <- app_assoc. reflexivity.
      * rewrite length_skipn. subst file. cbn [length] in *.
        change (Z.to_nat MAX_PAYLOAD_SIZE) with 256%nat. lia.
      * cbn [sequenceNumber]. apply (lxor_bit Hbit).
      * reflexivity.
Qed.

(** [transmitFile] when every packet is acknowledged at once. *)
Lemma transmitFile_acked :
  forall (content baseFilename : list Z) (l : link) (rest : list event),
    is_bit (sequenceNumber l) ->
    let packets := transfer_packets baseFilename content in
    rx l = map Rx (concat (replies_from (sequenceNumber l) (length packets)))
           ++ rest ->
    transmitFile (Some content) baseFilename l
    = (Returned 0,
       mkLink (flip_n (length packets) (sequenceNumber l)) (expectedSeq l)
              rest
              (tx l ++ frames_from (sequenceNumber l) packets)).
Proof.
  intros content name l rest Hbit packets Hrx.
  unfold packets, transfer_packets in *. cbv zeta in *.
  set (fs := Z.of_nat (length content)) in *.
  set (startp := buildControlPacket CTRL_START name fs) in *.
  set (endp := buildControlPacket CTRL_END name fs) in *.
  set (k := length (chunks content)).
  assert (Hk : length (data_packets 0 (chunks content) ++ [endp])
               = (k + 1)%nat)
    by (rewrite length_app, data_packets_length; reflexivity).
  cbn [length] in Hrx. rewrite Hk in Hrx.
  cbn [replies_from concat] in Hrx.
  rewrite replies_from_add, concat_app in Hrx.
  rewrite !map_app, <- !app_assoc in Hrx.
  unfold transmitFile. fold fs startp endp.
  rewrite (llwrite_acked _ _ Hbit Hrx).
  assert (Hpos : forall p : list Z, (Z.of_nat (length p) <? 0) = false)
    by (intro p; apply Z.ltb_ge; lia).
  rewrite Hpos.
  rewrite (@send_data_acked (length content) content 0 _
             (map Rx (concat (replies_from (flip_n k (1 - sequenceNumber l)) 1))
              ++ rest));
    [| lia | apply (lxor_bit Hbit) | reflexivity].
  cbn [sequenceNumber expectedSeq tx]. fold k.
  assert (Hb' : is_bit (flip_n k (1 - sequenceNumber l)))
    by (apply flip_n_bit, (lxor_bit Hbit)).
  cbn [replies_from concat] in *. rewrite app_nil_r.
  rewrite (@llwrite_acked endp _ rest);
    [| exact Hb' | reflexivity].
  rewrite Hpos. cbn [sequenceNumber expectedSeq tx length].
  rewrite Hk. f_equal. f_equal.
  - rewrite Nat.add_1_r, !flip_n_succ.
    destruct Hbit as [-> | ->]; unfold flip_n; destruct (Nat.even k);
      reflexivity.
  - cbn [frames_from]. rewrite frames_from_app, data_packets_length.
    fold k. cbn [frames_from]. rewrite <- !app_assoc. reflexivity.
Qed.

(** X24: when every packet is acknowledged at its first transmission,
    [transmitFile] writes, in this order, the I-frame of the START packet,
    one I-frame per 256-byte piece of the file with data sequence numbers
    0, 1, 2, ... modulo 256, and the I-frame of the END packet, the link
    sequence bit alternating from frame to frame, and returns 0. *)
Theorem transmitFile_sends_start_data_end :
  forall (content baseFilename : list Z) (l : link) (rest : list event),
    is_bit (sequenceNumber l) ->
    let packets := transfer_packets baseFilename content in
    rx l = map Rx (concat (replies_from (sequenceNumber l) (length packets)))
           ++ rest ->
    transmitFile (Some content) baseFilename l
    = (Returned 0,
       mkLink (flip_n (length packets) (sequenceNumber l)) (expectedSeq l)
              rest
              (tx l ++ frames_from (sequenceNumber l) packets)).
Proof.
  intros content name l rest Hbit packets Hrx.
  now apply transmitFile_acked.
Qed.

(** A three-byte file called "a". *)
Lemma transmitFile_sends_start_data_end_witness :
  let l := link_init (map Rx (reply_frame C_RR1 ++ reply_frame C_RR0
                              ++ reply_frame C_RR1)) in
  is_bit (sequenceNumber l)
  /\ transmitFile (Some [0x10; 0x7E; 0x30]) [0x61] l
     = (Returned 0,
        mkLink 1 0 []
          ([] ++ [build_iframe 0 [0x02; 0x00; 0x01; 0x03; 0x01; 0x01; 0x61];
                  build_iframe 1 [0x01; 0x00; 0x00; 0x03; 0x10; 0x7E; 0x30];
                  build_iframe 0 [0x03; 0x00; 0x01; 0x03; 0x01; 0x01; 0x61]])).
Proof.
  cbv zeta.
  assert (Hb : is_bit (sequenceNumber
            (link_init (map Rx (reply_frame C_RR1 ++ reply_frame C_RR0
                                ++ reply_frame C_RR1)))))
    by (left; reflexivity).
  split; [exact Hb |].
  apply (@transmitFile_sends_start_data_end [0x10; 0x7E; 0x30] [0x61]
           (link_init (map Rx (reply_frame C_RR1 ++ reply_frame C_RR0
                               ++ reply_frame C_RR1))) [] Hb).
  reflexivity.
Defined.

(** X25: [transmitFile] returns -1 without touching the port when the file
    cannot be opened, and when the START packet is not acknowledged within
    [MAX_RETRIES] attempts it returns -1 having written nothing but that
    packet's frame, [MAX_RETRIES] times. *)
Theorem transmitFile_stops_at_failed_start :
  forall (content baseFilename : list Z) (l : link) (rest : list event),
    failed_waits (sequenceNumber l) MAX_RETRIES (rx l) = Some rest ->
    transmitFile None baseFilename l = (Returned (-1), l)
    /\ transmitFile (Some content) baseFilename l
       = (Returned (-1),
          mkLink (sequenceNumber l) (expectedSeq l) rest
                 (tx l ++ repeat
                            (build_iframe (sequenceNumber l)
                               (buildControlPacket CTRL_START baseFilename
                                  (Z.of_nat (length content))))
                            MAX_RETRIES)).
Proof.
  intros content name l rest Hfw. split; [reflexivity |].
  unfold transmitFile, llwrite, llwrite_with.
  replace MAX_RETRIES with (MAX_RETRIES + 0)%nat at 1 by lia.
  rewrite (llwrite_loop_failed_waits MAX_RETRIES 0 _ l Hfw).
  reflexivity.
Qed.

Lemma transmitFile_stops_at_failed_start_witness :
  let l := link_init ([Alarm] ++ map Rx (reply_frame C_REJ0) ++ [Alarm]) in
  failed_waits (sequenceNumber l) MAX_RETRIES (rx l) = Some []
  /\ transmitFile None [0x61] l = (Returned (-1), l)
  /\ transmitFile (Some [0x10; 0x20]) [0x61] l
     = (Returned (-1),
        mkLink 0 0 []
          ([] ++ repeat (build_iframe 0
                           (buildControlPacket CTRL_START [0x61]
                              (Z.of_nat (length [0x10; 0x20]))))
                        MAX_RETRIES)).
Proof.
  cbv zeta. split; [reflexivity |].
  apply (@transmitFile_stops_at_failed_start [0x10; 0x20] [0x61]
           (link_init ([Alarm] ++ map Rx (reply_frame C_REJ0) ++ [Alarm])) []).
  reflexivity.
Defined.

(* ------------------------------------------------------------------ *)
(** ** Receiving a file *)

Lemma build_iframe_length_le (sn : Z) (p : list Z) :
  (length (build_iframe sn p) <= 2 * length p + 7)%nat.
Proof.
  pose proof (build_iframe_length sn p) as H.
  pose proof (iframe_last_store_bound p) as Hb.
  unfold frame_capacity in Hb. lia.
Qed.

Lemma build_iframe_nonempty (sn : Z) (p : list Z) :
  (1 <= length (build_iframe sn p))%nat.
Proof. unfold build_iframe. cbn [app length]. lia. Qed.

(** The pieces are non-empty, at most 256 bytes long, and make up the
    file. *)
Lemma chunks_spec (n : nat) :
  forall file : list Z,
    (length file <= n)%nat ->
    Forall (fun c => (1 <= length c <= 256)%nat) (chunks file)
    /\ concat (chunks file) = file.
Proof.
  induction n as [| n IH]; intros file Hlen.
  - destruct file; [| cbn in Hlen; lia]. rewrite chunks_nil. now split.
  - destruct file as [| b file']; [rewrite chunks_nil; now split |].
    set (file := b :: file') in *.
    assert (Hne : file <> []) by discriminate.
    rewrite (chunks_step Hne).
    destruct (IH (skipn (Z.to_nat MAX_PAYLOAD_SIZE) file)) as [Hall Hcat].
    { rewrite length_skipn. subst file. cbn [length] in *.
      change (Z.to_nat MAX_PAYLOAD_SIZE) with 256%nat. lia. }
    split.
    + constructor; [| exact Hall].
      rewrite length_firstn. subst file. cbn [length].
      change (Z.to_nat MAX_PAYLOAD_SIZE) with 256%nat. lia.
    + cbn [concat]. rewrite Hcat. apply firstn_skipn.
Qed.

(** The two length bytes of a data packet, read back as the receiver reads
    them. *)
Lemma data_length_bytes (n : Z) :
  0 <= n < 65536 ->
  Z.lor (Z.shiftl (to_uchar (Z.land (Z.shiftr n 8) 0xFF)) 8)
        (to_uchar (Z.land n 0xFF))
  = n.
Proof.
  intro Hn.
  assert (Hlo : to_uchar (Z.land n 0xFF) = n mod 256).
  { change 0xFF with (Z.ones 8). rewrite Z.land_ones by lia.
    change (2 ^ 8) with 256. unfold to_uchar. apply Z.mod_mod. lia. }
  assert (Hhi : to_uchar (Z.land (Z.shiftr n 8) 0xFF) = n / 256).
  { change 0xFF with (Z.ones 8). rewrite Z.land_ones by lia.
    rewrite Z.shiftr_div_pow2 by lia. change (2 ^ 8) with 256.
    unfold to_uchar. rewrite Z.mod_mod by lia. apply Z.mod_small.
    split; [apply Z.div_pos; lia | apply Z.div_lt_upper_bound; lia]. }
  rewrite Hlo, Hhi.
  rewrite lor_shiftl_byte
    by (unfold is_uchar; apply Z.mod_pos_bound; lia).
  pose proof (Z.div_mod n 256 ltac:(lia)). lia.
Qed.

(** One turn of the data loop on the frame of a data packet. *)
Lemma receive_data_step (fuel : nat) (c packet : list Z) (seq efs total : Z)
  (out : list Z) (l : link) (rest : list event) :
  (1 <= length c <= 256)%nat ->
  is_bit (expectedSeq l) ->
  rx l = map Rx (build_iframe (expectedSeq l) (buildDataPacket seq c)) ++ rest ->
  receive_data (S fuel) packet efs total out l
  = receive_data fuel
      (buildDataPacket seq c
         ++ skipn (length (buildDataPacket seq c)) packet)
      efs (total + Z.of_nat (length c)) (out ++ c)
      (mkLink (sequenceNumber l) (1 - expectedSeq l) rest
              (tx l ++ [reply_frame (rr_for (expectedSeq l))])).
Proof.
  intros Hc Hbit Hrx. cbn [receive_data].
  assert (Hplen : length (buildDataPacket seq c) = (4 + length c)%nat)
    by reflexivity.
  rewrite (@llread_accepts_iframe (buildDataPacket seq c) [] packet l rest);
    [| exact Hbit | intros []
     | pose proof (build_iframe_length_le (expectedSeq l)
                     (buildDataPacket seq c)); lia
     | exact Hrx].
  rewrite Hplen.
  assert (H0 : (Z.of_nat (4 + length c) <? 0) = false)
    by (apply Z.ltb_ge; lia).
  assert (H1 : (Z.of_nat (4 + length c) =? 0) = false)
    by (apply Z.eqb_neq; lia).
  rewrite H0, H1.
  set (stale := skipn (4 + length c) packet).
  change (buildDataPacket seq c ++ stale)
    with (CTRL_DATA :: seq
            :: to_uchar (Z.land (Z.shiftr (Z.of_nat (length c)) 8) 0xFF)
            :: to_uchar (Z.land (Z.of_nat (length c)) 0xFF)
            :: (c ++ stale)).
  cbn [nth]. cbv zeta.
  change (CTRL_DATA =? CTRL_END) with false.
  change (CTRL_DATA =? CTRL_DATA) with true. cbn iota.
  rewrite data_length_bytes by lia.
  assert (H2 : (4 + Z.of_nat (length c) >? Z.of_nat (4 + length c)) = false).
  { rewrite Z.gtb_ltb. apply Z.ltb_ge. lia. }
  rewrite H2.
  change (CTRL_DATA :: seq
            :: to_uchar (Z.land (Z.shiftr (Z.of_nat (length c)) 8) 0xFF)
            :: to_uchar (Z.land (Z.of_nat (length c)) 0xFF)
            :: (c ++ stale))
    with ([CTRL_DATA; seq;
           to_uchar (Z.land (Z.shiftr (Z.of_nat (length c)) 8) 0xFF);
           to_uchar (Z.land (Z.of_nat (length c)) 0xFF)] ++ c ++ stale).
  rewrite slice_app by reflexivity.
  reflexivity.
Qed.

(** The data loop on the frames of the data packets followed by the frame
    of an END packet. *)
Lemma receive_data_frames (cs : list (list Z)) :
  forall (seq efs total : Z) (packet out endp : list Z) (l : link)
         (rest : list event) (fuel : nat),
    Forall (fun c => (1 <= length c <= 256)%nat) cs ->
    is_bit (expectedSeq l) ->
    nth 0 endp 0 = CTRL_END ->
    (1 <= length endp <= 268)%nat ->
    rx l = map Rx (concat (frames_from (expectedSeq l)
                             (data_packets seq cs ++ [endp]))) ++ rest ->
    (length (rx l) < fuel)%nat ->
    receive_data fuel packet efs total out l
    = (AppReturned
         (if total + Z.of_nat (length (concat cs)) =? efs then 0 else -1),
       out ++ concat cs,
       mkLink (sequenceNumber l) (flip_n (S (length cs)) (expectedSeq l)) rest
              (tx l ++ replies_from (expectedSeq l) (S (length cs)))).
Proof.
  induction cs as [| c cs IH];
    intros seq efs total packet out endp l rest fuel Hcs Hbit Hend Hlen Hrx
           Hfuel.
  - cbn [data_packets app frames_from concat] in Hrx.
    rewrite app_nil_r in Hrx.
    destruct fuel as [| fuel]; [lia |]. cbn [receive_data].
    rewrite (@llread_accepts_iframe endp [] packet l rest);
      [| exact Hbit | intros []
       | pose proof (build_iframe_length_le (expectedSeq l) endp); lia
       | exact Hrx].
    assert (H0 : (Z.of_nat (length endp) <? 0) = false)
      by (apply Z.ltb_ge; lia).
    assert (H1 : (Z.of_nat (length endp) =? 0) = false)
      by (apply Z.eqb_neq; lia).
    rewrite H0, H1. cbv zeta.
    rewrite app_nth1 by lia. rewrite Hend, Z.eqb_refl.
    cbn [concat length replies_from]. rewrite Z.add_0_r, app_nil_r.
    unfold flip_n. cbn [Nat.even]. reflexivity.
  - inversion Hcs as [| ? ? Hc Hcs']; subst.
    cbn [data_packets app frames_from concat] in Hrx.
    rewrite map_app, <- app_assoc in Hrx.
    destruct fuel as [| fuel]; [lia |].
    rewrite (@receive_data_step fuel c packet seq efs total out l _ Hc Hbit Hrx).
    assert (Hshort : (length (map Rx (concat
                        (frames_from (1 - expectedSeq l)
                           (data_packets (to_uchar ((seq + 1) mod 256)) cs
                            ++ [endp]))) ++ rest) < fuel)%nat).
    { rewrite Hrx in Hfuel. rewrite length_app, length_map in Hfuel.
      pose proof (build_iframe_nonempty (expectedSeq l)
                    (buildDataPacket seq c)). lia. }
    rewrite (IH (to_uchar ((seq + 1) mod 256)) efs _ _ _ endp _ rest fuel
                Hcs');
      cbn [sequenceNumber expectedSeq rx tx]; auto;
      [| apply (lxor_bit Hbit)].
    cbn [concat length replies_from].
    rewrite length_app, Nat2Z.inj_add, Z.add_assoc.
    rewrite (flip_n_succ (S (length cs))).
    rewrite <- !app_assoc. reflexivity.
Qed.

(** The first loop on the frame of a START packet. *)
Lemma wait_start_frame (fuel : nat) (name packet : list Z) (fs : Z)
  (l : link) (rest : list event) :
  0 <= fs < 2 ^ 63 ->
  Forall (fun ch => 0 < ch < 256) name ->
  is_bit (expectedSeq l) ->
  rx l = map Rx (build_iframe (expectedSeq l)
                   (buildControlPacket CTRL_START name fs)) ++ rest ->
  wait_start (S fuel) packet l
  = StartParsed fs (firstn 255 name)
      (buildControlPacket CTRL_START name fs
         ++ skipn (length (buildControlPacket CTRL_START name fs)) packet)
      (mkLink (sequenceNumber l) (1 - expectedSeq l) rest
              (tx l ++ [reply_frame (rr_for (expectedSeq l))])).
Proof.
  intros Hfs Hname Hbit Hrx. cbn [wait_start].
  assert (Hl : is_long fs) by (unfold is_long; lia).
  destruct (@control_packet_bounds_aux CTRL_START fs name Hl) as [Hlo Hhi].
  rewrite (@llread_accepts_iframe (buildControlPacket CTRL_START name fs) []
             packet l rest);
    [| exact Hbit | intros []
     | pose proof (build_iframe_length_le (expectedSeq l)
                     (buildControlPacket CTRL_START name fs)); lia
     | exact Hrx].
  assert (H0 : (Z.of_nat (length (buildControlPacket CTRL_START name fs)) <? 0)
               = false) by (apply Z.ltb_ge; lia).
  assert (H1 : (0 <? Z.of_nat (length (buildControlPacket CTRL_START name fs)))
               = true) by (apply Z.ltb_lt; lia).
  rewrite H0, H1.
  rewrite app_nth1 by lia.
  change (nth 0 (buildControlPacket CTRL_START name fs) 0) with CTRL_START.
  rewrite Z.eqb_refl. cbn [andb].
  rewrite parse_built_packet by assumption.
  destruct (@sizeBytes_loop_spec fs (proj1 Hfs)) as (Hu & Hv & _).
  destruct (read_size_be_value Hu ltac:(lia)) as [-> _]. rewrite Hv.
  reflexivity.
Qed.

(** [receiveFile] on the frames of a START packet, data packets and an END
    packet. *)
Lemma receiveFile_frames (name packet endp : list Z) (cs : list (list Z))
  (fs seq : Z) (l : link) (rest : list event) :
  0 <= fs < 2 ^ 63 ->
  Forall (fun ch => 0 < ch < 256) name ->
  Forall (fun c => (1 <= length c <= 256)%nat) cs ->
  nth 0 endp 0 = CTRL_END ->
  (1 <= length endp <= 268)%nat ->
  is_bit (expectedSeq l) ->
  rx l = map Rx (concat (frames_from (expectedSeq l)
                           (buildControlPacket CTRL_START name fs
                              :: data_packets seq cs ++ [endp]))) ++ rest ->
  receiveFile true packet l
  = (AppReturned (if Z.of_nat (length (concat cs)) =? fs then 0 else -1),
     Some (concat cs),
     mkLink (sequenceNumber l) (flip_n (length cs) (expectedSeq l)) rest
            (tx l ++ replies_from (expectedSeq l) (S (S (length cs))))).
Proof.
  intros Hfs Hname Hcs Hend Hlen Hbit Hrx.
  cbn [frames_from concat] in Hrx. rewrite map_app, <- app_assoc in Hrx.
  unfold receiveFile.
  rewrite (@wait_start_frame (length (rx l)) name packet fs l _ Hfs Hname
             Hbit Hrx).
  cbn [rx].
  rewrite (@receive_data_frames cs seq fs 0 _ [] endp
             (mkLink (sequenceNumber l) (1 - expectedSeq l) _ _) rest
             (S _) Hcs);
    cbn [sequenceNumber expectedSeq rx tx]; auto;
    [| apply (lxor_bit Hbit)].
  cbn [app replies_from]. rewrite Z.add_0_l, <- !app_assoc. cbn [app].
  rewrite flip_n_succ.
  replace (1 - (1 - expectedSeq l)) with (expectedSeq l) by lia.
  reflexivity.
Qed.

(** X26: [receiveFile] fed the frames of a START packet announcing size
    [fs], of data packets carrying the pieces [cs], and of a packet that
    begins with the END control byte, writes the pieces to the file in
    order, acknowledges every frame, and returns 0 exactly when the pieces
    add up to [fs] bytes and -1 otherwise.  Neither the sequence numbers of
    the data packets nor the contents of the END packet are checked.  When
    the file cannot be created it returns -1 after the START packet. *)
Theorem receiveFile_writes_pieces_and_checks_size :
  forall (name packet endp : list Z) (cs : list (list Z)) (fs seq : Z)
         (l : link) (rest : list event),
    0 <= fs < 2 ^ 63 ->
    Forall (fun ch => 0 < ch < 256) name ->
    Forall (fun c => (1 <= length c <= 256)%nat) cs ->
    nth 0 endp 0 = CTRL_END ->
    (1 <= length endp <= 268)%nat ->
    is_bit (expectedSeq l) ->
    rx l = map Rx (concat (frames_from (expectedSeq l)
                             (buildControlPacket CTRL_START name fs
                                :: data_packets seq cs ++ [endp]))) ++ rest ->
    receiveFile true packet l
    = (AppReturned (if Z.of_nat (length (concat cs)) =? fs then 0 else -1),
       Some (concat cs),
       mkLink (sequenceNumber l) (flip_n (length cs) (expectedSeq l)) rest
              (tx l ++ replies_from (expectedSeq l) (S (S (length cs)))))
    /\ fst (fst (receiveFile false packet l)) = AppReturned (-1)
    /\ snd (fst (receiveFile false packet l)) = None.
Proof.
  intros name packet endp cs fs seq l rest Hfs Hname Hcs Hend Hlen Hbit Hrx.
  split; [now apply (@receiveFile_frames name packet endp cs fs seq l rest) |].
  cbn [frames_from concat] in Hrx. rewrite map_app, <- app_assoc in Hrx.
  unfold receiveFile.
  rewrite (@wait_start_frame (length (rx l)) name packet fs l _ Hfs Hname
             Hbit Hrx).
  split; reflexivity.
Qed.

(** A START packet announcing 5 bytes, one data packet of 3 bytes numbered
    9, and a one-byte END packet: the 3 bytes are written and the size
    check fails. *)
Lemma receiveFile_writes_pieces_and_checks_size_witness :
  let l := link_init
             (map Rx (concat (frames_from 0
                (buildControlPacket CTRL_START [0x61] 5
                   :: data_packets 9 [[0x10; 0x7E; 0x30]] ++ [[CTRL_END]])))
              ++ [Idle]) in
  0 <= 5 < 2 ^ 63
  /\ receiveFile true (repeat 0%Z 512) l
     = (AppReturned (-1), Some [0x10; 0x7E; 0x30],
        mkLink 0 1 [Idle]
          ([] ++ [reply_frame C_RR1; reply_frame C_RR0; reply_frame C_RR1])).
Proof.
  cbv zeta.
  assert (H : 0 <= 5 < 2 ^ 63) by lia.
  split; [exact H |].
  refine (proj1 (@receiveFile_writes_pieces_and_checks_size
                   [0x61] (repeat 0%Z 512) [CTRL_END] [[0x10; 0x7E; 0x30]]
                   5 9
                   (link_init
                      (map Rx (concat (frames_from 0
                         (buildControlPacket CTRL_START [0x61] 5
                            :: data_packets 9 [[0x10; 0x7E; 0x30]]
                            ++ [[CTRL_END]])))
                       ++ [Idle]))
                   [Idle] H _ _ _ _ _ _)).
  - repeat constructor; lia.
  - repeat constructor; cbn; lia.
  - reflexivity.
  - cbn. lia.
  - left. reflexivity.
  - reflexivity.
Defined.

(** X27: the two ends of a transfer agree.  For a file of fewer than 2^63
    bytes and a name without zero bytes, [receiveFile] fed exactly the
    frames that [transmitFile] writes for that file returns 0 with the
    file's content written, and the RR frames it writes are exactly the
    replies under which [transmitFile] writes those frames and returns 0. *)
Theorem file_transfer_end_to_end :
  forall (content name packet : list Z) (l_tx l_rx : link)
         (rest_tx rest_rx : list event),
    Z.of_nat (length content) < 2 ^ 63 ->
    Forall (fun ch => 0 < ch < 256) name ->
    is_bit (sequenceNumber l_tx) ->
    expectedSeq l_rx = sequenceNumber l_tx ->
    let packets := transfer_packets name content in
    let frames := frames_from (sequenceNumber l_tx) packets in
    let replies := replies_from (expectedSeq l_rx) (length packets) in
    rx l_tx = map Rx (concat replies) ++ rest_tx ->
    rx l_rx = map Rx (concat frames) ++ rest_rx ->
    transmitFile (Some content) name l_tx
    = (Returned 0,
       mkLink (flip_n (length packets) (sequenceNumber l_tx))
              (expectedSeq l_tx) rest_tx (tx l_tx ++ frames))
    /\ receiveFile true packet l_rx
       = (AppReturned 0, Some content,
          mkLink (sequenceNumber l_rx)
                 (flip_n (length packets) (expectedSeq l_rx))
                 rest_rx (tx l_rx ++ replies)).
Proof.
  intros content name packet l_tx l_rx rest_tx rest_rx Hsize Hname Hbit Hseq
         packets frames replies Htx Hrx.
  assert (Hlen : length packets = S (S (length (chunks content)))).
  { unfold packets, transfer_packets. cbn [length].
    rewrite length_app, data_packets_length. cbn [length]. lia. }
  split.
  - unfold frames, replies, packets in *. rewrite Hseq in Htx.
    now apply transmitFile_acked.
  - destruct (@chunks_spec (length content) content (le_n _)) as [Hcs Hcat].
    assert (Hl : is_long (Z.of_nat (length content)))
      by (unfold is_long; lia).
    pose proof (@control_packet_bounds_aux CTRL_END
                  (Z.of_nat (length content)) name Hl) as Hend.
    pose proof (@receiveFile_frames name packet
                  (buildControlPacket CTRL_END name (Z.of_nat (length content)))
                  (chunks content) (Z.of_nat (length content)) 0 l_rx rest_rx
                  ltac:(lia) Hname Hcs eq_refl ltac:(lia)
                  ltac:(rewrite Hseq; exact Hbit)) as Hr.
    rewrite Hcat, Z.eqb_refl in Hr.
    unfold replies. rewrite Hlen, flip_n_succ, flip_n_succ.
    replace (1 - (1 - expectedSeq l_rx)) with (expectedSeq l_rx) by lia.
    apply Hr. unfold frames, packets, transfer_packets in Hrx.
    rewrite Hseq. exact Hrx.
Qed.

(** A 300-byte file: two data packets. *)
Lemma file_transfer_end_to_end_witness :
  let content := repeat 0x7E%Z 300 in
  let name := [0x61; 0x62] in
  let l_tx := link_init
                (map Rx (concat (replies_from 0
                           (length (transfer_packets name content))))) in
  let l_rx := link_init
                (map Rx (concat (frames_from 0
                           (transfer_packets name content)))) in
  Z.of_nat (length content) < 2 ^ 63
  /\ fst (transmitFile (Some content) name l_tx) = Returned 0
  /\ fst (receiveFile true (repeat 0%Z 512) l_rx)
     = (AppReturned 0, Some content).
Proof.
  cbv zeta.
  assert (H : Z.of_nat (length (repeat 0x7E%Z 300)) < 2 ^ 63)
    by (rewrite repeat_length; lia).
  split; [exact H |].
  destruct (@file_transfer_end_to_end
              (repeat 0x7E%Z 300) [0x61; 0x62] (repeat 0%Z 512)
              (link_init
                 (map Rx (concat (replies_from 0
                    (length (transfer_packets [0x61; 0x62]
                               (repeat 0x7E%Z 300)))))))
              (link_init
                 (map Rx (concat (frames_from 0
                    (transfer_packets [0x61; 0x62] (repeat 0x7E%Z 300))))))
              [] [] H)
    as [Ht Hr].
  - repeat constructor; lia.
  - left. reflexivity.
  - reflexivity.
  - cbn [link_init rx expectedSeq]. now rewrite app_nil_r.
  - cbn [link_init rx sequenceNumber]. now rewrite app_nil_r.
  - rewrite Ht, Hr. split; reflexivity.
Defined.

(* ------------------------------------------------------------------ *)
(** ** The bound on llread calls in receiveFile *)

(** An [llread] call that returns has consumed at least one event. *)
Lemma llread_consumes (packet : list Z) (l : link) (ret : Z)
  (packet' : list Z) (l' : link) :
  llread packet l = (Returned ret, packet', l') ->
  (length (rx l') < length (rx l))%nat.
Proof.
  unfold llread.
  destruct (read_frame false [] (rx l)) as [[frame tr] |] eqn:Hrf;
    [| discriminate].
  intro Hr.
  destruct (read_frame_inv (rx l) false [] I Hrf) as (_ & _ & _ & _ & Hlt).
  destruct (llread_frame_spec frame packet (with_rx tr l))
    as [(_ & _ & c & _ & Hl) | (payload & _ & _ & Hl & _)];
    rewrite Hr in Hl; cbn [snd] in Hl; subst l'; exact Hlt.
Qed.

(** With more fuel than pending events the first loop of [receiveFile]
    never runs out of it. *)
Lemma wait_start_fuel (fuel1 : nat) :
  forall (fuel2 : nat) (packet : list Z) (l : link),
    (length (rx l) < fuel1)%nat -> (length (rx l) < fuel2)%nat ->
    wait_start fuel1 packet l = wait_start fuel2 packet l.
Proof.
  induction fuel1 as [| fuel1 IH]; intros fuel2 packet l H1 H2; [lia |].
  destruct fuel2 as [| fuel2]; [lia |]. cbn [wait_start].
  destruct (llread packet l) as [[[ret |] packet'] l'] eqn:Hr;
    [| reflexivity].
  pose proof (llread_consumes _ _ Hr) as Hlt.
  destruct (ret <? 0); [apply IH; lia |].
  destruct ((0 <? ret) && (nth 0 packet' 0 =? CTRL_START));
    [reflexivity | apply IH; lia].
Qed.

(** Likewise for the data loop. *)
Lemma receive_data_fuel (fuel1 : nat) :
  forall (fuel2 : nat) (packet : list Z) (efs total : Z) (out : list Z)
         (l : link),
    (length (rx l) < fuel1)%nat -> (length (rx l) < fuel2)%nat ->
    receive_data fuel1 packet efs total out l
    = receive_data fuel2 packet efs total out l.
Proof.
  induction fuel1 as [| fuel1 IH]; intros fuel2 packet efs total out l H1 H2;
    [lia |].
  destruct fuel2 as [| fuel2]; [lia |]. cbn [receive_data].
  destruct (llread packet l) as [[[ret |] packet'] l'] eqn:Hr;
    [| reflexivity].
  pose proof (llread_consumes _ _ Hr) as Hlt.
  destruct (ret <? 0); [apply IH; lia |].
  destruct (ret =? 0); [apply IH; lia |].
  cbv zeta.
  destruct (nth 0 packet' 0 =? CTRL_END); [reflexivity |].
  destruct (nth 0 packet' 0 =? CTRL_DATA); [| apply IH; lia].
  destruct (4 + Z.lor (Z.shiftl (nth 2 packet' 0) 8) (nth 3 packet' 0) >? ret);
    apply IH; lia.
Qed.

(* ------------------------------------------------------------------ *)
(** ** llread: stray events and checksum *)

Lemma read_frame_discards_events (junk tr : list event) :
  forallb no_flag junk = true ->
  read_frame false [] (junk ++ tr) = read_frame false [] tr.
Proof.
  induction junk as [| e junk IH]; intro Hq; [reflexivity |].
  cbn [forallb] in Hq. apply andb_prop in Hq. destruct Hq as [He Hq].
  destruct e as [b | |]; cbn [app read_frame]; [| now apply IH | now apply IH].
  cbn [no_flag] in He. apply negb_true_iff in He. rewrite He. now apply IH.
Qed.

(** X28: events that are not a received flag (other bytes, idle reads,
    alarms) are discarded while [llread] looks for an opening flag: a frame
    built by [llwrite] with the expected bit that follows them is delivered
    and acknowledged. *)
Theorem llread_ignores_stray_events :
  forall (buf packet : list Z) (l : link) (junk rest : list event),
    is_bit (expectedSeq l) ->
    forallb no_flag junk = true ->
    (length (build_iframe (expectedSeq l) buf) <= 2048)%nat ->
    rx l = junk ++ map Rx (build_iframe (expectedSeq l) buf) ++ rest ->
    llread packet l
    = (Returned (Z.of_nat (length buf)),
       buf ++ skipn (length buf) packet,
       mkLink (sequenceNumber l) (1 - expectedSeq l) rest
              (tx l ++ [reply_frame (rr_for (expectedSeq l))])).
Proof.
  intros buf packet l junk rest Hbit Hq Hlen Hrx.
  assert (Hsame : llread packet l
                  = llread packet
                      (with_rx (map Rx ([] ++ build_iframe (expectedSeq l) buf)
                                ++ rest) l)).
  { unfold llread. cbn [with_rx rx]. rewrite Hrx.
    rewrite read_frame_discards_events by exact Hq.
    cbn [app].
    destruct (read_frame false []
                (map Rx (build_iframe (expectedSeq l) buf) ++ rest))
      as [[frame tr] |]; reflexivity. }
  rewrite Hsame.
  apply (@llread_accepts_iframe buf [] packet
           (with_rx (map Rx ([] ++ build_iframe (expectedSeq l) buf) ++ rest) l)
           rest); cbn [with_rx expectedSeq rx]; auto.
Qed.

Lemma llread_ignores_stray_events_witness :
  let l := mkLink 0 1 ([Rx 0x03; Alarm; Idle; Rx 0x7D]
                       ++ map Rx (build_iframe 1 [0x7E]) ++ [Idle]) [] in
  is_bit (expectedSeq l)
  /\ llread [0x00; 0x00] l
     = (Returned 1, [0x7E; 0x00],
        mkLink 0 0 [Idle] ([] ++ [[0x7E; 0x01; 0x05; 0x04; 0x7E]])).
Proof.
  cbv zeta.
  assert (Hb : is_bit (expectedSeq
            (mkLink 0 1 ([Rx 0x03; Alarm; Idle; Rx 0x7D]
                         ++ map Rx (build_iframe 1 [0x7E]) ++ [Idle]) [])))
    by (right; reflexivity).
  split; [exact Hb |].
  apply (@llread_ignores_stray_events [0x7E] [0x00; 0x00]
           (mkLink 0 1 ([Rx 0x03; Alarm; Idle; Rx 0x7D]
                        ++ map Rx (build_iframe 1 [0x7E]) ++ [Idle]) [])
           [Rx 0x03; Alarm; Idle; Rx 0x7D] [Idle] Hb).
  - reflexivity.
  - cbn. lia.
  - reflexivity.
Defined.

Lemma fold_lxor_seed (p : list Z) :
  forall acc : Z, fold_left Z.lxor p acc = Z.lxor acc (xor_all p).
Proof.
  unfold xor_all. induction p as [| b p IH]; intro acc.
  - cbn. now rewrite Z.lxor_0_r.
  - cbn [fold_left]. rewrite IH, (IH (Z.lxor 0 b)).
    rewrite Z.lxor_0_l, Z.lxor_assoc. reflexivity.
Qed.

Lemma xor_all_app (a b : list Z) :
  xor_all (a ++ b) = Z.lxor (xor_all a) (xor_all b).
Proof.
  unfold xor_all at 1. rewrite fold_left_app.
  fold (xor_all a). apply fold_lxor_seed.
Qed.

(** Changing one byte of a sequence changes its XOR. *)
Lemma xor_all_one_byte (a b : list Z) (old new : Z) :
  old <> new -> xor_all (a ++ new :: b) <> xor_all (a ++ old :: b).
Proof.
  intros Hne Heq.
  rewrite !xor_all_app in Heq.
  change (new :: b) with ([new] ++ b) in Heq.
  change (old :: b) with ([old] ++ b) in Heq.
  rewrite !xor_all_app in Heq.
  unfold xor_all at 2 5 in Heq. cbn [fold_left] in Heq.
  rewrite !Z.lxor_0_l in Heq.
  apply Hne.
  assert (H : Z.lxor old new = 0).
  { set (x := xor_all a) in *. set (y := xor_all b) in *.
    assert (H1 : Z.lxor (Z.lxor x (Z.lxor new y)) (Z.lxor x (Z.lxor old y))
                 = 0) by (rewrite Heq; apply Z.lxor_nilpotent).
    rewrite <- H1.
    apply Z.bits_inj'. intros n Hn. rewrite !Z.lxor_spec.
    destruct (Z.testbit old n), (Z.testbit new n), (Z.testbit x n),
             (Z.testbit y n); reflexivity. }
  now apply Z.lxor_eq.
Qed.

Lemma stuffed_inner_no_flag (sn : Z) (data : list Z) :
  ~ In FLAG ([A_SENDER; control_field sn;
              to_uchar (Z.lxor A_SENDER (control_field sn))]
             ++ stuffData data).
Proof.
  intro H. apply in_app_or in H. destruct H as [H | H].
  - unfold control_field in H.
    destruct (sn =? 0); cbn in H; unfold FLAG in H;
      repeat (destruct H as [H | H]; [discriminate |]); exact H.
  - exact (stuffData_no_flag _ H).
Qed.

(** X29: BCC2 catches any single wrong payload byte.  A frame with the
    expected bit whose payload differs in one byte from the payload over
    which its BCC2 was computed is answered with the REJ for the expected
    bit; [llread] returns -1 and leaves the caller's buffer and the
    expected bit alone. *)
Theorem llread_detects_one_wrong_byte :
  forall (a b packet : list Z) (old new : Z) (l : link) (rest : list event),
    all_uchar (a ++ new :: b) -> all_uchar (a ++ old :: b) ->
    old <> new ->
    is_bit (expectedSeq l) ->
    (2 * length (a ++ new :: b) + 7 <= 2048)%nat ->
    rx l = map Rx ([FLAG; A_SENDER; control_field (expectedSeq l);
                    Z.lxor A_SENDER (control_field (expectedSeq l))]
                   ++ stuffData ((a ++ new :: b)
                                 ++ [bcc2_of (a ++ old :: b)])
                   ++ [FLAG]) ++ rest ->
    llread packet l
    = (Returned (-1), packet,
       mkLink (sequenceNumber l) (expectedSeq l) rest
              (tx l ++ [reply_frame (rej_for (expectedSeq l))])).
Proof.
  intros a b packet old new l rest Hnew Hold Hne Hbit Hlen Hrx.
  set (data := (a ++ new :: b) ++ [bcc2_of (a ++ old :: b)]) in *.
  assert (Hhdr : to_uchar (Z.lxor A_SENDER (control_field (expectedSeq l)))
                 = Z.lxor A_SENDER (control_field (expectedSeq l))
                 /\ seq_bit (control_field (expectedSeq l)) = expectedSeq l).
  { destruct Hbit as [-> | ->]; split; reflexivity. }
  destruct Hhdr as [Hbcc1 Hseq].
  assert (Hrf : read_frame false [] (rx l)
                = Some (FLAG :: A_SENDER :: control_field (expectedSeq l)
                          :: Z.lxor A_SENDER (control_field (expectedSeq l))
                          :: stuffData data ++ [FLAG], rest)).
  { rewrite Hrx.
    pose proof (stuffed_inner_no_flag (expectedSeq l) data) as Hnf.
    rewrite Hbcc1 in Hnf.
    pose proof (stuffData_length_bounds data) as Hsd.
    unfold data in Hsd. rewrite length_app in Hsd. cbn [length] in Hsd.
    fold data in Hsd.
    change ([FLAG; A_SENDER; control_field (expectedSeq l);
             Z.lxor A_SENDER (control_field (expectedSeq l))]
            ++ stuffData data ++ [FLAG])
      with (FLAG :: ([A_SENDER; control_field (expectedSeq l);
                      Z.lxor A_SENDER (control_field (expectedSeq l))]
                     ++ stuffData data) ++ [FLAG]).
    change (FLAG :: A_SENDER :: control_field (expectedSeq l)
              :: Z.lxor A_SENDER (control_field (expectedSeq l))
              :: stuffData data ++ [FLAG])
      with ([FLAG] ++ ([A_SENDER; control_field (expectedSeq l);
                        Z.lxor A_SENDER (control_field (expectedSeq l))]
                       ++ stuffData data) ++ [FLAG]).
    assert (Hil : (length ([A_SENDER; control_field (expectedSeq l);
                            Z.lxor A_SENDER (control_field (expectedSeq l))]
                           ++ stuffData data) <= 2047)%nat)
      by (rewrite length_app; cbn [length]; lia).
    remember ([A_SENDER; control_field (expectedSeq l);
               Z.lxor A_SENDER (control_field (expectedSeq l))]
              ++ stuffData data) as inner eqn:Hinner.
    clear Hinner.
    cbn [map app read_frame]. rewrite Z.eqb_refl. cbn [negb].
    rewrite map_app, <- app_assoc. cbn [map app].
    rewrite read_frame_body; [reflexivity | exact Hnf |].
    cbn [length]. lia. }
  unfold llread. rewrite Hrf, llread_frame_shape.
  rewrite Z.eqb_refl. cbn [negb with_rx expectedSeq].
  rewrite Hseq, Z.eqb_refl. cbn [negb]. cbv zeta.
  rewrite destuffData_stuffData. unfold data.
  rewrite length_app. cbn [length].
  destruct (Z.of_nat (length (a ++ new :: b) + 1) <? 1) eqn:Hsz;
    [apply Z.ltb_lt in Hsz; lia |].
  replace (length (a ++ new :: b) + 1 - 1)%nat
    with (length (a ++ new :: b) + 0)%nat by lia.
  rewrite firstn_app_2, app_nil_r. cbn [firstn].
  rewrite app_nth2 by lia.
  replace (length (a ++ new :: b) + 0 - length (a ++ new :: b))%nat
    with O by lia.
  cbn [nth].
  destruct (bcc2_of_xor_all Hnew) as [-> _].
  destruct (bcc2_of_xor_all Hold) as [-> _].
  assert (Hcmp : (xor_all (a ++ new :: b) =? xor_all (a ++ old :: b)) = false)
    by (apply Z.eqb_neq; now apply xor_all_one_byte).
  rewrite Hcmp. cbn [negb]. unfold send_rej.
  fold (rej_for (expectedSeq l)). reflexivity.
Qed.

(** Scenario S4: "Hi" with the second byte changed from 69 to 68. *)
Lemma llread_detects_one_wrong_byte_witness :
  let l := link_init (map Rx [0x7E; 0x03; 0x00; 0x03; 0x48; 0x68; 0x21; 0x7E]) in
  all_uchar ([0x48] ++ 0x68 :: [])
  /\ llread [0xAA] l
     = (Returned (-1), [0xAA],
        mkLink 0 0 [] ([] ++ [[0x7E; 0x01; 0x01; 0x00; 0x7E]])).
Proof.
  cbv zeta.
  assert (Hn : all_uchar ([0x48] ++ 0x68 :: []))
    by (repeat constructor; unfold is_uchar; lia).
  split; [exact Hn |].
  apply (@llread_detects_one_wrong_byte [0x48] [] [0xAA] 0x69 0x68
           (link_init (map Rx [0x7E; 0x03; 0x00; 0x03; 0x48; 0x68; 0x21; 0x7E]))
           [] Hn).
  - repeat constructor; unfold is_uchar; lia.
  - lia.
  - left. reflexivity.
  - cbn. lia.
  - reflexivity.
Defined.

(* ------------------------------------------------------------------ *)
(** ** The frame written by llwrite *)

(** C6: for every payload whose frame fits the array [frame] that [llwrite]
    declares (the closing flag is stored below index 2L+6; the other
    payloads are those of C7), every buffer that [llwrite] hands to the port
    is the frame 7E 03 C (03 xor C) stuffed(payload, BCC2) 7E, with C = 00
    when the sender bit is 0 and 40 otherwise, BCC2 the XOR of the payload
    bytes, and the stuffing that of the protocol: 7E sent as 7D 5E, 7D as
    7D 5D, any other byte as itself.  At least one and at most
    [MAX_RETRIES] copies are written, and exactly one when the first reply
    is the RR for the next sequence. *)
Theorem llwrite_emits_iframe :
  forall (buf : list Z) (l : link),
    all_uchar buf ->
    iframe_last_store buf < frame_capacity (Z.of_nat (length buf)) ->
    let C := if sequenceNumber l =? 0 then 0x00 else 0x40 in
    let frame :=
      [0x7E; 0x03; C; Z.lxor 0x03 C]
        ++ stuffed (buf ++ [xor_all buf]) ++ [0x7E] in
    (exists k : nat,
        (1 <= k <= MAX_RETRIES)%nat
        /\ tx (snd (llwrite buf l)) = tx l ++ repeat frame k)
    /\ (forall rest : list event,
          rx l = map Rx (reply_frame (expected_rr (sequenceNumber l))) ++ rest ->
          tx (snd (llwrite buf l)) = tx l ++ [frame]).
Proof.
  intros buf l Hbuf _ C frame.
  assert (Hframe : build_iframe (sequenceNumber l) buf = frame).
  { unfold build_iframe, frame, C, control_field.
    destruct (bcc2_of_xor_all Hbuf) as [-> _].
    rewrite stuffData_stuffed.
    destruct (sequenceNumber l =? 0); reflexivity. }
  split.
  - destruct (llwrite_loop_spec MAX_RETRIES buf l) as (k & Hk & Hk1 & Htx & _).
    exists k. split; [split; [apply Hk1; discriminate | exact Hk] |].
    unfold llwrite, llwrite_with. rewrite Htx, Hframe. reflexivity.
  - intros rest Hrx. rewrite <- Hframe.
    unfold llwrite, llwrite_with, MAX_RETRIES.
    cbn [llwrite_loop writeBytesSerialPort rx]. rewrite Hrx.
    rewrite wait_ack_reply by now left.
    rewrite Z.eqb_refl. reflexivity.
Qed.

(** The payload "Hi" with sender bit 0 goes out as 7E 03 00 03 48 69 21 7E;
    the payload 7E 7D 48 with sender bit 1 goes out with both special bytes
    escaped and BCC2 = 4B. *)
Lemma llwrite_emits_iframe_Hi :
  let hi := [0x48; 0x69] in
  let l0 := link_init (map Rx (reply_frame C_RR1) ++ [Idle]) in
  let esc := [0x7E; 0x7D; 0x48] in
  let l1 := mkLink 1 0 (map Rx (reply_frame C_RR0)) [] in
  (all_uchar hi
   /\ iframe_last_store hi < frame_capacity (Z.of_nat (length hi))
   /\ tx (snd (llwrite hi l0))
      = [] ++ [[0x7E; 0x03; 0x00; 0x03; 0x48; 0x69; 0x21; 0x7E]])
  /\ (all_uchar esc
      /\ iframe_last_store esc < frame_capacity (Z.of_nat (length esc))
      /\ tx (snd (llwrite esc l1))
         = [] ++ [[0x7E; 0x03; 0x40; 0x43;
                   0x7D; 0x5E; 0x7D; 0x5D; 0x48; 0x4B; 0x7E]]).
Proof.
  cbv zeta.
  assert (H : all_uchar [0x48; 0x69])
    by (repeat constructor; unfold is_uchar; lia).
  assert (Hb : iframe_last_store [0x48; 0x69]
               < frame_capacity (Z.of_nat (length [0x48; 0x69])))
    by (vm_compute; reflexivity).
  assert (H' : all_uchar [0x7E; 0x7D; 0x48])
    by (repeat constructor; unfold is_uchar; lia).
  assert (Hb' : iframe_last_store [0x7E; 0x7D; 0x48]
                < frame_capacity (Z.of_nat (length [0x7E; 0x7D; 0x48])))
    by (vm_compute; reflexivity).
  split; (split; [assumption | split; [assumption |]]).
  - exact (proj2 (llwrite_emits_iframe
                    (link_init (map Rx (reply_frame C_RR1) ++ [Idle])) H Hb)
                 [Idle] eq_refl).
  - exact (proj2 (llwrite_emits_iframe
                    (mkLink 1 0 (map Rx (reply_frame C_RR0)) []) H' Hb')
                 [] eq_refl).
Defined.

(* ------------------------------------------------------------------ *)
(** ** Sequence bits *)

Lemma rx_bytes_app (a b : list event) :
  rx_bytes (a ++ b) = rx_bytes a ++ rx_bytes b.
Proof. unfold rx_bytes. apply flat_map_app. Qed.

Lemma ends_in_flag (hist : list event) : ends_in (hist ++ [Rx FLAG]) [FLAG].
Proof. exists hist, [Rx FLAG]. repeat split. Qed.

Lemma ends_in_byte (hist : list event) (bs : list Z) (b : Z) :
  ends_in hist bs -> ends_in (hist ++ [Rx b]) (bs ++ [b]).
Proof.
  intros (pre & evs & -> & Hb & Hn). exists pre, (evs ++ [Rx b]).
  rewrite app_assoc. split; [reflexivity |].
  rewrite rx_bytes_app, Hb, forallb_app, Hn. split; reflexivity.
Qed.

Lemma ends_in_idle (hist : list event) (bs : list Z) :
  ends_in hist bs -> ends_in (hist ++ [Idle]) bs.
Proof.
  intros (pre & evs & -> & Hb & Hn). exists pre, (evs ++ [Idle]).
  rewrite app_assoc. split; [reflexivity |].
  rewrite rx_bytes_app, Hb, forallb_app, Hn, app_nil_r. split; reflexivity.
Qed.

Lemma ack_tail_idle (s : ack_sm) (hist : list event) :
  ack_tail s hist -> ack_tail s (hist ++ [Idle]).
Proof.
  unfold ack_tail. destruct (state s) as [| [| [| [| [| ?]]]]]; auto;
    apply ends_in_idle.
Qed.

(** One byte of the acknowledgment wait: either the loop is left, and the
    events read end in a reply frame, or the state still tells how the
    events read end. *)
Lemma ack_step_tail (sn : Z) (s : ack_sm) (b : Z) (hist : list event) :
  ackReceived s = false ->
  ack_tail s hist ->
  if ackReceived (ack_step sn s b)
  then ends_in (hist ++ [Rx b])
         [FLAG; A_RECEIVER; receivedControl (ack_step sn s b);
          Z.lxor A_RECEIVER (receivedControl (ack_step sn s b)); FLAG]
  else ack_tail (ack_step sn s b) (hist ++ [Rx b]).
Proof.
  destruct s as [st rc ack]. cbn [ackReceived]. intros -> Ht.
  unfold ack_tail in Ht. cbn [state receivedControl] in Ht.
  unfold ack_step. cbn [state receivedControl ackReceived].
  destruct st as [| [| [| [| [| st]]]]].
  - destruct (b =? FLAG) eqn:EF; cbn [ackReceived]; unfold ack_tail;
      cbn [state]; [| exact I].
    apply Z.eqb_eq in EF. subst b. apply ends_in_flag.
  - destruct (b =? A_RECEIVER) eqn:EA.
    + cbn [ackReceived]. unfold ack_tail. cbn [state].
      apply Z.eqb_eq in EA. subst b. exact (ends_in_byte A_RECEIVER Ht).
    + destruct (b =? FLAG) eqn:EF; cbn [negb ackReceived]; unfold ack_tail;
        cbn [state]; [| exact I].
      apply Z.eqb_eq in EF. subst b. apply ends_in_flag.
  - destruct (b =? expected_rr sn);
      [cbn [ackReceived]; unfold ack_tail; cbn [state receivedControl];
       exact (ends_in_byte b Ht) |].
    destruct (b =? expected_rej sn);
      [cbn [ackReceived]; unfold ack_tail; cbn [state receivedControl];
       exact (ends_in_byte b Ht) |].
    destruct (b =? FLAG) eqn:EF; cbn [ackReceived]; unfold ack_tail;
      cbn [state]; [| exact I].
    apply Z.eqb_eq in EF. subst b. apply ends_in_flag.
  - destruct (b =? Z.lxor A_RECEIVER rc) eqn:EX.
    + cbn [ackReceived]. unfold ack_tail. cbn [state receivedControl].
      apply Z.eqb_eq in EX. subst b.
      exact (ends_in_byte (Z.lxor A_RECEIVER rc) Ht).
    + destruct (b =? FLAG) eqn:EF; cbn [ackReceived]; unfold ack_tail;
        cbn [state]; [| exact I].
      apply Z.eqb_eq in EF. subst b. apply ends_in_flag.
  - destruct (b =? FLAG) eqn:EF; cbn [ackReceived receivedControl].
    + apply Z.eqb_eq in EF. subst b. exact (ends_in_byte FLAG Ht).
    + unfold ack_tail. cbn [state]. exact I.
  - cbn [ackReceived]. unfold ack_tail. cbn [state]. exact I.
Qed.

(** When the acknowledgment wait is left with a frame, the events it read
    end in the five bytes of that frame, with no alarm among them. *)
Lemma wait_ack_frame (sn : Z) (tr : list event) :
  forall (s : ack_sm) (hist : list event) (c : Z) (rest : list event),
    ackReceived s = false ->
    ack_tail s hist ->
    wait_ack sn s tr = (Acked c, rest) ->
    exists pre evs : list event,
      hist ++ tr = pre ++ evs ++ rest
      /\ rx_bytes evs = [FLAG; A_RECEIVER; c; Z.lxor A_RECEIVER c; FLAG]
      /\ forallb no_alarm evs = true.
Proof.
  induction tr as [| e tr IH]; intros s hist c rest Hack Ht Hw;
    [discriminate |].
  destruct e as [b | |]; cbn [wait_ack] in Hw.
  - pose proof (@ack_step_tail sn s b hist Hack Ht) as Hstep.
    destruct (ackReceived (ack_step sn s b)) eqn:Hs'.
    + injection Hw as <- <-.
      destruct Hstep as (pre & evs & Heq & Hb & Hn).
      exists pre, evs. split; [| split; assumption].
      rewrite app_assoc, <- Heq, <- app_assoc. reflexivity.
    + destruct (IH _ (hist ++ [Rx b]) c rest Hs' Hstep Hw)
        as (pre & evs & Heq & Hb & Hn).
      exists pre, evs. split; [| split; assumption].
      rewrite <- Heq, <- app_assoc. reflexivity.
  - destruct (IH s (hist ++ [Idle]) c rest Hack (@ack_tail_idle s hist Ht) Hw)
      as (pre & evs & Heq & Hb & Hn).
    exists pre, evs. split; [| split; assumption].
    rewrite <- Heq, <- app_assoc. reflexivity.
  - discriminate.
Qed.

(** The wait reads a prefix of its input. *)
Lemma wait_ack_suffix (sn : Z) (tr : list event) :
  forall (s : ack_sm) (w : wait_result) (rest : list event),
    wait_ack sn s tr = (w, rest) -> exists used, tr = used ++ rest.
Proof.
  induction tr as [| e tr IH]; intros s w rest Hw.
  - injection Hw as _ <-. now exists [].
  - destruct e as [b | |]; cbn [wait_ack] in Hw.
    + destruct (ackReceived (ack_step sn s b)).
      * injection Hw as _ <-. now exists [Rx b].
      * destruct (IH _ _ _ Hw) as [used ->]. now exists (Rx b :: used).
    + destruct (IH _ _ _ Hw) as [used ->]. now exists (Idle :: used).
    + injection Hw as _ <-. now exists [Alarm].
Qed.

(** A successful run of the retransmission loop ends by reading the RR
    frame for the next sequence. *)
Lemma llwrite_loop_reads_rr (n : nat) (buf : list Z) :
  forall l : link,
    succeeded (fst (llwrite_loop n buf l)) = true ->
    exists pre evs : list event,
      rx l = pre ++ evs ++ rx (snd (llwrite_loop n buf l))
      /\ rx_bytes evs = reply_frame (expected_rr (sequenceNumber l))
      /\ forallb no_alarm evs = true.
Proof.
  induction n as [| n IH]; intros l Hok; [discriminate |].
  cbn [llwrite_loop] in *. cbn [writeBytesSerialPort rx] in *.
  destruct (wait_ack (sequenceNumber l) ack_init (rx l)) as [w tr] eqn:Hw.
  assert (Hrec : forall l2, l2 = with_rx tr
                   (writeBytesSerialPort
                      (build_iframe (sequenceNumber l) buf) l) ->
            succeeded (fst (llwrite_loop n buf l2)) = true ->
            exists pre evs : list event,
              rx l = pre ++ evs ++ rx (snd (llwrite_loop n buf l2))
              /\ rx_bytes evs = reply_frame (expected_rr (sequenceNumber l))
              /\ forallb no_alarm evs = true).
  { intros l2 -> Hok2.
    destruct (IH _ Hok2) as (pre & evs & Heq & Hb & Hn).
    cbn [with_rx writeBytesSerialPort rx sequenceNumber] in Heq, Hb.
    destruct (@wait_ack_suffix _ _ _ _ _ Hw) as [used Hused].
    exists (used ++ pre), evs. split; [| split; assumption].
    rewrite Hused, <- app_assoc. f_equal. exact Heq. }
  destruct w as [rc | |].
  - destruct (rc =? expected_rr (sequenceNumber l)) eqn:Hrc.
    + apply Z.eqb_eq in Hrc. subst rc.
      destruct (@wait_ack_frame (sequenceNumber l) (rx l) ack_init []
                  (expected_rr (sequenceNumber l)) tr eq_refl I Hw)
        as (pre & evs & Heq & Hb & Hn).
      exists pre, evs. cbn [snd with_sequenceNumber with_rx rx].
      split; [exact Heq | split; [| exact Hn]].
      rewrite Hb. unfold reply_frame, expected_rr.
      destruct (sequenceNumber l =? 0); reflexivity.
    + now apply Hrec.
  - now apply Hrec.
  - discriminate.
Qed.

(** The waits of a run of failed attempts all fail. *)
Lemma failed_attempts_waits (sn : Z) (atts : list (list event * bool)) :
  forall tr : list event,
    quiet_attempts atts ->
    failed_waits sn (length atts) (failed_attempts sn atts ++ tr) = Some tr.
Proof.
  induction atts as [| [junk rej] atts IH]; intros tr Hq; [reflexivity |].
  inversion Hq as [| a0 atts0 Hj Hq']; subst. cbn [fst] in Hj.
  unfold failed_attempts in *. cbn [length flat_map failed_waits].
  unfold failed_attempt at 1. cbn [fst snd].
  rewrite <- !app_assoc, wait_ack_skips_quiet by exact Hj.
  destruct rej.
  - rewrite wait_ack_reply by now right.
    assert (Hne : (expected_rej sn =? expected_rr sn) = false)
      by (unfold expected_rej, expected_rr; destruct (sn =? 0); reflexivity).
    rewrite Hne. now apply IH.
  - cbn [app wait_ack]. now apply IH.
Qed.

(** C4: in any run of [llwrite] calls the sender bit on entry to a call is
    the initial bit flipped once per earlier successful call, and every
    frame of the call carries that bit in its control byte (00 or 40).  A
    single call either fails and leaves the bit, or returns the payload
    length with the bit flipped, and then the last events it read are the
    five bytes of the RR frame for the next sequence, with no alarm among
    them.  Attempts that end with the REJ for the current bit or with the
    alarm do not flip the bit: after fewer than [MAX_RETRIES] of them the RR
    for the next sequence flips it, after [MAX_RETRIES] of them the call
    returns -1 with the bit unchanged.  Likewise the expected bit on entry
    to an [llread] call is the initial bit flipped once per earlier
    successful call; a single call either fails and leaves the bit and the
    caller's buffer, or delivers the payload of the frame it captured, whose
    control byte carries the expected bit and whose BCC2 matches, and flips
    the bit; a frame built by [llwrite] with the expected bit is
    delivered. *)
Theorem sequence_bits_alternate :
  forall l : link,
    is_bit (sequenceNumber l) ->
    is_bit (expectedSeq l) ->
    (forall (bufs : list (list Z)) (k : nat) (c : call),
        nth_error (fst (llwrite_calls bufs l)) k = Some c ->
        call_seq c
          = flip_n (successes (firstn k (fst (llwrite_calls bufs l))))
                   (sequenceNumber l)
        /\ Forall (fun f => nth 2 f 0
                            = if call_seq c =? 0 then 0x00 else 0x40)
                  (call_written c))
    /\ (forall buf : list Z,
          (succeeded (fst (llwrite buf l)) = false
           /\ sequenceNumber (snd (llwrite buf l)) = sequenceNumber l)
          \/ (fst (llwrite buf l) = Returned (Z.of_nat (length buf))
              /\ sequenceNumber (snd (llwrite buf l)) = 1 - sequenceNumber l
              /\ exists pre evs : list event,
                   rx l = pre ++ evs ++ rx (snd (llwrite buf l))
                   /\ rx_bytes evs
                      = reply_frame (expected_rr (sequenceNumber l))
                   /\ forallb no_alarm evs = true))
    /\ (forall (buf : list Z) (atts : list (list event * bool))
               (junk rest : list event),
          (length atts < MAX_RETRIES)%nat ->
          quiet_attempts atts ->
          forallb quiet junk = true ->
          rx l = failed_attempts (sequenceNumber l) atts ++ junk
                 ++ map Rx (reply_frame (expected_rr (sequenceNumber l)))
                 ++ rest ->
          llwrite buf l
          = (Returned (Z.of_nat (length buf)),
             mkLink (1 - sequenceNumber l) (expectedSeq l) rest
                    (tx l ++ repeat (build_iframe (sequenceNumber l) buf)
                                    (S (length atts)))))
    /\ (forall (buf : list Z) (atts : list (list event * bool))
               (rest : list event),
          length atts = MAX_RETRIES ->
          quiet_attempts atts ->
          rx l = failed_attempts (sequenceNumber l) atts ++ rest ->
          llwrite buf l
          = (Returned (-1),
             mkLink (sequenceNumber l) (expectedSeq l) rest
                    (tx l ++ repeat (build_iframe (sequenceNumber l) buf)
                                    MAX_RETRIES)))
    /\ (forall (n : nat) (packet : list Z) (k : nat) (c : call),
          nth_error (fst (fst (llread_calls n packet l))) k = Some c ->
          call_seq c
            = flip_n (successes (firstn k (fst (fst (llread_calls n packet l)))))
                     (expectedSeq l))
    /\ (forall packet : list Z,
          (succeeded (fst (fst (llread packet l))) = false
           /\ expectedSeq (snd (llread packet l)) = expectedSeq l
           /\ snd (fst (llread packet l)) = packet)
          \/ (expectedSeq (snd (llread packet l)) = 1 - expectedSeq l
              /\ exists payload frame : list Z,
                   fst (fst (llread packet l))
                     = Returned (Z.of_nat (length payload))
                   /\ snd (fst (llread packet l))
                      = payload ++ skipn (length payload) packet
                   /\ read_frame false [] (rx l)
                      = Some (frame, rx (snd (llread packet l)))
                   /\ seq_bit (nth 2 frame 0) = expectedSeq l
                   /\ destuffData (firstn (length frame - 5) (skipn 4 frame))
                      = payload ++ [bcc2_of payload]))
    /\ (forall (buf junk packet : list Z) (rest : list event),
          ~ In FLAG junk ->
          (length (build_iframe (expectedSeq l) buf) <= 2048)%nat ->
          rx l = map Rx (junk ++ build_iframe (expectedSeq l) buf) ++ rest ->
          llread packet l
          = (Returned (Z.of_nat (length buf)),
             buf ++ skipn (length buf) packet,
             mkLink (sequenceNumber l) (1 - expectedSeq l) rest
                    (tx l ++ [reply_frame (rr_for (expectedSeq l))]))).
Proof.
  intros l Hs Hr.
  destruct (lxor_bit Hs) as [Hxs _]. destruct (lxor_bit Hr) as [Hxr _].
  split; [| split; [| split; [| split; [| split; [| split]]]]].
  - intros bufs k c Hnth. now apply llwrite_calls_bits.
  - intro buf. unfold llwrite, llwrite_with.
    destruct (llwrite_loop_spec MAX_RETRIES buf l)
      as (k & _ & _ & _ & _ & Hcase).
    destruct Hcase as [(Ho & Hsn & _) | [(Ho & Hsn) | (Ho & Hsn & _)]].
    + left. rewrite Ho. split; [reflexivity | exact Hsn].
    + left. rewrite Ho. split; [reflexivity | exact Hsn].
    + right. split; [exact Ho |]. split; [now rewrite Hsn |].
      apply llwrite_loop_reads_rr. rewrite Ho. cbn [succeeded].
      apply Z.leb_le. lia.
  - intros buf atts junk rest Hk Hq Hj Hrx.
    unfold llwrite, llwrite_with.
    replace MAX_RETRIES
      with (length atts + S (MAX_RETRIES - S (length atts)))%nat by lia.
    rewrite (@llwrite_loop_failed_waits (length atts) _ buf l
               (junk ++ map Rx (reply_frame (expected_rr (sequenceNumber l)))
                ++ rest))
      by (rewrite Hrx; now apply failed_attempts_waits).
    cbn [llwrite_loop writeBytesSerialPort rx sequenceNumber].
    rewrite wait_ack_skips_quiet by exact Hj.
    rewrite wait_ack_reply by now left.
    rewrite Z.eqb_refl.
    unfold with_sequenceNumber, with_rx, writeBytesSerialPort.
    cbn [sequenceNumber expectedSeq rx tx].
    rewrite Hxs, <- app_assoc.
    replace (repeat (build_iframe (sequenceNumber l) buf) (length atts)
             ++ [build_iframe (sequenceNumber l) buf])
      with (repeat (build_iframe (sequenceNumber l) buf) (S (length atts)));
      [reflexivity |].
    rewrite <- (Nat.add_1_r (length atts)), repeat_app. reflexivity.
  - intros buf atts rest Hk Hq Hrx.
    unfold llwrite, llwrite_with. rewrite <- Hk.
    replace (length atts) with (length atts + 0)%nat at 1 by lia.
    rewrite (@llwrite_loop_failed_waits (length atts) 0 buf l rest)
      by (rewrite Hrx; now apply failed_attempts_waits).
    reflexivity.
  - intros n packet k c Hnth. now apply llread_calls_bits.
  - intro packet. unfold llread.
    destruct (read_frame false [] (rx l)) as [[frame tr] |].
    + destruct (llread_frame_spec frame packet (with_rx tr l))
        as [(Ho & Hp & c & _ & Hl) | (payload & Ho & Hp & Hl & Hseq & Hd)].
      * left. rewrite Ho, Hp, Hl. repeat split.
      * right. rewrite Hl.
        cbn [with_rx with_expectedSeq writeBytesSerialPort expectedSeq rx]
          in *.
        split; [exact Hxr |].
        exists payload, frame. repeat split; assumption.
    + left. repeat split.
  - intros buf junk packet rest Hj Hlen Hrx.
    now apply (@llread_accepts_iframe buf junk packet l rest).
Qed.

(** A first write that meets a REJ0 and a timeout before its RR1, then a
    second write acknowledged at once by RR0. *)
Lemma sequence_bits_alternate_witness :
  let l := link_init (map Rx (reply_frame C_REJ0) ++ [Alarm]
                      ++ map Rx (reply_frame C_RR1 ++ reply_frame C_RR0)) in
  let log := fst (llwrite_calls [[0x48; 0x69]; [0x6F; 0x6B]] l) in
  is_bit (sequenceNumber l)
  /\ is_bit (expectedSeq l)
  /\ map call_seq log = [0; 1]
  /\ map (fun c => length (call_written c)) log = [3%nat; 1%nat]
  /\ forall c : call,
       nth_error log 1 = Some c ->
       call_seq c = flip_n (successes (firstn 1 log)) (sequenceNumber l)
       /\ Forall (fun f => nth 2 f 0 = if call_seq c =? 0 then 0x00 else 0x40)
                 (call_written c).
Proof.
  cbv zeta.
  assert (Hs : is_bit (sequenceNumber
            (link_init (map Rx (reply_frame C_REJ0) ++ [Alarm]
                        ++ map Rx (reply_frame C_RR1 ++ reply_frame C_RR0)))))
    by (left; reflexivity).
  assert (Hr : is_bit (expectedSeq
            (link_init (map Rx (reply_frame C_REJ0) ++ [Alarm]
                        ++ map Rx (reply_frame C_RR1 ++ reply_frame C_RR0)))))
    by (left; reflexivity).
  split; [exact Hs |]. split; [exact Hr |]. split; [reflexivity |].
  split; [reflexivity |].
  intros c Hc.
  exact (proj1 (sequence_bits_alternate
                  (link_init (map Rx (reply_frame C_REJ0) ++ [Alarm]
                              ++ map Rx (reply_frame C_RR1
                                         ++ reply_frame C_RR0)))
                  Hs Hr)
               [[0x48; 0x69]; [0x6F; 0x6B]] 1%nat c Hc).
Defined.
